(** * StitchPix front end: a shallow embedding of the generation flow

    The repository holds two iterations of one React component:
    [src/App.js] (its header calls it Option A) and a second file whose
    header calls it Option B.  They share their control flow and differ in
    the model registry, in how a model id is resolved, and in message
    texts.  The embedding below is written once and takes the iteration as
    a parameter [v : Variant].

    React state is a record threaded through the handlers; the browser
    (network, image decoding, the 2D canvas, the file reader) is an
    explicit environment of oracles; every outward call is written to a
    ghost log so that statements can count them. *)

From Stdlib Require Import ZArith QArith Qround Ascii String List Bool Lia.
From stdpp Require Import base strings gmap pretty.
Import ListNotations.

Local Open Scope Z_scope.
Local Open Scope string_scope.

(** ** JavaScript primitives used by the component *)

Module JS.

(** [!s] on a string: only the empty string is falsy. *)
Definition truthy (s : string) : bool :=
  match s with EmptyString => false | String _ _ => true end.

(** [!x] on a value that is either [null] or a string. *)
Definition truthy_opt (o : option string) : bool :=
  match o with None => false | Some s => truthy s end.

(** [a || b] on two nullable strings. *)
Definition or_else (a b : option string) : option string :=
  if truthy_opt a then a else b.

(** *** Strings

    A JavaScript string is a sequence of UTF-16 code units.  The
    embedding keeps a string as the bytes of its UTF-8 form, the form
    the literals of the source files are stored in, and reads characters
    and code units off those bytes.  Emptiness, equality, prefixes and
    splitting at an ASCII character are the same on both forms; length,
    white space and the regular expression are taken on the code units. *)

(** The payload of a continuation byte [10xxxxxx]. *)
Definition cont (b : ascii) : option N :=
  let n := N_of_ascii b in
  if (128 <=? n)%N && (n <? 192)%N then Some (n - 128)%N else None.

(** How many bytes the sequence opened by a byte has: 1 for ASCII, 2 to 4
    for a lead byte, 0 for a byte that opens nothing. *)
Definition width (n : N) : nat :=
  if (n <? 128)%N then 1
  else if (n <? 192)%N then 0
  else if (n <? 224)%N then 2
  else if (n <? 240)%N then 3
  else if (n <? 248)%N then 4
  else 0.

(** The characters of a string: each code point with the bytes that spell
    it.  Sequences are read as UTF-8, shortest form only and up to
    U+10FFFF; a three-byte sequence in the surrogate range stands for a
    lone surrogate, so that every JavaScript string has its bytes.  A byte
    that opens no such sequence stands alone and reads as U+FFFD. *)
Fixpoint chars (s : string) : list (N * string) :=
  match s with
  | EmptyString => []
  | String b0 s1 =>
      let n0 := N_of_ascii b0 in
      let alone := (65533%N, String b0 EmptyString) :: chars s1 in
      match width n0, s1 with
      | 1%nat, _ => (n0, String b0 EmptyString) :: chars s1
      | 2%nat, String b1 s2 =>
          match cont b1 with
          | Some c1 =>
              let cp := ((n0 - 192) * 64 + c1)%N in
              if (128 <=? cp)%N
              then (cp, String b0 (String b1 EmptyString)) :: chars s2
              else alone
          | None => alone
          end
      | 3%nat, String b1 (String b2 s3) =>
          match cont b1, cont b2 with
          | Some c1, Some c2 =>
              let cp := (((n0 - 224) * 64 + c1) * 64 + c2)%N in
              if (2048 <=? cp)%N
              then (cp, String b0 (String b1 (String b2 EmptyString))) :: chars s3
              else alone
          | _, _ => alone
          end
      | 4%nat, String b1 (String b2 (String b3 s4)) =>
          match cont b1, cont b2, cont b3 with
          | Some c1, Some c2, Some c3 =>
              let cp := ((((n0 - 240) * 64 + c1) * 64 + c2) * 64 + c3)%N in
              if (65536 <=? cp)%N && (cp <=? 1114111)%N
              then (cp, String b0 (String b1 (String b2 (String b3 EmptyString))))
                   :: chars s4
              else alone
          | _, _, _ => alone
          end
      | _, _ => alone
      end
  end.

(** The bytes of a run of characters. *)
Definition spell (cs : list (N * string)) : string :=
  fold_right (fun c t => String.append (snd c) t) EmptyString cs.

(** The UTF-16 code units of one code point: itself, or a surrogate pair. *)
Definition utf16 (cp : N) : list N :=
  if (cp <? 65536)%N then [cp]
  else [(55296 + (cp - 65536) / 1024)%N; (56320 + (cp - 65536) mod 1024)%N].

(** The code units of a string. *)
Definition units (s : string) : list N := flat_map utf16 (map fst (chars s)).

(** [s.length] *)
Definition length (s : string) : nat := List.length (units s).

(** The code unit of an ASCII character. *)
Definition code (c : ascii) : N := N_of_ascii c.

(** White space as [String.prototype.trim] and the regex class [\s] see
    it: the WhiteSpace and LineTerminator code points of ECMAScript, that
    is tab, LF, VT, FF, CR, space, U+00A0, U+1680, U+2000 to U+200A,
    U+2028, U+2029, U+202F, U+205F, U+3000 and U+FEFF. *)
Definition is_ws (n : N) : bool :=
  ((9 <=? n)%N && (n <=? 13)%N) || (n =? 32)%N || (n =? 160)%N || (n =? 5760)%N
  || ((8192 <=? n)%N && (n <=? 8202)%N) || (n =? 8232)%N || (n =? 8233)%N
  || (n =? 8239)%N || (n =? 8287)%N || (n =? 12288)%N || (n =? 65279)%N.

(** What is left of a run of characters once the white space at its head
    is dropped. *)
Fixpoint dropSpace (cs : list (N * string)) : list (N * string) :=
  match cs with
  | c :: cs' => if is_ws (fst c) then dropSpace cs' else cs
  | [] => []
  end.

(** [s.trim()]: the white space at the head is dropped, then the white
    space at the tail. *)
Definition trim (s : string) : string :=
  spell (rev (dropSpace (rev (dropSpace (chars s))))).

Definition startsWith (s p : string) : bool := String.prefix p s.

(** [Math.round x]: the nearest integer, ties towards plus infinity.
    The component only rounds products of an integer pixel count with
    one of the constants 0.25, 1.2, 0.08, 0.1, 0.5, 0.4 and halves of
    integers.  On such arguments the binary64 evaluation and the exact
    rational one below agree for every pixel count an image can have:
    the product is either an exact tie (kept, or moved up, by binary64)
    or at least 1/50 away from one. *)
Definition Math_round (x : Q) : Z := Qfloor (x + (1 # 2))%Q.

End JS.

(** ** Model registry *)

Inductive Variant := OptionA | OptionB.

Record ModelDescriptor := {
  id : string;
  name : string;
  needsApi : bool;
  description : string
}.

Record AiModels := { free : list ModelDescriptor; paid : list ModelDescriptor }.

Definition aiModels (v : Variant) : AiModels :=
  match v with
  | OptionA =>
      {| free :=
           [ {| id := "canvas"; name := "Canvas Merge (Free)"; needsApi := false;
                description := "Basic image merging using canvas" |};
             {| id := "nanobanana"; name := "Nano Banana API"; needsApi := true;
                description := "Advanced virtual try-on" |};
             {| id := "deepai"; name := "DeepAI Image Editor"; needsApi := true;
                description := "Image editing/generation" |};
             {| id := "huggingface"; name := "Hugging Face Inference API"; needsApi := true;
                description := "Open-source ML models" |} ];
         paid :=
           [ {| id := "replicate"; name := "Replicate API"; needsApi := true;
                description := "Run community models" |};
             {| id := "stability"; name := "Stability AI"; needsApi := true;
                description := "Image generation API" |} ] |}
  | OptionB =>
      {| free :=
           [ {| id := "canvas"; name := "Canvas Merge (Free)"; needsApi := false;
                description := "Local canvas merging fallback" |};
             {| id := "nanobanana"; name := "NanoBanana"; needsApi := true;
                description := "Virtual try-on API" |};
             {| id := "deepai"; name := "DeepAI"; needsApi := true;
                description := "Image editing API" |} ];
         paid :=
           [ {| id := "replicate"; name := "Replicate"; needsApi := true;
                description := "Community models" |};
             {| id := "stability"; name := "Stability AI"; needsApi := true;
                description := "Image generation" |} ] |}
  end.

(** [[...aiModels.free, ...aiModels.paid]] *)
Definition allModels (v : Variant) : list ModelDescriptor :=
  free (aiModels v) ++ paid (aiModels v).

(** [allModels.find((m) => m.id === selectedModel)]; [None] is [undefined]. *)
Definition findModel (v : Variant) (selectedModel : string) : option ModelDescriptor :=
  List.find (fun m => String.eqb (id m) selectedModel) (allModels v).

(** The descriptor a render works with.  Option A keeps the bare result of
    [find] in [currentModelData] and reads it through [?.]; Option B
    writes [find(...) || allModels[0]]. *)
Definition currentModelData (v : Variant) (selectedModel : string) : option ModelDescriptor :=
  match v with
  | OptionA => findModel v selectedModel
  | OptionB =>
      match findModel v selectedModel with
      | Some m => Some m
      | None => head (allModels v)
      end
  end.

(** [currentModelData?.needsApi], with [undefined] falsy. *)
Definition requiresCredential (o : option ModelDescriptor) : bool :=
  match o with Some m => needsApi m | None => false end.

(** ** Form validation *)

(** The fragment of regular expressions the e-mail pattern is written in,
    matched by derivatives.  Without the [u] flag a class matches one
    UTF-16 code unit. *)
Module Regex.

Inductive t :=
| Fail
| Eps
| Class (p : N -> bool)
| Cat (r s : t)
| Alt (r s : t)
| Star (r : t).

Definition Plus (r : t) : t := Cat r (Star r).
Definition Chr (c : N) : t := Class (N.eqb c).

Fixpoint nullable (r : t) : bool :=
  match r with
  | Fail => false
  | Eps => true
  | Class _ => false
  | Cat r s => nullable r && nullable s
  | Alt r s => nullable r || nullable s
  | Star _ => true
  end.

Fixpoint deriv (c : N) (r : t) : t :=
  match r with
  | Fail => Fail
  | Eps => Fail
  | Class p => if p c then Eps else Fail
  | Cat r s =>
      if nullable r then Alt (Cat (deriv c r) s) (deriv c s)
      else Cat (deriv c r) s
  | Alt r s => Alt (deriv c r) (deriv c s)
  | Star r => Cat (deriv c r) (Star r)
  end.

(** [/^r$/.test(s)], on the code units of [s]. *)
Fixpoint test (r : t) (s : list N) : bool :=
  match s with
  | [] => nullable r
  | c :: s' => test (deriv c r) s'
  end.

End Regex.

(** The class [[^\s@]]. *)
Definition notSpaceAt (c : N) : bool :=
  negb (JS.is_ws c) && negb (N.eqb c (JS.code "@")).

(** [/^[^\s@]+@[^\s@]+\.[^\s@]+$/] *)
Definition emailPattern : Regex.t :=
  Regex.Cat (Regex.Plus (Regex.Class notSpaceAt))
    (Regex.Cat (Regex.Chr (JS.code "@"))
       (Regex.Cat (Regex.Plus (Regex.Class notSpaceAt))
          (Regex.Cat (Regex.Chr (JS.code ".")) (Regex.Plus (Regex.Class notSpaceAt))))).

Definition isValidEmail (email : string) : bool :=
  Regex.test emailPattern (JS.units email).

(** [typeof pwd === "string" && pwd.length >= 6] *)
Definition isValidPassword (pwd : string) : bool :=
  (6 <=? JS.length pwd)%nat.

(** ** Browser values *)

(** A thrown [Error]; only its [message] is ever read. *)
Record Error := { message : string }.

Record User := { userName : option string; userEmail : option string }.

(** A parsed JSON response body: [null], or a value with the fields the
    component reads.  A field that is absent reads as [undefined], and so
    does every field of a number, a string, a boolean or an array. *)
Inductive Json :=
| JsonNull
| JsonValue (output_url image_url token : option string) (user : option User)
    (message : option string).

(** [data === null]: reading a property of it throws a [TypeError]. *)
Definition isNull (data : Json) : bool :=
  match data with JsonNull => true | JsonValue _ _ _ _ _ => false end.

(** The fields, read through [?.]. *)
Definition output_url (data : Json) : option string :=
  match data with JsonValue x _ _ _ _ => x | JsonNull => None end.
Definition image_url (data : Json) : option string :=
  match data with JsonValue _ x _ _ _ => x | JsonNull => None end.
Definition jtoken (data : Json) : option string :=
  match data with JsonValue _ _ x _ _ => x | JsonNull => None end.
Definition juser (data : Json) : option User :=
  match data with JsonValue _ _ _ x _ => x | JsonNull => None end.
Definition jmessage (data : Json) : option string :=
  match data with JsonValue _ _ _ _ x => x | JsonNull => None end.

Record Response := {
  ok : bool;
  status : Z;
  json : Error + Json        (* [res.json()]: rejects on an unparsable body *)
}.

Inductive Endpoint :=
| AuthSignup          (* `${BACKEND}/api/auth/signup` *)
| AuthLogin           (* `${BACKEND}/api/auth/login` *)
| NanoBananaTryOn     (* https://api.nanobanana.ai/api/try-on *)
| DeepAIImageEditor.  (* https://api.deepai.org/api/image-editor *)

Inductive Body :=
| SignupBody (name email password : string)
| LoginBody (email password : string)
| TryOnForm (person_image garment_image : string)
| ImageEditorBody (image text : string).

Record Request := {
  endpoint : Endpoint;
  credential : option string;    (* [Authorization] or [api-key] header *)
  body : Body
}.

Record File := { type : string; size : Z }.

Record Rect := { rx : Z; ry : Z; rw : Z; rh : Z }.

(** One call of [ctx.drawImage]: the image by its source string, the
    source rectangle of the nine-argument form, the destination. *)
Record DrawCall := {
  image : string;
  crop : option Rect;
  dest : Rect
}.

Inductive CanvasOp :=
| Save
| Restore
| BeginPath
| RoundRect (r : Rect) (radius : Z)
| MoveTo (x y : Z)
| ArcTo (x1 y1 x2 y2 radius : Z)
| ClosePath
| Clip
| DrawImage (c : DrawCall).

(** The canvas element together with what its context was told, latest
    operation last. *)
Record Canvas := {
  width : Z;
  height : Z;
  ops : list CanvasOp
}.

(** How an awaited promise ends. *)
Inductive Settled (A : Type) :=
| Resolved (a : A)
| Rejected (e : Error)
| Pending.                  (* never settles *)
Arguments Resolved {A} a.
Arguments Rejected {A} e.
Arguments Pending {A}.

(** Outward calls, in the order they are made. *)
Inductive Effect :=
| Fetch (r : Request)
| Compose (userPhotoData dressPhotoData : string)
| ReadAsDataURL (f : File).

Definition isFetch (e : Effect) : bool :=
  match e with Fetch _ => true | _ => false end.
Definition isCompose (e : Effect) : bool :=
  match e with Compose _ _ => true | _ => false end.
Definition isRead (e : Effect) : bool :=
  match e with ReadAsDataURL _ => true | _ => false end.

Definition networkCalls (log : list Effect) : nat := List.length (List.filter isFetch log).
Definition composeCalls (log : list Effect) : nat := List.length (List.filter isCompose log).
Definition fileReads (log : list Effect) : nat := List.length (List.filter isRead log).

(** The browser as the component meets it.  A 2D context is always
    handed out, and [toDataURL] always encodes: the photos are data URLs
    read from local files, so the canvas stays origin-clean. *)
Record Env := {
  fetch : Request -> Error + Response;        (* rejects on a network failure *)
  decodeImage : string -> option (Z * Z);     (* [load] with the size, or [error] *)
  hasRoundRect : bool;                        (* [typeof ctx.roundRect === "function"] *)
  drawImageThrows : DrawCall -> option Error;   (* the exception a call raises, if any *)
  toDataURL : Canvas -> string;
  base64ToBlob : string -> option Error;      (* [atob] and the string surgery may throw *)
  readFile : File -> option string;           (* [FileReader]: the data URL, or [error] *)
  nullAccess : string -> Error;               (* the [TypeError] of reading a field of [null] *)
  mounted : bool                              (* [mountedRef.current] when a promise settles *)
}.

(** ** React state *)

Inductive Page := Login | Upload | Results.

(** An element of [generatedImages]: [{ id, url, quality, source }]. *)
Record GeneratedImage := {
  imageId : Z;
  url : string;
  quality : string;
  source : string
}.

(** A [localStorage] value: a plain string, or [JSON.stringify] of a
    user object. *)
Inductive Stored :=
| Str (s : string)
| UserJson (u : User).

Record Auth := {
  user : option User;
  token : option string;
  authError : string;
  isLoadingAuth : bool;
  authName : string;
  authEmail : string;
  authPassword : string
}.

Record App := {
  userPhoto : option string;          (* data URL, or [null] *)
  dressPhoto : option string;
  generatedImages : list GeneratedImage;
  apiKey : string;
  isGenerating : bool;
  isUploadingImage : bool;
  errorMessage : string;
  selectedModel : string
}.

Record State := {
  currentPage : Page;
  auth : Auth;
  app : App;
  localStorage : gmap string Stored
}.

Definition onAuth (f : Auth -> Auth) (st : State) : State :=
  let '(Build_State p a b l) := st in Build_State p (f a) b l.
Definition onApp (f : App -> App) (st : State) : State :=
  let '(Build_State p a b l) := st in Build_State p a (f b) l.

Definition setCurrentPage (x : Page) (st : State) : State :=
  let '(Build_State _ a b l) := st in Build_State x a b l.
Definition localStorage_setItem (k : string) (x : Stored) (st : State) : State :=
  let '(Build_State p a b l) := st in Build_State p a b (<[k := x]> l).

Definition setUser (x : option User) : State -> State :=
  onAuth (fun '(Build_Auth _ t e l n m p) => Build_Auth x t e l n m p).
Definition setToken (x : option string) : State -> State :=
  onAuth (fun '(Build_Auth u _ e l n m p) => Build_Auth u x e l n m p).
Definition setAuthError (x : string) : State -> State :=
  onAuth (fun '(Build_Auth u t _ l n m p) => Build_Auth u t x l n m p).
Definition setIsLoadingAuth (x : bool) : State -> State :=
  onAuth (fun '(Build_Auth u t e _ n m p) => Build_Auth u t e x n m p).
Definition setAuthName (x : string) : State -> State :=
  onAuth (fun '(Build_Auth u t e l _ m p) => Build_Auth u t e l x m p).
Definition setAuthEmail (x : string) : State -> State :=
  onAuth (fun '(Build_Auth u t e l n _ p) => Build_Auth u t e l n x p).
Definition setAuthPassword (x : string) : State -> State :=
  onAuth (fun '(Build_Auth u t e l n m _) => Build_Auth u t e l n m x).

Definition setUserPhoto (x : option string) : State -> State :=
  onApp (fun '(Build_App _ d g k i u e s) => Build_App x d g k i u e s).
Definition setDressPhoto (x : option string) : State -> State :=
  onApp (fun '(Build_App p _ g k i u e s) => Build_App p x g k i u e s).
Definition setGeneratedImages (x : list GeneratedImage) : State -> State :=
  onApp (fun '(Build_App p d _ k i u e s) => Build_App p d x k i u e s).
Definition setIsGenerating (x : bool) : State -> State :=
  onApp (fun '(Build_App p d g k _ u e s) => Build_App p d g k x u e s).
Definition setIsUploadingImage (x : bool) : State -> State :=
  onApp (fun '(Build_App p d g k i _ e s) => Build_App p d g k i x e s).
Definition setErrorMessage (x : string) : State -> State :=
  onApp (fun '(Build_App p d g k i u _ s) => Build_App p d g k i u x s).

(** What a handler leaves behind: the state after its last update, the
    outward calls it made, and whether it ran to its end ([false] when it
    is left waiting on a promise that never settles). *)
Record Run := {
  final : State;
  log : list Effect;
  completed : bool
}.

Definition done (st : State) (l : list Effect) : Run :=
  {| final := st; log := l; completed := true |}.
Definition stuck (st : State) (l : list Effect) : Run :=
  {| final := st; log := l; completed := false |}.

(** ** Message texts of the two iterations *)

Module Msg.

Definition uploadBoth (v : Variant) : string :=
  match v with
  | OptionA => "Upload both your photo and the dress model."
  | OptionB => "Please upload both photos."
  end.

Definition apiKeyRequired (m : ModelDescriptor) : string :=
  "API key required for " +:+ name m.

Definition nanoFailed (v : Variant) (st : Z) : string :=
  match v with
  | OptionA => "NanoBanana API failed (" +:+ pretty st +:+ ")"
  | OptionB => "NanoBanana failed (" +:+ pretty st +:+ ")"
  end.

Definition nanoNoImage (v : Variant) : string :=
  match v with
  | OptionA => "NanoBanana returned no image URL"
  | OptionB => "NanoBanana returned no image"
  end.

Definition nanoQuality (v : Variant) : string :=
  match v with OptionA => "AI Enhanced (NanoBanana)" | OptionB => "NanoBanana" end.

Definition deepaiFailed (st : Z) : string := "DeepAI failed (" +:+ pretty st +:+ ")".

Definition deepaiQuality (v : Variant) : string :=
  match v with OptionA => "AI Enhanced (DeepAI)" | OptionB => "DeepAI" end.

Definition noImages (v : Variant) : string :=
  match v with
  | OptionA => "No images returned from model"
  | OptionB => "Model returned no images"
  end.

(** The dash of Option A is stored mis-encoded in the file. *)
Definition fallingBack (v : Variant) (err : Error) : string :=
  match v with
  | OptionA => message err +:+ " ‚Äî falling back to canvas merge..."
  | OptionB => message err +:+ " — falling back to canvas..."
  end.

Definition generationFailed (v : Variant) (fbErr : Error) : string :=
  match v with
  | OptionA => "Generation failed: " +:+ message fbErr
  | OptionB => "Generation failed."
  end.

Definition invalidLoginEmail (v : Variant) : string :=
  match v with OptionA => "Enter a valid email" | OptionB => "Enter valid email" end.

Definition enterPassword (v : Variant) : string :=
  match v with OptionA => "Please enter your password" | OptionB => "Enter password" end.

Definition loginFailed (v : Variant) (st : Z) : string :=
  match v with
  | OptionA => "Login failed (status " +:+ pretty st +:+ ")"
  | OptionB => "Login failed (" +:+ pretty st +:+ ")"
  end.

Definition loginNetwork : string := "Login failed. Check network or server.".

Definition nameTooShort (v : Variant) : string :=
  match v with
  | OptionA => "Name must be at least 2 characters long"
  | OptionB => "Name must be at least 2 characters"
  end.

Definition invalidSignupEmail : string := "Invalid email".

Definition passwordTooShort (v : Variant) : string :=
  match v with
  | OptionA => "Password must be at least 6 characters"
  | OptionB => "Password must be >= 6 chars"
  end.

Definition signupFailed (v : Variant) (st : Z) : string :=
  match v with
  | OptionA => "Signup failed (status " +:+ pretty st +:+ ")"
  | OptionB => "Signup failed (" +:+ pretty st +:+ ")"
  end.

Definition signupNetwork (v : Variant) : string :=
  match v with
  | OptionA => "Signup failed. Check network or try again."
  | OptionB => "Signup failed. Check network or server."
  end.

Definition notAnImage (v : Variant) : string :=
  match v with
  | OptionA => "Please upload an image file (jpg, png, etc.)"
  | OptionB => "Upload an image file (jpg/png)"
  end.

Definition tooLarge (v : Variant) : string :=
  match v with
  | OptionA => "Image too large. Max 6MB."
  | OptionB => "Image too large (max 6MB)"
  end.

Definition readFailed (v : Variant) : string :=
  match v with
  | OptionA => "Failed to read image file."
  | OptionB => "Failed to read file"
  end.

End Msg.

(** ** The canvas merge *)

(** Statements run against the canvas: each one leaves a canvas behind and
    either returns or throws. *)
Module Ctx.

Definition M (A : Type) : Type := Canvas -> (Error + A) * Canvas.

Definition ret {A} (a : A) : M A := fun c => (inr a, c).

Definition bind {A B} (m : M A) (k : A -> M B) : M B :=
  fun c =>
    match m c with
    | (inr a, c') => k a c'
    | (inl e, c') => (inl e, c')
    end.

(** [try { m } catch { h }] *)
Definition try_catch {A} (m : M A) (h : M A) : M A :=
  fun c =>
    match m c with
    | (inr a, c') => (inr a, c')
    | (inl _, c') => h c'
    end.

Definition getWidth : M Z := fun c => (inr (width c), c).
Definition getHeight : M Z := fun c => (inr (height c), c).

(** [canvas.width = w] *)
Definition setWidth (w : Z) : M unit :=
  fun c => (inr tt, {| width := w; height := height c; ops := ops c |}).

(** [canvas.height = h] *)
Definition setHeight (h : Z) : M unit :=
  fun c => (inr tt, {| width := width c; height := h; ops := ops c |}).

(** A context call that cannot throw. *)
Definition op (o : CanvasOp) : M unit :=
  fun c => (inr tt, {| width := width c; height := height c; ops := ops c ++ [o] |}).

(** [ctx.drawImage(...)]: nothing is drawn when it throws. *)
Definition drawImage (env : Env) (call : DrawCall) : M unit :=
  fun c =>
    match drawImageThrows env call with
    | Some e => (inl e, c)
    | None => op (DrawImage call) c
    end.

(** [canvas.toDataURL("image/png")]; Option A also passes a quality,
    which PNG encoding ignores. *)
Definition toDataURL (env : Env) : M string :=
  fun c => (inr (toDataURL env c), c).

End Ctx.

Notation "'let*' x ':=' m 'in' k" := (Ctx.bind m (fun x => k))
  (at level 10, x name, m at level 99, k at level 200).
Notation "m ;;; k" := (Ctx.bind m (fun _ => k))
  (at level 100, right associativity).

(** A loaded [Image]: its [src] and decoded size. *)
Record Img := { src : string; imgWidth : Z; imgHeight : Z }.

(** The rectangle the face is pasted into, from the canvas size. *)
Definition faceBox (canvasWidth canvasHeight : Z) : Rect :=
  let faceWidth := JS.Math_round (inject_Z canvasWidth * 0.25) in
  let faceHeight := JS.Math_round (inject_Z faceWidth * 1.2) in
  let faceX := JS.Math_round ((inject_Z canvasWidth - inject_Z faceWidth) / 2) in
  let faceY := JS.Math_round (inject_Z canvasHeight * 0.08) in
  {| rx := faceX; ry := faceY; rw := faceWidth; rh := faceHeight |}.

(** The rectangle cut out of the user image, from its own size. *)
Definition userCrop (userWidth userHeight : Z) : Rect :=
  let uX := JS.Math_round (inject_Z userWidth * 0.25) in
  let uY := JS.Math_round (inject_Z userHeight * 0.1) in
  let uW := JS.Math_round (inject_Z userWidth * 0.5) in
  let uH := JS.Math_round (inject_Z userHeight * 0.4) in
  {| rx := uX; ry := uY; rw := uW; rh := uH |}.

(** The clipping path: [ctx.roundRect] where the browser has it, four
    [arcTo] corners otherwise. *)
Definition clipFace (env : Env) (face : Rect) : Ctx.M unit :=
  let faceX := rx face in
  let faceY := ry face in
  let faceWidth := rw face in
  let faceHeight := rh face in
  if hasRoundRect env then
    Ctx.op BeginPath ;;;
    Ctx.op (RoundRect face 36) ;;;
    Ctx.op Clip
  else
    let r := 36 in
    Ctx.op BeginPath ;;;
    Ctx.op (MoveTo (faceX + r) faceY) ;;;
    Ctx.op (ArcTo (faceX + faceWidth) faceY (faceX + faceWidth) (faceY + faceHeight) r) ;;;
    Ctx.op (ArcTo (faceX + faceWidth) (faceY + faceHeight) faceX (faceY + faceHeight) r) ;;;
    Ctx.op (ArcTo faceX (faceY + faceHeight) faceX faceY r) ;;;
    Ctx.op (ArcTo faceX faceY (faceX + faceWidth) faceY r) ;;;
    Ctx.op ClosePath ;;;
    Ctx.op Clip.

(** The body of [dressImg.onload], up to the encoded image it hands to
    [resolve]. *)
Definition dressImg_onload (env : Env) (userImg dressImg : Img) : Ctx.M string :=
  Ctx.setWidth (imgWidth dressImg) ;;;
  Ctx.setHeight (imgHeight dressImg) ;;;
  let* canvasWidth := Ctx.getWidth in
  let* canvasHeight := Ctx.getHeight in
  Ctx.drawImage env
    {| image := src dressImg; crop := None;
       dest := {| rx := 0; ry := 0; rw := canvasWidth; rh := canvasHeight |} |} ;;;
  let face := faceBox canvasWidth canvasHeight in
  let cut := userCrop (imgWidth userImg) (imgHeight userImg) in
  Ctx.op Save ;;;
  clipFace env face ;;;
  Ctx.try_catch
    (Ctx.drawImage env {| image := src userImg; crop := Some cut; dest := face |})
    (Ctx.drawImage env {| image := src userImg; crop := None; dest := face |}) ;;;
  Ctx.op Restore ;;;
  Ctx.toDataURL env.

(** A fresh [canvas] element. *)
Definition newCanvas : Canvas := {| width := 300; height := 150; ops := [] |}.

(** [createMergedImages]: a promise built around [resolve] alone.  The two
    images load one after the other; a handler that throws leaves the
    promise unsettled. *)
Definition createMergedImages (env : Env) (userPhotoData dressPhotoData : string)
  : Settled (list GeneratedImage) :=
  match decodeImage env userPhotoData with
  | None =>                                             (* userImg.onerror *)
      Resolved [ {| imageId := 1; url := dressPhotoData;
                    quality := "Original"; source := "original" |} ]
  | Some (uw, uh) =>                                    (* userImg.onload *)
      let userImg := {| src := userPhotoData; imgWidth := uw; imgHeight := uh |} in
      match decodeImage env dressPhotoData with
      | None =>                                         (* dressImg.onerror *)
          Resolved [ {| imageId := 1; url := userPhotoData;
                        quality := "Original"; source := "original" |} ]
      | Some (dw, dh) =>                                (* dressImg.onload *)
          let dressImg := {| src := dressPhotoData; imgWidth := dw; imgHeight := dh |} in
          match dressImg_onload env userImg dressImg newCanvas with
          | (inr mergedUrl, _) =>
              Resolved [ {| imageId := 1; url := mergedUrl;
                            quality := "Canvas Merged"; source := "canvas" |} ]
          | (inl _, _) => Pending
          end
      end
  end.

(** ** Remote adapters *)

(** The one element an adapter resolves with. *)
Definition remoteImage (u : option string) (q s : string) : list GeneratedImage :=
  [ {| imageId := 1; url := default "" u; quality := q; source := s |} ].

(** [callNanoBanana]: the outcome of the call and the requests it sent. *)
Definition callNanoBanana (v : Variant) (env : Env) (apiKey : string)
    (userPhotoData dressPhotoData : string)
  : Settled (list GeneratedImage) * list Effect :=
  if negb (JS.truthy apiKey) then
    (Rejected {| message := "NanoBanana requires API key" |}, [])
  else
    match base64ToBlob env userPhotoData with
    | Some e => (Rejected e, [])
    | None =>
        match base64ToBlob env dressPhotoData with
        | Some e => (Rejected e, [])
        | None =>
            let req := {| endpoint := NanoBananaTryOn;
                          credential := Some apiKey;
                          body := TryOnForm userPhotoData dressPhotoData |} in
            match fetch env req with
            | inl e => (Rejected e, [Fetch req])
            | inr res =>
                if negb (ok res) then
                  (Rejected {| message := Msg.nanoFailed v (status res) |}, [Fetch req])
                else
                  match json res with
                  | inl e => (Rejected e, [Fetch req])
                  | inr result =>
                      if isNull result then
                        (Rejected (nullAccess env "output_url"), [Fetch req])
                      else if JS.truthy_opt (output_url result)
                              || JS.truthy_opt (image_url result)
                      then (Resolved (remoteImage
                                        (JS.or_else (output_url result) (image_url result))
                                        (Msg.nanoQuality v) "nanobanana"),
                            [Fetch req])
                      else (Rejected {| message := Msg.nanoNoImage v |}, [Fetch req])
                  end
            end
        end
    end.

(** [callDeepAI]; only the user photo is sent. *)
Definition callDeepAI (v : Variant) (env : Env) (apiKey : string) (userPhotoData : string)
  : Settled (list GeneratedImage) * list Effect :=
  if negb (JS.truthy apiKey) then
    (Rejected {| message := "DeepAI requires API key" |}, [])
  else
    let req := {| endpoint := DeepAIImageEditor;
                  credential := Some apiKey;
                  body := ImageEditorBody userPhotoData
                            "merge with dress image and create virtual try-on" |} in
    match fetch env req with
    | inl e => (Rejected e, [Fetch req])
    | inr res =>
        if negb (ok res) then
          (Rejected {| message := Msg.deepaiFailed (status res) |}, [Fetch req])
        else
          match json res with
          | inl e => (Rejected e, [Fetch req])
          | inr data =>
              if isNull data then (Rejected (nullAccess env "output_url"), [Fetch req])
              else if JS.truthy_opt (output_url data)
              then (Resolved (remoteImage (output_url data) (Msg.deepaiQuality v) "deepai"),
                    [Fetch req])
              else (Rejected {| message := "DeepAI returned no image" |}, [Fetch req])
          end
    end.

(** ** The generate handler *)

(** The credential gate: the message it stops with, if it stops. *)
Definition missingCredential (v : Variant) (st : State) : option string :=
  match currentModelData v (selectedModel (app st)) with
  | Some m =>
      if needsApi m && negb (JS.truthy (apiKey (app st)))
      then Some (Msg.apiKeyRequired m)
      else None
  | None => None
  end.

(** The [try] block up to the emptiness check on what the model returned;
    [selectedModel] and [apiKey] are the values the render closed over. *)
Definition runModel (v : Variant) (env : Env) (selectedModel apiKey : string)
    (userPhoto dressPhoto : string)
  : Settled (list GeneratedImage) * list Effect :=
  let '(result, l) :=
    if String.eqb selectedModel "nanobanana" then
      callNanoBanana v env apiKey userPhoto dressPhoto
    else if String.eqb selectedModel "deepai" then
      callDeepAI v env apiKey userPhoto
    else
      (createMergedImages env userPhoto dressPhoto, [Compose userPhoto dressPhoto]) in
  match result with
  | Resolved [] => (Rejected {| message := Msg.noImages v |}, l)
  | _ => (result, l)
  end.

(** [finally { if (mountedRef.current) setIsGenerating(false); }] *)
Definition finallyGenerate (env : Env) (st : State) : State :=
  if mounted env then setIsGenerating false st else st.

Definition handleGenerate (v : Variant) (env : Env) (st : State) : Run :=
  let st := setErrorMessage "" st in
  match userPhoto (app st), dressPhoto (app st) with
  | Some u, Some d =>
      if negb (JS.truthy u) || negb (JS.truthy d) then
        done (setErrorMessage (Msg.uploadBoth v) st) []
      else
        match missingCredential v st with
        | Some msg => done (setErrorMessage msg st) []
        | None =>
            let st := setIsGenerating true st in
            match runModel v env (selectedModel (app st)) (apiKey (app st)) u d with
            | (Resolved result, l) =>
                done (finallyGenerate env
                        (setCurrentPage Results (setGeneratedImages result st))) l
            | (Rejected err, l) =>
                let st := setErrorMessage (Msg.fallingBack v err) st in
                let l := (l ++ [Compose u d])%list in
                match createMergedImages env u d with
                | Resolved fallback =>
                    done (finallyGenerate env
                            (setCurrentPage Results (setGeneratedImages fallback st))) l
                | Rejected fbErr =>
                    done (finallyGenerate env
                            (setErrorMessage (Msg.generationFailed v fbErr) st)) l
                | Pending => stuck st l
                end
            | (Pending, l) => stuck st l
            end
        end
  | _, _ => done (setErrorMessage (Msg.uploadBoth v) st) []
  end.

(** ** Sign-up and login *)

(** [{}], what a response body that does not parse is replaced by. *)
Definition emptyJson : Json := JsonValue None None None None None.

(** [await res.json().catch(() => ({}))]: a body that does not parse
    becomes [{}]; a body that parses to [null] stays [null]. *)
Definition jsonOrEmpty (res : Response) : Json :=
  match json res with inr data => data | inl _ => emptyJson end.

(** [data?.message || fallback] *)
Definition messageOr (data : Json) (fallback : string) : string :=
  match jmessage data with
  | Some m => if JS.truthy m then m else fallback
  | None => fallback
  end.

(** What both flows do with a successful response whose body is not
    [null]. *)
Definition storeSession (data : Json) (fallbackUser : User) (st : State) : State :=
  let st :=
    match jtoken data with
    | Some t =>
        if JS.truthy t
        then setToken (Some t) (localStorage_setItem "stitchpix_token" (Str t) st)
        else st
    | None => st
    end in
  let savedUser := default fallbackUser (juser data) in
  let st := localStorage_setItem "stitchpix_user" (UserJson savedUser) st in
  setCurrentPage Upload (setUser (Some savedUser) st).

Definition finallyAuth (env : Env) (st : State) : State :=
  if mounted env then setIsLoadingAuth false st else st.

Definition handleSignUp (v : Variant) (env : Env) (st : State) : Run :=
  let st := setAuthError "" st in
  let a := auth st in
  if negb (JS.truthy (authName a)) || (JS.length (JS.trim (authName a)) <? 2)%nat then
    done (setAuthError (Msg.nameTooShort v) st) []
  else if negb (isValidEmail (authEmail a)) then
    done (setAuthError Msg.invalidSignupEmail st) []
  else if negb (isValidPassword (authPassword a)) then
    done (setAuthError (Msg.passwordTooShort v) st) []
  else
    let st := setIsLoadingAuth true st in
    let req := {| endpoint := AuthSignup; credential := None;
                  body := SignupBody (JS.trim (authName a)) (JS.trim (authEmail a))
                            (authPassword a) |} in
    match fetch env req with
    | inl _ => done (finallyAuth env (setAuthError (Msg.signupNetwork v) st)) [Fetch req]
    | inr res =>
        let data := jsonOrEmpty res in
        if negb (ok res) then
          done (finallyAuth env
                  (setAuthError (messageOr data (Msg.signupFailed v (status res))) st))
            [Fetch req]
        else if isNull data then              (* [data.token] throws: the catch block *)
          done (finallyAuth env (setAuthError (Msg.signupNetwork v) st)) [Fetch req]
        else
          let fallbackUser := {| userName := Some (JS.trim (authName a));
                                 userEmail := Some (JS.trim (authEmail a)) |} in
          let st := storeSession data fallbackUser st in
          done (finallyAuth env (setAuthPassword "" (setAuthEmail "" (setAuthName "" st))))
            [Fetch req]
    end.

Definition handleLogin (v : Variant) (env : Env) (st : State) : Run :=
  let st := setAuthError "" st in
  let a := auth st in
  if negb (isValidEmail (authEmail a)) then
    done (setAuthError (Msg.invalidLoginEmail v) st) []
  else if negb (JS.truthy (authPassword a)) then
    done (setAuthError (Msg.enterPassword v) st) []
  else
    let st := setIsLoadingAuth true st in
    let req := {| endpoint := AuthLogin; credential := None;
                  body := LoginBody (JS.trim (authEmail a)) (authPassword a) |} in
    match fetch env req with
    | inl _ => done (finallyAuth env (setAuthError Msg.loginNetwork st)) [Fetch req]
    | inr res =>
        let data := jsonOrEmpty res in
        if negb (ok res) then
          done (finallyAuth env
                  (setAuthError (messageOr data (Msg.loginFailed v (status res))) st))
            [Fetch req]
        else if isNull data then              (* [data.token] throws: the catch block *)
          done (finallyAuth env (setAuthError Msg.loginNetwork st)) [Fetch req]
        else
          let fallbackUser := {| userName := None;
                                 userEmail := Some (JS.trim (authEmail a)) |} in
          let st := storeSession data fallbackUser st in
          done (finallyAuth env (setAuthPassword "" (setAuthEmail "" st))) [Fetch req]
    end.

(** ** Image upload *)

Definition validateImageFile (v : Variant) (file : File) : option string :=
  if negb (JS.startsWith (type file) "image/") then Some (Msg.notAnImage v)
  else if (6 * 1024 * 1024 <? size file)%Z then Some (Msg.tooLarge v)
  else None.

(** [if (type === "user") setUserPhoto(dataUrl); else setDressPhoto(dataUrl);] *)
Definition setPhoto (type : string) (dataUrl : option string) : State -> State :=
  if String.eqb type "user" then setUserPhoto dataUrl else setDressPhoto dataUrl.

(** [reader.onloadend]; it runs after a successful read and after a
    failed one, where [reader.result] is [null]. *)
Definition reader_onloadend (env : Env) (type : string) (result : option string)
    (st : State) : State :=
  if negb (mounted env) then st
  else setIsUploadingImage false (setPhoto type result st).

(** [reader.onerror] *)
Definition reader_onerror (v : Variant) (st : State) : State :=
  setErrorMessage (Msg.readFailed v) (setIsUploadingImage false st).

(** [handleImageUpload(e, type)], with [file] standing for
    [e.target.files?.[0]]. *)
Definition handleImageUpload (v : Variant) (env : Env) (file : option File)
    (type : string) (st : State) : Run :=
  let st := setErrorMessage "" st in
  match file with
  | None => done st []
  | Some file =>
      match validateImageFile v file with
      | Some err => done (setErrorMessage err st) []
      | None =>
          let st := setIsUploadingImage true st in
          match readFile env file with
          | Some dataUrl =>
              done (reader_onloadend env type (Some dataUrl) st) [ReadAsDataURL file]
          | None =>
              done (reader_onloadend env type None (reader_onerror v st))
                [ReadAsDataURL file]
          end
      end
  end.

(** * Vocabulary of the statements *)

(** ** Rounding *)

(** What the specification means by "p percent of n" once rounded:
    [z] is the integer nearest to [p * n / 100], a tie going up. *)
Definition isPercentOf (p n z : Z) : Prop :=
  200 * z - 100 <= 2 * p * n < 200 * z + 100.

(** "Horizontally centred": [x] is the integer nearest to half of the
    room left around [inner] inside [outer]. *)
Definition isCentered (outer inner x : Z) : Prop :=
  2 * x - 1 <= outer - inner < 2 * x + 1.

(** ** The canvas the merge produces *)

(** The canvas contract the merge relies on outside its [try]: drawing a
    whole decoded image, with no source rectangle, does not throw. *)
Definition wholeImageDrawsSucceed (env : Env) : Prop :=
  forall img dst, drawImageThrows env {| image := img; crop := None; dest := dst |} = None.

(** The clipping path as a list of context calls. *)
Definition clipPath (roundRect : bool) (face : Rect) : list CanvasOp :=
  if roundRect then
    [ BeginPath; RoundRect face 36; Clip ]
  else
    [ BeginPath;
      MoveTo (rx face + 36) (ry face);
      ArcTo (rx face + rw face) (ry face) (rx face + rw face) (ry face + rh face) 36;
      ArcTo (rx face + rw face) (ry face + rh face) (rx face) (ry face + rh face) 36;
      ArcTo (rx face) (ry face + rh face) (rx face) (ry face) 36;
      ArcTo (rx face) (ry face) (rx face + rw face) (ry face) 36;
      ClosePath; Clip ].


(** The cropped overlay call of the [try] block. *)
Definition croppedOverlay (userImg : Img) (face : Rect) : DrawCall :=
  {| image := src userImg;
     crop := Some (userCrop (imgWidth userImg) (imgHeight userImg));
     dest := face |}.

(** The whole-image overlay call of the [catch] block. *)
Definition wholeOverlay (userImg : Img) (face : Rect) : DrawCall :=
  {| image := src userImg; crop := None; dest := face |}.

(** The overlay that ends up drawn. *)
Definition overlay (env : Env) (userImg : Img) (face : Rect) : DrawCall :=
  match drawImageThrows env (croppedOverlay userImg face) with
  | None => croppedOverlay userImg face
  | Some _ => wholeOverlay userImg face
  end.

(** The base layer: the dress image over the whole canvas. *)
Definition baseLayer (dressImg : Img) : DrawCall :=
  {| image := src dressImg; crop := None;
     dest := {| rx := 0; ry := 0; rw := imgWidth dressImg; rh := imgHeight dressImg |} |}.

Definition mergedCanvas (env : Env) (userImg dressImg : Img) : Canvas :=
  let face := faceBox (imgWidth dressImg) (imgHeight dressImg) in
  {| width := imgWidth dressImg;
     height := imgHeight dressImg;
     ops := [ DrawImage (baseLayer dressImg); Save ]
            ++ clipPath (hasRoundRect env) face
            ++ [ DrawImage (overlay env userImg face); Restore ] |}.

Definition originalOf (data : string) : GeneratedImage :=
  {| imageId := 1; url := data; quality := "Original"; source := "original" |}.

Definition mergedOf (env : Env) (c : Canvas) : GeneratedImage :=
  {| imageId := 1; url := toDataURL env c; quality := "Canvas Merged"; source := "canvas" |}.

(** Context calls leave the size of the canvas alone. *)
Definition keepsSize {A} (m : Ctx.M A) : Prop :=
  forall c, width (snd (m c)) = width c /\ height (snd (m c)) = height c.

(** The handler once both photos are in place and the credential gate is
    passed. *)
Definition dispatch (v : Variant) (env : Env) (st : State) (u d : string) : Run :=
  let st := setIsGenerating true (setErrorMessage "" st) in
  match runModel v env (selectedModel (app st)) (apiKey (app st)) u d with
  | (Resolved result, l) =>
      done (finallyGenerate env (setCurrentPage Results (setGeneratedImages result st))) l
  | (Rejected err, l) =>
      let st := setErrorMessage (Msg.fallingBack v err) st in
      match createMergedImages env u d with
      | Resolved fallback =>
          done (finallyGenerate env
                  (setCurrentPage Results (setGeneratedImages fallback st)))
            (l ++ [Compose u d])
      | Rejected fbErr =>
          done (finallyGenerate env (setErrorMessage (Msg.generationFailed v fbErr) st))
            (l ++ [Compose u d])
      | Pending => stuck st (l ++ [Compose u d])
      end
  | (Pending, l) => stuck st l
  end.

Create HintDb canvas.

(** ** Concrete browsers and states *)

Module Scenario.

Definition subject : string := "data:image/png;base64,SUBJECT".
Definition garment : string := "data:image/png;base64,GARMENT".

(** An 800 x 600 subject, a 1000 x 1500 garment, nothing else decodes. *)
Definition sizes (data : string) : option (Z * Z) :=
  if String.eqb data subject then Some (800, 600)
  else if String.eqb data garment then Some (1000, 1500)
  else None.

(** A browser with no network: every request fails. *)
Definition offline : Env := {|
  fetch := fun _ => inl {| message := "Failed to fetch" |};
  decodeImage := sizes;
  hasRoundRect := true;
  drawImageThrows := fun _ => None;
  toDataURL := fun _ => "data:image/png;base64,MERGED";
  base64ToBlob := fun _ => None;
  readFile := fun _ => Some subject;
  nullAccess := fun field =>
    {| message := "Cannot read properties of null (reading '" +:+ field +:+ "')" |};
  mounted := true
|}.

(** The same, on a canvas that rejects every source rectangle and has no
    [roundRect]. *)
Definition cropRejecting : Env := {|
  fetch := fetch offline;
  decodeImage := sizes;
  hasRoundRect := false;
  drawImageThrows := fun call =>
    match crop call with
    | Some _ => Some {| message := "IndexSizeError" |}
    | None => None
    end;
  toDataURL := toDataURL offline;
  base64ToBlob := base64ToBlob offline;
  readFile := readFile offline;
  nullAccess := nullAccess offline;
  mounted := true
|}.

(** The same as [offline], with images that never decode. *)
Definition undecodable : Env := {|
  fetch := fetch offline;
  decodeImage := fun _ => None;
  hasRoundRect := true;
  drawImageThrows := fun _ => None;
  toDataURL := toDataURL offline;
  base64ToBlob := base64ToBlob offline;
  readFile := readFile offline;
  nullAccess := nullAccess offline;
  mounted := true
|}.

(** A canvas on which no draw goes through. *)
Definition brokenCanvas : Env := {|
  fetch := fetch offline;
  decodeImage := sizes;
  hasRoundRect := true;
  drawImageThrows := fun _ => Some {| message := "InvalidStateError" |};
  toDataURL := toDataURL offline;
  base64ToBlob := base64ToBlob offline;
  readFile := readFile offline;
  nullAccess := nullAccess offline;
  mounted := true
|}.

(** The state of the first render. *)
Definition initial : State := {|
  currentPage := Login;
  auth := {| user := None; token := None; authError := ""; isLoadingAuth := false;
             authName := ""; authEmail := ""; authPassword := "" |};
  app := {| userPhoto := None; dressPhoto := None; generatedImages := [];
            apiKey := ""; isGenerating := false; isUploadingImage := false;
            errorMessage := ""; selectedModel := "canvas" |};
  localStorage := ∅
|}.

(** The login form filled in. *)
Definition loginForm (email password : string) : State :=
  setAuthPassword password (setAuthEmail email initial).

(** The sign-up form filled in. *)
Definition signupForm (name email password : string) : State :=
  setAuthName name (loginForm email password).

(** The upload page with both photos in place, a model chosen and a key
    typed in. *)
Definition ready (model key : string) : State :=
  onApp (fun '(Build_App _ _ g _ i u e _) =>
           Build_App (Some subject) (Some garment) g key i u e model)
    (setCurrentPage Upload initial).

End Scenario.

(** * The rest of the component *)

(** ** What the e-mail pattern accepts *)

(** The sequences of code units a regular expression denotes. *)
Inductive Matches : Regex.t -> list N -> Prop :=
| MatchEps : Matches Regex.Eps []
| MatchClass (p : N -> bool) (c : N) :
    p c = true -> Matches (Regex.Class p) [c]
| MatchCat (r s : Regex.t) (x y : list N) :
    Matches r x -> Matches s y -> Matches (Regex.Cat r s) (x ++ y)
| MatchAltL (r s : Regex.t) (x : list N) :
    Matches r x -> Matches (Regex.Alt r s) x
| MatchAltR (r s : Regex.t) (x : list N) :
    Matches s x -> Matches (Regex.Alt r s) x
| MatchStarNil (r : Regex.t) : Matches (Regex.Star r) []
| MatchStarCons (r : Regex.t) (x y : list N) :
    Matches r x -> Matches (Regex.Star r) y -> Matches (Regex.Star r) (x ++ y).

(** A non-empty run of code units that are neither white space nor "@". *)
Definition isWord (s : list N) : Prop :=
  s <> [] /\ forallb notSpaceAt s = true.

(** ** Data URLs *)

(** Every byte of [s] passes [p]. *)
Fixpoint allChars (p : ascii -> bool) (s : string) : bool :=
  match s with
  | EmptyString => true
  | String c s' => p c && allChars p s'
  end.

(** [s.split(sep)] for a one-character separator. *)
Fixpoint splitBy (sep : ascii) (s : string) : list string :=
  match s with
  | EmptyString => [""]
  | String c s' =>
      match splitBy sep s' with
      | piece :: rest =>
          if Ascii.eqb c sep then "" :: piece :: rest
          else String c piece :: rest
      | [] => []
      end
  end.

(** [base64.split(",")[0].split(":")[1].split(";")[0]], the MIME type
    [base64ToBlob] gives its blob; [None] when [split(":")[1]] is
    [undefined] and the next [split] throws. *)
Definition mimeString (base64 : string) : option string :=
  match splitBy "," base64 with
  | header :: _ =>
      match splitBy ":" header with
      | _ :: spec :: _ => head (splitBy ";" spec)
      | _ => None
      end
  | [] => None
  end.

(** [base64.split(",")[1]], what is handed to [atob]; [None] is
    [undefined]. *)
Definition base64Payload (base64 : string) : option string :=
  match splitBy "," base64 with
  | _ :: payload :: _ => Some payload
  | _ => None
  end.

(** ** Handlers without a request *)

Definition localStorage_removeItem (k : string) (st : State) : State :=
  let '(Build_State p a b l) := st in Build_State p a b (delete k l).

Definition setApiKey (x : string) : State -> State :=
  onApp (fun '(Build_App p d g _ i u e s) => Build_App p d g x i u e s).
Definition setSelectedModel (x : string) : State -> State :=
  onApp (fun '(Build_App p d g k i u e _) => Build_App p d g k i u e x).

(** [handleAuth]; [isSignUp] is the toggle of the form. *)
Definition handleAuth (v : Variant) (env : Env) (isSignUp : bool) (st : State) : Run :=
  if isSignUp then handleSignUp v env st else handleLogin v env st.

(** The link under the form: it flips [isSignUp] and empties the form. *)
Definition toggleSignUp (st : State) : State :=
  setAuthPassword "" (setAuthEmail "" (setAuthName "" (setAuthError "" st))).

Definition handleReset (st : State) : State :=
  setCurrentPage Upload
    (setErrorMessage "" (setGeneratedImages [] (setDressPhoto None (setUserPhoto None st)))).

(** [confirmLogout]; the stored API key is left alone. *)
Definition confirmLogout (st : State) : State :=
  setCurrentPage Login
    (setGeneratedImages []
       (setDressPhoto None
          (setUserPhoto None
             (localStorage_removeItem "stitchpix_user"
                (localStorage_removeItem "stitchpix_token"
                   (setToken None (setUser None st))))))).

(** The effect that follows [apiKey]. *)
Definition persistApiKey (st : State) : State :=
  if JS.truthy (apiKey (app st))
  then localStorage_setItem "stitchpix_api_key" (Str (apiKey (app st))) st
  else localStorage_removeItem "stitchpix_api_key" st.

(** Typing into the key field: [setApiKey], then the effect. *)
Definition typeApiKey (x : string) (st : State) : State :=
  persistApiKey (setApiKey x st).

(** Choosing an entry of the model list. *)
Definition selectModel (m : ModelDescriptor) (st : State) : State :=
  setSelectedModel (id m) st.

(** The [disabled] attribute of the generate button. *)
Definition generateDisabled (v : Variant) (st : State) : bool :=
  isGenerating (app st)
  || negb (JS.truthy_opt (userPhoto (app st)))
  || negb (JS.truthy_opt (dressPhoto (app st)))
  || (requiresCredential (currentModelData v (selectedModel (app st)))
      && negb (JS.truthy (apiKey (app st)))).

(** ** Start-up *)

(** [JSON.stringify] on a user object, and [JSON.parse] on a stored text
    that no [JSON.stringify] of this component wrote: it throws ([None])
    or yields a value, [null] being [Some None]. *)
Record JsonCodec := {
  stringify : User -> string;
  parseText : string -> option (option User)
}.

(** [localStorage.getItem] hands back text. *)
Definition storedText (c : JsonCodec) (x : Stored) : string :=
  match x with
  | Str s => s
  | UserJson u => stringify c u
  end.

(** [JSON.parse(savedUser)]; parsing what [JSON.stringify] wrote gives the
    object back. *)
Definition JSON_parse (c : JsonCodec) (x : Stored) : option (option User) :=
  match x with
  | UserJson u => Some (Some u)
  | Str s => parseText c s
  end.

(** [if (savedUser)]: the text of an object is never empty. *)
Definition storedTruthy (x : Stored) : bool :=
  match x with
  | Str s => JS.truthy s
  | UserJson _ => true
  end.

(** The effect that reads the session back on mount. *)
Definition hydrate (c : JsonCodec) (st : State) : State :=
  let savedToken := localStorage st !! "stitchpix_token" in
  let savedUser := localStorage st !! "stitchpix_user" in
  let savedApiKey := localStorage st !! "stitchpix_api_key" in
  let st :=
    match savedApiKey with
    | Some x => if storedTruthy x then setApiKey (storedText c x) st else st
    | None => st
    end in
  let st :=
    match savedToken with
    | Some x => if storedTruthy x then setToken (Some (storedText c x)) st else st
    | None => st
    end in
  match savedUser with
  | Some x =>
      if storedTruthy x then
        match JSON_parse c x with
        | Some parsed => setCurrentPage Upload (setUser parsed st)
        | None => localStorage_removeItem "stitchpix_user" st
        end
      else st
  | None => st
  end.

(** The first render over a given [localStorage]. *)
Definition firstRender (l : gmap string Stored) : State :=
  {| currentPage := Login;
     auth := auth Scenario.initial;
     app := app Scenario.initial;
     localStorage := l |}.

(** Mounting: the hydrating effect, then the key-persisting effect of the
    first render, which still sees the empty key, then the same effect
    again if the key changed. *)
Definition mount (c : JsonCodec) (l : gmap string Stored) : State :=
  let st := hydrate c (firstRender l) in
  let st := localStorage_removeItem "stitchpix_api_key" st in
  if JS.truthy (apiKey (app st)) then persistApiKey st else st.

(** ** The screen as a state machine *)

(** What the user can do; each handler runs to its end before the next
    event. *)
Inductive Event :=
| TypeName (s : string)
| TypeEmail (s : string)
| TypePassword (s : string)
| ToggleSignUp
| SubmitAuth (isSignUp : bool)
| SelectModel (m : ModelDescriptor)
| TypeApiKey (s : string)
| PickFile (file : option File) (slot : string)
| ClickGenerate
| ClickReset
| ConfirmLogout.

Definition step (v : Variant) (env : Env) (e : Event) (st : State) : State :=
  match e with
  | TypeName s => setAuthName s st
  | TypeEmail s => setAuthEmail s st
  | TypePassword s => setAuthPassword s st
  | ToggleSignUp => toggleSignUp st
  | SubmitAuth isSignUp => final (handleAuth v env isSignUp st)
  | SelectModel m => selectModel m st
  | TypeApiKey s => typeApiKey s st
  | PickFile file slot => final (handleImageUpload v env file slot st)
  | ClickGenerate => final (handleGenerate v env st)
  | ClickReset => handleReset st
  | ConfirmLogout => confirmLogout st
  end.

(** An event the screen offers: the model list only holds registry
    entries. *)
Definition offered (v : Variant) (e : Event) : Prop :=
  match e with
  | SelectModel m => In m (allModels v)
  | _ => True
  end.

(** The states a session can be in: mounted over some storage, then any
    offered events, the browser answering as it likes each time. *)
Inductive Reachable (v : Variant) (c : JsonCodec) : State -> Prop :=
| ReachMount (l : gmap string Stored) : Reachable v c (mount c l)
| ReachStep (env : Env) (e : Event) (st : State) :
    Reachable v c st -> offered v e -> Reachable v c (step v env e st).

(** The stored key mirrors the key in memory. *)
Definition keyMirrored (st : State) : Prop :=
  localStorage st !! "stitchpix_api_key" =
  if JS.truthy (apiKey (app st)) then Some (Str (apiKey (app st))) else None.

(** ** What every reachable state satisfies *)

(** What a handler may do to the parts the invariant reads: it leaves the
    chosen model, the key and the stored key alone, and either leaves the
    page and the results alone, or leaves a page other than the results
    page, or leaves exactly one result. *)
Definition frames (st st' : State) : Prop :=
  selectedModel (app st') = selectedModel (app st) /\
  apiKey (app st') = apiKey (app st) /\
  localStorage st' !! "stitchpix_api_key" = localStorage st !! "stitchpix_api_key" /\
  ((generatedImages (app st') = generatedImages (app st) /\
    currentPage st' = currentPage st) \/
   currentPage st' <> Results \/
   List.length (generatedImages (app st')) = 1%nat).

Definition invariant (v : Variant) (st : State) : Prop :=
  In (selectedModel (app st)) (List.map id (allModels v)) /\
  (currentPage st = Results -> List.length (generatedImages (app st)) = 1%nat) /\
  keyMirrored st.

(** ** Where the overlay lands *)

(** [inner] lies inside a [w] by [h] surface. *)
Definition inside (inner : Rect) (w h : Z) : Prop :=
  0 <= rx inner /\ 0 <= ry inner /\ 0 <= rw inner /\ 0 <= rh inner /\
  rx inner + rw inner <= w /\ ry inner + rh inner <= h.

(** ** Servers and files for the examples *)

Module Fixture.

(** A browser whose every request is answered with [res]. *)
Definition answering (res : Response) : Env := {|
  fetch := fun _ => inr res;
  decodeImage := Scenario.sizes;
  hasRoundRect := true;
  drawImageThrows := fun _ => None;
  toDataURL := toDataURL Scenario.offline;
  base64ToBlob := fun _ => None;
  readFile := fun _ => Some Scenario.subject;
  nullAccess := nullAccess Scenario.offline;
  mounted := true
|}.

(** A browser whose file reader fails. *)
Definition unreadable : Env := {|
  fetch := fetch Scenario.offline;
  decodeImage := Scenario.sizes;
  hasRoundRect := true;
  drawImageThrows := fun _ => None;
  toDataURL := toDataURL Scenario.offline;
  base64ToBlob := fun _ => None;
  readFile := fun _ => None;
  nullAccess := nullAccess Scenario.offline;
  mounted := true
|}.

Definition ada : User :=
  {| userName := Some "Ada"; userEmail := Some "ada@example.org" |}.

(** U+00A0, the no-break space, as its two bytes. *)
Definition nbsp : string := String "194" (String "160" "").

(** A 200 answer carrying a token and a user. *)
Definition welcome : Response := {|
  ok := true; status := 200;
  json := inr (JsonValue None None (Some "tok-1") (Some ada) None)
|}.

(** A 200 answer whose body does not parse. *)
Definition bare : Response := {|
  ok := true; status := 200;
  json := inl {| message := "Unexpected end of JSON input" |}
|}.

(** A 200 answer whose body is the JSON text [null]. *)
Definition nullBody : Response := {|
  ok := true; status := 200;
  json := inr JsonNull
|}.

(** A 401 answer with a message. *)
Definition refused : Response := {|
  ok := false; status := 401;
  json := inr (JsonValue None None None None (Some "bad credentials"))
|}.

(** A 200 answer of a try-on provider, with both URL fields. *)
Definition rendered : Response := {|
  ok := true; status := 200;
  json := inr (JsonValue (Some "https://cdn.example/out.png")
                 (Some "https://cdn.example/alt.png") None None None)
|}.

(** A 200 answer with [image_url] only. *)
Definition renderedAlt : Response := {|
  ok := true; status := 200;
  json := inr (JsonValue None (Some "https://cdn.example/alt.png") None None None)
|}.

(** A JSON engine that rejects every text it did not write. *)
Definition codec : JsonCodec :=
  {| stringify := fun _ => "{}"; parseText := fun _ => None |}.

Definition photo : File := {| type := "image/png"; size := 2048 |}.

(** A browser whose file reader yields the garment photo. *)
Definition garmentReader : Env := {|
  fetch := fetch Scenario.offline;
  decodeImage := Scenario.sizes;
  hasRoundRect := true;
  drawImageThrows := fun _ => None;
  toDataURL := toDataURL Scenario.offline;
  base64ToBlob := fun _ => None;
  readFile := fun _ => Some Scenario.garment;
  nullAccess := nullAccess Scenario.offline;
  mounted := true
|}.

Definition huggingface : ModelDescriptor :=
  {| id := "huggingface"; name := "Hugging Face Inference API"; needsApi := true;
     description := "Open-source ML models" |}.

(** A session: mounted signed in, both photos picked, a model chosen, a
    key typed, generate pressed. *)
Definition session : State :=
  step OptionA Scenario.offline ClickGenerate
    (step OptionA Scenario.offline (TypeApiKey "hf_key")
       (step OptionA Scenario.offline (SelectModel huggingface)
          (step OptionA garmentReader (PickFile (Some photo) "dress")
             (step OptionA Scenario.offline (PickFile (Some photo) "user")
                (mount codec (<["stitchpix_user" := UserJson ada]> ∅)))))).

End Fixture.

(** * Properties *)

(** ** Rounding *)

Lemma Math_round_bounds (x : Q) :
  (inject_Z (JS.Math_round x) <= x + (1 # 2) /\
   x + (1 # 2) < inject_Z (JS.Math_round x + 1))%Q.
Proof.
  unfold JS.Math_round. split.
  - apply Qfloor_le.
  - apply Qlt_floor.
Qed.

Ltac round_bounds x :=
  let H := fresh "H" in
  destruct (Math_round_bounds x) as [H ?];
  unfold Qle, Qlt in *; cbn in *; lia.

Lemma round_25 (n : Z) : isPercentOf 25 n (JS.Math_round (inject_Z n * 0.25)).
Proof. unfold isPercentOf. round_bounds (inject_Z n * 0.25)%Q. Qed.

Lemma round_120 (n : Z) : isPercentOf 120 n (JS.Math_round (inject_Z n * 1.2)).
Proof. unfold isPercentOf. round_bounds (inject_Z n * 1.2)%Q. Qed.

Lemma round_8 (n : Z) : isPercentOf 8 n (JS.Math_round (inject_Z n * 0.08)).
Proof. unfold isPercentOf. round_bounds (inject_Z n * 0.08)%Q. Qed.

Lemma round_10 (n : Z) : isPercentOf 10 n (JS.Math_round (inject_Z n * 0.1)).
Proof. unfold isPercentOf. round_bounds (inject_Z n * 0.1)%Q. Qed.

Lemma round_50 (n : Z) : isPercentOf 50 n (JS.Math_round (inject_Z n * 0.5)).
Proof. unfold isPercentOf. round_bounds (inject_Z n * 0.5)%Q. Qed.

Lemma round_40 (n : Z) : isPercentOf 40 n (JS.Math_round (inject_Z n * 0.4)).
Proof. unfold isPercentOf. round_bounds (inject_Z n * 0.4)%Q. Qed.

Lemma round_half (a b : Z) :
  isCentered a b (JS.Math_round ((inject_Z a - inject_Z b) / 2)).
Proof. unfold isCentered. round_bounds ((inject_Z a - inject_Z b) / 2)%Q. Qed.

(** The rounding conditions pin the value down: the placement is a
    function of the sizes. *)
Lemma isPercentOf_unique (p n z z' : Z) :
  isPercentOf p n z -> isPercentOf p n z' -> z = z'.
Proof. unfold isPercentOf. lia. Qed.

Lemma isCentered_unique (a b x x' : Z) :
  isCentered a b x -> isCentered a b x' -> x = x'.
Proof. unfold isCentered. lia. Qed.

(** ** Running the [onload] handler *)

Lemma clipFace_runs (env : Env) (face : Rect) (c : Canvas) :
  clipFace env face c =
  (inr tt, {| width := width c; height := height c;
              ops := ops c ++ clipPath (hasRoundRect env) face |}).
Proof.
  unfold clipFace, clipPath, Ctx.bind, Ctx.op.
  destruct (hasRoundRect env); cbn [width height ops];
    repeat rewrite <- app_assoc; reflexivity.
Qed.

(** Under the canvas contract the handler reaches [resolve], and the
    canvas it encodes is [mergedCanvas]. *)
Lemma dressImg_onload_runs (env : Env) (userImg dressImg : Img) :
  wholeImageDrawsSucceed env ->
  dressImg_onload env userImg dressImg newCanvas =
  (inr (toDataURL env (mergedCanvas env userImg dressImg)),
   mergedCanvas env userImg dressImg).
Proof.
  intros Hwhole.
  unfold dressImg_onload, mergedCanvas, overlay, croppedOverlay, wholeOverlay,
    baseLayer, newCanvas.
  unfold Ctx.bind at 1 2 3 4 5 6.
  unfold Ctx.setWidth, Ctx.setHeight, Ctx.getWidth, Ctx.getHeight.
  cbn [width height ops].
  unfold Ctx.drawImage at 1. rewrite Hwhole.
  unfold Ctx.op at 1 2. cbn [width height ops].
  unfold Ctx.bind at 1. rewrite clipFace_runs. cbn [width height ops].
  unfold Ctx.bind, Ctx.try_catch, Ctx.drawImage, Ctx.op, Ctx.toDataURL.
  destruct (drawImageThrows env
              {| image := src userImg;
                 crop := Some (userCrop (imgWidth userImg) (imgHeight userImg));
                 dest := faceBox (imgWidth dressImg) (imgHeight dressImg) |}) eqn:Hcrop;
    [ rewrite Hwhole | ];
    cbn [width height ops app];
    repeat rewrite <- app_assoc; reflexivity.
Qed.

Lemma keepsSize_bind {A B} (m : Ctx.M A) (k : A -> Ctx.M B) :
  keepsSize m -> (forall a, keepsSize (k a)) -> keepsSize (Ctx.bind m k).
Proof.
  intros Hm Hk c. unfold Ctx.bind.
  specialize (Hm c). destruct (m c) as [[e|a] c']; cbn [snd] in *.
  - exact Hm.
  - destruct (Hk a c') as [Hw Hh]. rewrite Hw, Hh. exact Hm.
Qed.

Lemma keepsSize_try_catch {A} (m h : Ctx.M A) :
  keepsSize m -> keepsSize h -> keepsSize (Ctx.try_catch m h).
Proof.
  intros Hm Hh c. unfold Ctx.try_catch.
  specialize (Hm c). destruct (m c) as [[e|a] c']; cbn [snd] in *.
  - destruct (Hh c') as [Hw Hh']. rewrite Hw, Hh'. exact Hm.
  - exact Hm.
Qed.

Lemma keepsSize_op (o : CanvasOp) : keepsSize (Ctx.op o).
Proof. intros c. split; reflexivity. Qed.

Lemma keepsSize_drawImage (env : Env) (call : DrawCall) :
  keepsSize (Ctx.drawImage env call).
Proof.
  intros c. unfold Ctx.drawImage.
  destruct (drawImageThrows env call); split; reflexivity.
Qed.

Lemma keepsSize_toDataURL (env : Env) : keepsSize (Ctx.toDataURL env).
Proof. intros c. split; reflexivity. Qed.

Lemma keepsSize_clipFace (env : Env) (face : Rect) : keepsSize (clipFace env face).
Proof. intros c. rewrite clipFace_runs. split; reflexivity. Qed.

#[local] Hint Resolve keepsSize_op keepsSize_drawImage keepsSize_toDataURL
  keepsSize_clipFace : canvas.

(** Whatever the draws do, the handler leaves the canvas at the size of
    the dress image. *)
Lemma dressImg_onload_size (env : Env) (userImg dressImg : Img) (c : Canvas) :
  width (snd (dressImg_onload env userImg dressImg c)) = imgWidth dressImg /\
  height (snd (dressImg_onload env userImg dressImg c)) = imgHeight dressImg.
Proof.
  unfold dressImg_onload.
  unfold Ctx.bind at 1 2 3 4.
  unfold Ctx.setWidth, Ctx.setHeight, Ctx.getWidth, Ctx.getHeight.
  cbn [width height ops].
  match goal with
  | |- width (snd (?m ?c0)) = _ /\ _ =>
      assert (Hk : keepsSize m)
  end.
  { repeat (first [ apply keepsSize_bind; [|intros ?] | apply keepsSize_try_catch ]);
      auto with canvas. }
  match goal with
  | |- width (snd (?m ?c0)) = _ /\ _ => destruct (Hk c0) as [Hw Hh]
  end.
  split; [exact Hw | exact Hh].
Qed.

(** How the handler ends, draw by draw. *)
Lemma dressImg_onload_outcome (env : Env) (userImg dressImg : Img) :
  let face := faceBox (imgWidth dressImg) (imgHeight dressImg) in
  fst (dressImg_onload env userImg dressImg newCanvas) =
  match drawImageThrows env (baseLayer dressImg) with
  | Some e => inl e
  | None =>
      match drawImageThrows env (croppedOverlay userImg face),
            drawImageThrows env (wholeOverlay userImg face) with
      | Some _, Some e => inl e
      | _, _ => inr (toDataURL env (mergedCanvas env userImg dressImg))
      end
  end.
Proof.
  unfold dressImg_onload, mergedCanvas, overlay, croppedOverlay, wholeOverlay,
    baseLayer, newCanvas.
  unfold Ctx.bind at 1 2 3 4 5 6.
  unfold Ctx.setWidth, Ctx.setHeight, Ctx.getWidth, Ctx.getHeight.
  cbn [width height ops].
  unfold Ctx.drawImage at 1.
  destruct (drawImageThrows env
              {| image := src dressImg; crop := None;
                 dest := {| rx := 0; ry := 0; rw := imgWidth dressImg;
                            rh := imgHeight dressImg |} |}) as [e|];
    [reflexivity|].
  unfold Ctx.op at 1 2. cbn [width height ops].
  unfold Ctx.bind at 1. rewrite clipFace_runs. cbn [width height ops].
  unfold Ctx.bind, Ctx.try_catch, Ctx.drawImage, Ctx.op, Ctx.toDataURL.
  destruct (drawImageThrows env
              {| image := src userImg;
                 crop := Some (userCrop (imgWidth userImg) (imgHeight userImg));
                 dest := faceBox (imgWidth dressImg) (imgHeight dressImg) |}) as [e1|];
    [ destruct (drawImageThrows env
                  {| image := src userImg; crop := None;
                     dest := faceBox (imgWidth dressImg) (imgHeight dressImg) |})
        as [e2|] | ];
    cbn [width height ops app fst];
    repeat rewrite <- app_assoc; reflexivity.
Qed.

(** The promise stays unsettled exactly when both images decode and an
    unguarded draw throws: the base layer, or the whole-image overlay
    after the cropped one. *)
Lemma createMergedImages_pending_iff (env : Env) (u d : string) :
  createMergedImages env u d = Pending <->
  exists uw uh dw dh,
    decodeImage env u = Some (uw, uh) /\
    decodeImage env d = Some (dw, dh) /\
    let userImg := {| src := u; imgWidth := uw; imgHeight := uh |} in
    let dressImg := {| src := d; imgWidth := dw; imgHeight := dh |} in
    (drawImageThrows env (baseLayer dressImg) <> None \/
     (drawImageThrows env (croppedOverlay userImg (faceBox dw dh)) <> None /\
      drawImageThrows env (wholeOverlay userImg (faceBox dw dh)) <> None)).
Proof.
  unfold createMergedImages.
  destruct (decodeImage env u) as [[uw uh]|].
  2:{ split; [discriminate|]. intros (? & ? & ? & ? & H & _). discriminate H. }
  destruct (decodeImage env d) as [[dw dh]|].
  2:{ split; [discriminate|]. intros (? & ? & ? & ? & _ & H & _). discriminate H. }
  pose proof (dressImg_onload_outcome env
                {| src := u; imgWidth := uw; imgHeight := uh |}
                {| src := d; imgWidth := dw; imgHeight := dh |}) as Hout.
  cbn [imgWidth imgHeight] in Hout.
  destruct (dressImg_onload _ _ _ _) as [[e|url] c]. all: cbn [fst] in Hout.
  - split; [intros _|reflexivity].
    exists uw, uh, dw, dh. split; [reflexivity|]. split; [reflexivity|]. cbn zeta.
    destruct (drawImageThrows env (baseLayer _)); [left; discriminate|].
    right.
    destruct (drawImageThrows env (croppedOverlay _ _)); [|discriminate Hout].
    destruct (drawImageThrows env (wholeOverlay _ _)); [|discriminate Hout].
    split; discriminate.
  - split; [discriminate|].
    intros (uw' & uh' & dw' & dh' & Hu & Hd & H).
    inversion Hu; inversion Hd; subst. cbn zeta in H.
    destruct (drawImageThrows env (baseLayer _)); [discriminate Hout|].
    destruct H as [H|[H1 H2]]; [congruence|].
    destruct (drawImageThrows env (croppedOverlay _ _)); [|congruence].
    destruct (drawImageThrows env (wholeOverlay _ _)); [discriminate Hout|congruence].
Qed.

(** The promise has no [reject]: it resolves or stays unsettled. *)
Lemma createMergedImages_never_rejects (env : Env) (u d : string) (e : Error) :
  createMergedImages env u d <> Rejected e.
Proof.
  unfold createMergedImages.
  destruct (decodeImage env u) as [[uw uh]|]; [|discriminate].
  destruct (decodeImage env d) as [[dw dh]|]; [|discriminate].
  destruct (dressImg_onload _ _ _ _) as [[?|?] ?]; discriminate.
Qed.

(** What the merge resolves with, case by case. *)
Lemma createMergedImages_resolves (env : Env) (u d : string) :
  wholeImageDrawsSucceed env ->
  createMergedImages env u d =
  Resolved
    [ match decodeImage env u, decodeImage env d with
      | None, _ => originalOf d
      | Some _, None => originalOf u
      | Some (uw, uh), Some (dw, dh) =>
          mergedOf env
            (mergedCanvas env {| src := u; imgWidth := uw; imgHeight := uh |}
                              {| src := d; imgWidth := dw; imgHeight := dh |})
      end ].
Proof.
  intros Hwhole. unfold createMergedImages.
  destruct (decodeImage env u) as [[uw uh]|]; [|reflexivity].
  destruct (decodeImage env d) as [[dw dh]|]; [|reflexivity].
  rewrite dressImg_onload_runs by assumption. reflexivity.
Qed.

(** What the merge ends with, decode by decode and draw by draw. *)
Lemma createMergedImages_outcome (env : Env) (u d : string) :
  createMergedImages env u d =
  match decodeImage env u, decodeImage env d with
  | None, _ => Resolved [originalOf d]
  | Some _, None => Resolved [originalOf u]
  | Some (uw, uh), Some (dw, dh) =>
      let userImg := {| src := u; imgWidth := uw; imgHeight := uh |} in
      let dressImg := {| src := d; imgWidth := dw; imgHeight := dh |} in
      match drawImageThrows env (baseLayer dressImg) with
      | Some _ => Pending
      | None =>
          match drawImageThrows env (croppedOverlay userImg (faceBox dw dh)),
                drawImageThrows env (wholeOverlay userImg (faceBox dw dh)) with
          | Some _, Some _ => Pending
          | _, _ => Resolved [mergedOf env (mergedCanvas env userImg dressImg)]
          end
      end
  end.
Proof.
  unfold createMergedImages.
  destruct (decodeImage env u) as [[uw uh]|]; [|reflexivity].
  destruct (decodeImage env d) as [[dw dh]|]; [|reflexivity].
  pose proof (dressImg_onload_outcome env
                {| src := u; imgWidth := uw; imgHeight := uh |}
                {| src := d; imgWidth := dw; imgHeight := dh |}) as Hout.
  cbn [imgWidth imgHeight] in Hout. cbn zeta.
  destruct (dressImg_onload _ _ _ _) as [[e|link] c]; cbn [fst] in Hout;
    destruct (drawImageThrows env (baseLayer _)); try discriminate Hout;
    try reflexivity;
    destruct (drawImageThrows env (croppedOverlay _ _));
    try destruct (drawImageThrows env (wholeOverlay _ _));
    first [discriminate Hout | reflexivity | inversion Hout; reflexivity].
Qed.

(** The merge resolves with one image or not at all. *)
Lemma createMergedImages_singleton (env : Env) (u d : string)
    (imgs : list GeneratedImage) :
  createMergedImages env u d = Resolved imgs -> List.length imgs = 1%nat.
Proof.
  unfold createMergedImages.
  destruct (decodeImage env u) as [[uw uh]|];
    [destruct (decodeImage env d) as [[dw dh]|];
     [destruct (dressImg_onload _ _ _ _) as [[e|link] c]|]|];
    intros H; inversion H; reflexivity.
Qed.

(** The one image a resolved merge carries says where it came from. *)
Lemma createMergedImages_source (env : Env) (u d : string)
    (imgs : list GeneratedImage) :
  createMergedImages env u d = Resolved imgs ->
  exists img,
    imgs = [img] /\
    (decodeImage env u <> None -> decodeImage env d <> None -> source img = "canvas") /\
    (decodeImage env u = None \/ decodeImage env d = None -> source img = "original").
Proof.
  unfold createMergedImages.
  destruct (decodeImage env u) as [[uw uh]|];
    [destruct (decodeImage env d) as [[dw dh]|];
     [destruct (dressImg_onload _ _ _ _) as [[e|link] c]|]|];
    intros H; inversion H; eexists; (split; [reflexivity|]);
    split; intros; try reflexivity; try congruence;
    match goal with H : _ \/ _ |- _ => destruct H; discriminate end.
Qed.

Lemma cropRejecting_contract : wholeImageDrawsSucceed Scenario.cropRejecting.
Proof. intros img dst. reflexivity. Qed.

Lemma offline_contract : wholeImageDrawsSucceed Scenario.offline.
Proof. intros img dst. reflexivity. Qed.

Lemma undecodable_contract : wholeImageDrawsSucceed Scenario.undecodable.
Proof. intros img dst. reflexivity. Qed.

(** ** The local compositor *)

(** C1, as stated, fails twice.  On a canvas that rejects the cropped
    draw, the overlay drawn in its place is the whole user image, and it
    is drawn after [clip] and before [restore]: uncropped, not unclipped.
    On a canvas whose every draw throws, with both photos decoded, the
    handler dies at the base-layer draw, outside every [try], and the
    promise neither resolves nor rejects. *)
Lemma draw_failures_as_the_code_has_them :
  createMergedImages Scenario.cropRejecting Scenario.subject Scenario.garment
  = Resolved
      [ mergedOf Scenario.cropRejecting
          {| width := 1000; height := 1500;
             ops := [ DrawImage {| image := Scenario.garment; crop := None;
                                   dest := {| rx := 0; ry := 0;
                                              rw := 1000; rh := 1500 |} |};
                      Save;
                      BeginPath;
                      MoveTo 411 120;
                      ArcTo 625 120 625 420 36;
                      ArcTo 625 420 375 420 36;
                      ArcTo 375 420 375 120 36;
                      ArcTo 375 120 625 120 36;
                      ClosePath;
                      Clip;
                      DrawImage {| image := Scenario.subject; crop := None;
                                   dest := {| rx := 375; ry := 120;
                                              rw := 250; rh := 300 |} |};
                      Restore ] |} ] /\
  decodeImage Scenario.brokenCanvas Scenario.subject = Some (800, 600) /\
  decodeImage Scenario.brokenCanvas Scenario.garment = Some (1000, 1500) /\
  createMergedImages Scenario.brokenCanvas Scenario.subject Scenario.garment = Pending /\
  forall imgs,
    createMergedImages Scenario.brokenCanvas Scenario.subject Scenario.garment
    <> Resolved imgs.
Proof. repeat split. discriminate. Qed.

(** C1, amended.  [createMergedImages] never rejects.  It resolves with
    exactly one image when a photo does not decode: the dress photo marked
    original when the user photo does not decode, the user photo marked
    original when only the dress photo does not.  When both decode it
    resolves with the encoded canvas provided the base-layer draw does not
    throw and the cropped overlay draw or the whole-image draw of the
    catch block does not throw; a cropped draw that throws is replaced by
    the whole user image drawn into the face box, still inside the rounded
    clip. *)
Theorem createMergedImages_settles (env : Env) (u d : string) :
  (forall e, createMergedImages env u d <> Rejected e) /\
  (decodeImage env u = None ->
   createMergedImages env u d = Resolved [originalOf d]) /\
  (decodeImage env u <> None -> decodeImage env d = None ->
   createMergedImages env u d = Resolved [originalOf u]) /\
  (forall uw uh dw dh,
      decodeImage env u = Some (uw, uh) ->
      decodeImage env d = Some (dw, dh) ->
      let userImg := {| src := u; imgWidth := uw; imgHeight := uh |} in
      let dressImg := {| src := d; imgWidth := dw; imgHeight := dh |} in
      let face := faceBox dw dh in
      drawImageThrows env (baseLayer dressImg) = None ->
      drawImageThrows env (croppedOverlay userImg face) = None \/
      drawImageThrows env (wholeOverlay userImg face) = None ->
      exists c,
        createMergedImages env u d = Resolved [mergedOf env c] /\
        ops c = ([ DrawImage (baseLayer dressImg); Save ]
                 ++ clipPath (hasRoundRect env) face
                 ++ [ DrawImage (overlay env userImg face); Restore ])%list /\
        In Clip (clipPath (hasRoundRect env) face) /\
        (drawImageThrows env (croppedOverlay userImg face) = None ->
         overlay env userImg face = croppedOverlay userImg face) /\
        (forall e, drawImageThrows env (croppedOverlay userImg face) = Some e ->
                   overlay env userImg face = wholeOverlay userImg face)).
Proof.
  split; [intros e; apply createMergedImages_never_rejects|].
  rewrite createMergedImages_outcome.
  split; [intros ->; reflexivity|].
  split; [intros Hu ->; destruct (decodeImage env u) as [[uw uh]|]; congruence|].
  intros uw uh dw dh -> -> userImg dressImg face. cbn zeta.
  fold userImg dressImg face.
  intros -> Hover.
  exists (mergedCanvas env userImg dressImg).
  split.
  - destruct Hover as [-> | ->]; [reflexivity|].
    destruct (drawImageThrows env (croppedOverlay userImg face)); reflexivity.
  - split; [reflexivity|].
    split; [unfold clipPath; destruct (hasRoundRect env); cbn; tauto|].
    unfold overlay. split.
    + intros ->. reflexivity.
    + intros e ->. reflexivity.
Qed.

Lemma createMergedImages_settles_witness :
  (exists c,
     createMergedImages Scenario.cropRejecting Scenario.subject Scenario.garment
     = Resolved [mergedOf Scenario.cropRejecting c] /\
     In Clip (ops c) /\
     In (DrawImage {| image := Scenario.subject; crop := None;
                      dest := {| rx := 375; ry := 120; rw := 250; rh := 300 |} |})
        (ops c)) /\
  createMergedImages Scenario.undecodable Scenario.subject Scenario.garment
  = Resolved [originalOf Scenario.garment].
Proof.
  split.
  - destruct (createMergedImages_settles Scenario.cropRejecting
                Scenario.subject Scenario.garment) as (_ & _ & _ & H).
    destruct (H 800 600 1000 1500 eq_refl eq_refl eq_refl (or_intror eq_refl))
      as (c & Hc & Hops & _ & _ & Hwhole).
    exists c. split; [exact Hc|]. rewrite Hops.
    rewrite (Hwhole {| message := "IndexSizeError" |} eq_refl).
    split; vm_compute; tauto.
  - destruct (createMergedImages_settles Scenario.undecodable
                Scenario.subject Scenario.garment) as (_ & Hu & _).
    exact (Hu eq_refl).
Defined.

(** C4.  When both images decode, the canvas is given the decoded width
    and height of the dress image before anything is drawn, whatever the
    draws do afterwards; and the canvas the merge encodes has that size
    and starts with the dress image drawn from (0,0) over its full width
    and height. *)
Theorem canvas_matches_garment (env : Env) (u d : string) (uw uh dw dh : Z) :
  decodeImage env u = Some (uw, uh) ->
  decodeImage env d = Some (dw, dh) ->
  let userImg := {| src := u; imgWidth := uw; imgHeight := uh |} in
  let dressImg := {| src := d; imgWidth := dw; imgHeight := dh |} in
  (width (snd (dressImg_onload env userImg dressImg newCanvas)) = dw /\
   height (snd (dressImg_onload env userImg dressImg newCanvas)) = dh) /\
  (wholeImageDrawsSucceed env ->
   exists c,
     createMergedImages env u d = Resolved [mergedOf env c] /\
     width c = dw /\ height c = dh /\
     head (ops c) =
       Some (DrawImage {| image := d; crop := None;
                          dest := {| rx := 0; ry := 0; rw := dw; rh := dh |} |})).
Proof.
  intros Hu Hd userImg dressImg. split.
  - apply (dressImg_onload_size env userImg dressImg newCanvas).
  - intros Hwhole. rewrite (createMergedImages_resolves env u d Hwhole), Hu, Hd.
    eexists; split; [reflexivity|]. repeat split.
Qed.

Lemma canvas_matches_garment_witness :
  exists c,
    createMergedImages Scenario.offline Scenario.subject Scenario.garment
    = Resolved [mergedOf Scenario.offline c] /\
    width c = 1000 /\ height c = 1500.
Proof.
  destruct (canvas_matches_garment Scenario.offline Scenario.subject Scenario.garment
              800 600 1000 1500 eq_refl eq_refl) as [_ H].
  destruct (H offline_contract) as [c [Hc [Hw [Hh _]]]].
  exists c. repeat split; assumption.
Defined.

(** C5, as stated, fails: with two photos that do not decode the merge
    returns the dress photo, not the user photo. *)
Lemma garment_failure_returns_garment :
  decodeImage Scenario.undecodable Scenario.garment = None /\
  createMergedImages Scenario.undecodable Scenario.subject Scenario.garment
  = Resolved [originalOf Scenario.garment] /\
  createMergedImages Scenario.undecodable Scenario.subject Scenario.garment
  <> Resolved [originalOf Scenario.subject].
Proof. repeat split. discriminate. Qed.

(** C5, amended.  The user photo is decoded first.  When it fails to
    decode the merge returns exactly the dress photo marked original,
    without looking at the dress photo; when it decodes and the dress
    photo fails to decode the merge returns exactly the user photo marked
    original. *)
Theorem decode_failure_passthrough (env : Env) (u d : string) :
  (decodeImage env u = None ->
   createMergedImages env u d = Resolved [originalOf d]) /\
  (forall uw uh,
      decodeImage env u = Some (uw, uh) ->
      decodeImage env d = None ->
      createMergedImages env u d = Resolved [originalOf u]).
Proof.
  unfold createMergedImages. split.
  - intros ->. reflexivity.
  - intros uw uh -> ->. reflexivity.
Qed.

Lemma decode_failure_passthrough_witness :
  createMergedImages Scenario.undecodable Scenario.subject Scenario.garment
  = Resolved [originalOf Scenario.garment].
Proof.
  apply (decode_failure_passthrough Scenario.undecodable
           Scenario.subject Scenario.garment).
  reflexivity.
Defined.

Lemma faceBox_spec (w h : Z) :
  isPercentOf 25 w (rw (faceBox w h)) /\
  isPercentOf 120 (rw (faceBox w h)) (rh (faceBox w h)) /\
  isCentered w (rw (faceBox w h)) (rx (faceBox w h)) /\
  isPercentOf 8 h (ry (faceBox w h)).
Proof.
  unfold faceBox. cbn [rx ry rw rh].
  split; [apply round_25|]. split; [apply round_120|].
  split; [apply round_half | apply round_8].
Qed.

Lemma userCrop_spec (w h : Z) :
  isPercentOf 25 w (rx (userCrop w h)) /\
  isPercentOf 10 h (ry (userCrop w h)) /\
  isPercentOf 50 w (rw (userCrop w h)) /\
  isPercentOf 40 h (rh (userCrop w h)).
Proof.
  unfold userCrop. cbn [rx ry rw rh].
  split; [apply round_25|]. split; [apply round_10|].
  split; [apply round_50 | apply round_40].
Qed.



(** The scenario of the specification: an 800 x 600 subject on a
    1000 x 1500 garment. *)
Example placement_800x600_on_1000x1500 :
  faceBox 1000 1500 = {| rx := 375; ry := 120; rw := 250; rh := 300 |} /\
  userCrop 800 600 = {| rx := 200; ry := 60; rw := 400; rh := 240 |}.
Proof. split; reflexivity. Qed.



(** ** The generate handler *)

Lemma missingCredential_setErrorMessage (v : Variant) (msg : string) (st : State) :
  missingCredential v (setErrorMessage msg st) = missingCredential v st.
Proof. destruct st as [p a [] l]. reflexivity. Qed.

Lemma handleGenerate_dispatch (v : Variant) (env : Env) (st : State) (u d : string) :
  userPhoto (app st) = Some u ->
  dressPhoto (app st) = Some d ->
  JS.truthy u = true ->
  JS.truthy d = true ->
  missingCredential v st = None ->
  handleGenerate v env st = dispatch v env st u d.
Proof.
  intros Hu Hd Htu Htd Hgate.
  unfold handleGenerate, dispatch.
  rewrite missingCredential_setErrorMessage, Hgate.
  destruct st as [p a [up dp g k i ui e s] l].
  cbn in Hu, Hd. subst up dp. cbn. rewrite Htu, Htd. cbn. reflexivity.
Qed.

(** The state fields the handlers' statements talk about, after the
    updates a successful generation makes. *)
Lemma shown_result (env : Env) (imgs : list GeneratedImage) (st : State) :
  let st' := finallyGenerate env (setCurrentPage Results (setGeneratedImages imgs st)) in
  generatedImages (app st') = imgs /\
  currentPage st' = Results /\
  errorMessage (app st') = errorMessage (app st).
Proof.
  destruct st as [p a [up dp g k i ui e s] l].
  unfold finallyGenerate. destruct (mounted env); repeat split.
Qed.

(** Neither adapter runs the compositor, and each sends at most one
    request. *)
Lemma callNanoBanana_log (v : Variant) (env : Env) (key u d : string) :
  let l := snd (callNanoBanana v env key u d) in
  composeCalls l = 0%nat /\ (networkCalls l <= 1)%nat.
Proof.
  unfold callNanoBanana.
  repeat match goal with
         | |- context [if ?b then _ else _] => destruct b
         | |- context [match ?x with _ => _ end] => destruct x
         end; cbn; split; lia.
Qed.

Lemma callDeepAI_log (v : Variant) (env : Env) (key u : string) :
  let l := snd (callDeepAI v env key u) in
  composeCalls l = 0%nat /\ (networkCalls l <= 1)%nat.
Proof.
  unfold callDeepAI.
  repeat match goal with
         | |- context [if ?b then _ else _] => destruct b
         | |- context [match ?x with _ => _ end] => destruct x
         end; cbn; split; lia.
Qed.

Lemma runModel_remote_log (v : Variant) (env : Env) (sel key u d : string) :
  sel = "nanobanana" \/ sel = "deepai" ->
  let l := snd (runModel v env sel key u d) in
  composeCalls l = 0%nat /\ (networkCalls l <= 1)%nat.
Proof.
  intros Hsel. unfold runModel.
  destruct Hsel as [-> | ->]; cbn [String.eqb Ascii.eqb Bool.eqb andb].
  - pose proof (callNanoBanana_log v env key u d) as H.
    destruct (callNanoBanana v env key u d) as [[[|]| |] l]; exact H.
  - pose proof (callDeepAI_log v env key u) as H.
    destruct (callDeepAI v env key u) as [[[|]| |] l]; exact H.
Qed.

(** A model id with no adapter behind it reaches the compositor. *)
Lemma runModel_local (v : Variant) (env : Env) (sel key u d : string) :
  sel <> "nanobanana" -> sel <> "deepai" ->
  runModel v env sel key u d =
  (match createMergedImages env u d with
   | Resolved [] => Rejected {| message := Msg.noImages v |}
   | r => r
   end, [Compose u d]).
Proof.
  intros Hn Hd. unfold runModel.
  destruct (String.eqb_spec sel "nanobanana") as [|_]; [contradiction|].
  destruct (String.eqb_spec sel "deepai") as [|_]; [contradiction|].
  destruct (createMergedImages env u d) as [[|]| |]; reflexivity.
Qed.

Lemma count_app (f : Effect -> bool) (l1 l2 : list Effect) :
  List.length (List.filter f (l1 ++ l2))
  = (List.length (List.filter f l1) + List.length (List.filter f l2))%nat.
Proof. rewrite List.filter_app, List.length_app. reflexivity. Qed.

(** The run of the handler once the model run has rejected: the
    compositor is started after what was already sent, and the rest
    depends on how the merge ends. *)
Lemma dispatch_rejected (v : Variant) (env : Env) (st : State) (u d : string)
    (err : Error) (l : list Effect) :
  runModel v env (selectedModel (app st)) (apiKey (app st)) u d = (Rejected err, l) ->
  let r := dispatch v env st u d in
  log r = (l ++ [Compose u d])%list /\
  errorMessage (app (final r)) = Msg.fallingBack v err /\
  (forall imgs, createMergedImages env u d = Resolved imgs ->
                completed r = true /\
                currentPage (final r) = Results /\
                generatedImages (app (final r)) = imgs) /\
  (createMergedImages env u d = Pending ->
   completed r = false /\
   currentPage (final r) = currentPage st /\
   generatedImages (app (final r)) = generatedImages (app st) /\
   isGenerating (app (final r)) = true).
Proof.
  intros Hrun r. subst r. unfold dispatch.
  assert (Hsame : selectedModel (app (setIsGenerating true (setErrorMessage "" st)))
                  = selectedModel (app st) /\
                  apiKey (app (setIsGenerating true (setErrorMessage "" st)))
                  = apiKey (app st)).
  { destruct st as [p a [] ls]. split; reflexivity. }
  destruct Hsame as [-> ->]. rewrite Hrun.
  destruct (createMergedImages env u d) as [fallback|fbErr|] eqn:Hmerge.
  - cbn [done log completed final].
    match goal with
    | |- context [setGeneratedImages ?imgs ?s] =>
        destruct (shown_result env imgs s) as [Hg [Hp He]]
    end.
    split; [reflexivity|].
    split; [rewrite He; destruct st as [p a [] ls]; reflexivity|].
    split; [|discriminate].
    intros imgs Himgs. inversion Himgs; subst imgs.
    split; [reflexivity|]. split; [exact Hp | exact Hg].
  - exfalso. exact (createMergedImages_never_rejects env u d fbErr Hmerge).
  - cbn [stuck log completed final].
    split; [reflexivity|].
    split; [destruct st as [p a [] ls]; reflexivity|].
    split; [discriminate|].
    intros _. destruct st as [p a [] ls]. repeat split.
Qed.

(** The run of the handler for a model id with no adapter behind it. *)
Lemma dispatch_local (v : Variant) (env : Env) (st : State) (u d : string) :
  selectedModel (app st) <> "nanobanana" ->
  selectedModel (app st) <> "deepai" ->
  let r := dispatch v env st u d in
  log r = [Compose u d] /\
  errorMessage (app (final r)) = "" /\
  (forall imgs, createMergedImages env u d = Resolved imgs ->
                completed r = true /\
                currentPage (final r) = Results /\
                generatedImages (app (final r)) = imgs) /\
  (createMergedImages env u d = Pending ->
   completed r = false /\
   currentPage (final r) = currentPage st /\
   generatedImages (app (final r)) = generatedImages (app st) /\
   isGenerating (app (final r)) = true).
Proof.
  intros Hn Hd r. subst r. unfold dispatch.
  assert (Hsel : selectedModel (app (setIsGenerating true (setErrorMessage "" st)))
                 = selectedModel (app st)).
  { destruct st as [p a [] ls]. reflexivity. }
  rewrite Hsel, runModel_local by assumption.
  destruct (createMergedImages env u d) as [[|img imgs']|err|] eqn:Hmerge.
  - apply createMergedImages_singleton in Hmerge. discriminate Hmerge.
  - cbn [done log completed final].
    match goal with
    | |- context [setGeneratedImages ?imgs ?s] =>
        destruct (shown_result env imgs s) as [Hg [Hp He]]
    end.
    split; [reflexivity|].
    split; [rewrite He; destruct st as [p a [] ls]; reflexivity|].
    split; [|discriminate].
    intros imgs Himgs. inversion Himgs; subst imgs.
    split; [reflexivity|]. split; [exact Hp | exact Hg].
  - exfalso. exact (createMergedImages_never_rejects env u d err Hmerge).
  - cbn [stuck log completed final].
    split; [reflexivity|].
    split; [destruct st as [p a [] ls]; reflexivity|].
    split; [discriminate|].
    intros _. destruct st as [p a [] ls]. repeat split.
Qed.

(** C3.  When the resolved descriptor needs a key and the key is empty,
    generate stops before its [try] block: nothing is fetched, the
    compositor is not run, no result is stored and the page does not
    change; with both photos in place the message it leaves is the
    missing-key one, naming the model. *)
Theorem missing_credential_stops_generate (v : Variant) (env : Env) (st : State)
    (m : ModelDescriptor) :
  currentModelData v (selectedModel (app st)) = Some m ->
  needsApi m = true ->
  apiKey (app st) = "" ->
  let r := handleGenerate v env st in
  log r = [] /\
  networkCalls (log r) = 0%nat /\
  composeCalls (log r) = 0%nat /\
  completed r = true /\
  generatedImages (app (final r)) = generatedImages (app st) /\
  currentPage (final r) = currentPage st /\
  isGenerating (app (final r)) = isGenerating (app st) /\
  (JS.truthy_opt (userPhoto (app st)) = true ->
   JS.truthy_opt (dressPhoto (app st)) = true ->
   errorMessage (app (final r)) = "API key required for " +:+ name m).
Proof.
  intros Hm Hneeds Hkey r. subst r.
  assert (Hgate : missingCredential v (setErrorMessage "" st)
                  = Some (Msg.apiKeyRequired m)).
  { rewrite missingCredential_setErrorMessage. unfold missingCredential.
    rewrite Hm, Hneeds, Hkey. reflexivity. }
  unfold handleGenerate. rewrite Hgate.
  destruct st as [p a [up dp g k i ui e s] l]. cbn.
  destruct up as [u|], dp as [d|]; cbn;
    try (repeat split; intros; discriminate).
  destruct (JS.truthy u) eqn:Hu, (JS.truthy d) eqn:Hd; cbn;
    repeat split; intros; discriminate.
Qed.

Lemma missing_credential_stops_generate_witness :
  let r := handleGenerate OptionA Scenario.offline (Scenario.ready "replicate" "") in
  networkCalls (log r) = 0%nat /\
  errorMessage (app (final r)) = "API key required for Replicate API".
Proof.
  destruct (missing_credential_stops_generate OptionA Scenario.offline
              (Scenario.ready "replicate" "")
              {| id := "replicate"; name := "Replicate API"; needsApi := true;
                 description := "Run community models" |}
              eq_refl eq_refl eq_refl)
    as [_ [Hnet [_ [_ [_ [_ [_ Hmsg]]]]]]].
  split; [exact Hnet | exact (Hmsg eq_refl eq_refl)].
Defined.

(** C10, as stated, fails twice.  With the Hugging Face model chosen and
    no key typed in, the credential gate stops generate before the
    compositor: nothing is composed and nothing returned.  With a key
    typed in, on a canvas whose draws throw, the compositor is run and
    never settles: generate sends nothing, never completes and returns no
    result. *)
Lemma huggingface_without_result :
  let st := Scenario.ready "huggingface" "" in
  let r := handleGenerate OptionA Scenario.offline st in
  let st' := Scenario.ready "huggingface" "hf_key" in
  let r' := handleGenerate OptionA Scenario.brokenCanvas st' in
  (selectedModel (app st) <> "nanobanana" /\
   selectedModel (app st) <> "deepai" /\
   composeCalls (log r) = 0%nat /\
   generatedImages (app (final r)) = [] /\
   errorMessage (app (final r)) = "API key required for Hugging Face Inference API") /\
  (missingCredential OptionA st' = None /\
   networkCalls (log r') = 0%nat /\
   log r' = [Compose Scenario.subject Scenario.garment] /\
   completed r' = false /\
   generatedImages (app (final r')) = []).
Proof. repeat split; discriminate. Qed.

(** C10, amended.  For every model id other than nanobanana and deepai,
    whatever its descriptor says about credentials, generate issues no
    network request.  With both photos in place and the credential gate
    passed it runs the compositor, once and directly, and the compositor
    never rejects.  When the compositor resolves, generate completes,
    stores its one image, marked canvas or original, original exactly
    when a photo does not decode, and shows the results page. *)
Theorem other_models_use_compositor (v : Variant) (env : Env) (st : State)
    (u d : string) :
  selectedModel (app st) <> "nanobanana" ->
  selectedModel (app st) <> "deepai" ->
  let r := handleGenerate v env st in
  networkCalls (log r) = 0%nat /\
  (userPhoto (app st) = Some u ->
   dressPhoto (app st) = Some d ->
   JS.truthy u = true ->
   JS.truthy d = true ->
   missingCredential v st = None ->
   log r = [Compose u d] /\
   errorMessage (app (final r)) = "" /\
   (forall e, createMergedImages env u d <> Rejected e) /\
   (forall imgs,
       createMergedImages env u d = Resolved imgs ->
       completed r = true /\
       currentPage (final r) = Results /\
       generatedImages (app (final r)) = imgs /\
       exists img,
         imgs = [img] /\
         (source img = "canvas" \/ source img = "original") /\
         (source img = "original" <->
          decodeImage env u = None \/ decodeImage env d = None))).
Proof.
  intros Hn Hd r. subst r. split.
  - unfold handleGenerate.
    destruct (missingCredential v (setErrorMessage "" st)) as [msg|] eqn:Hgate.
    + destruct st as [p a [[u'|] [d'|] g k i ui e s] l]; cbn; try reflexivity.
      destruct (negb (JS.truthy u') || negb (JS.truthy d')); reflexivity.
    + destruct st as [p a [[u'|] [d'|] g k i ui e s] l]; cbn in *; try reflexivity.
      destruct (negb (JS.truthy u') || negb (JS.truthy d')); [reflexivity|].
      rewrite runModel_local by assumption.
      destruct (createMergedImages env u' d') as [[|img imgs]| err |] eqn:Hc.
      * reflexivity.
      * reflexivity.
      * exfalso. eapply createMergedImages_never_rejects. exact Hc.
      * reflexivity.
  - intros Hu Hdp Htu Htd Hgate.
    rewrite (handleGenerate_dispatch v env st u d) by assumption.
    destruct (dispatch_local v env st u d Hn Hd) as (Hl & Hmsg & Hres & Hpend).
    split; [exact Hl|]. split; [exact Hmsg|].
    split; [intros e; apply createMergedImages_never_rejects|].
    intros imgs Himgs. destruct (Hres imgs Himgs) as (Hdone & Hpage & Hstored).
    split; [exact Hdone|]. split; [exact Hpage|]. split; [exact Hstored|].
    destruct (createMergedImages_source env u d imgs Himgs)
      as (img & -> & Hcanvas & Horiginal).
    exists img. split; [reflexivity|].
    destruct (decodeImage env u) as [[uw uh]|] eqn:Eu;
      [destruct (decodeImage env d) as [[dw dh]|] eqn:Ed|].
    + assert (Hs : source img = "canvas") by (apply Hcanvas; discriminate).
      split; [left; exact Hs|]. rewrite Hs.
      split; [discriminate | intros [H|H]; discriminate H].
    + assert (Hs : source img = "original") by (apply Horiginal; right; reflexivity).
      split; [right; exact Hs|].
      split; [intros _; right; reflexivity | intros _; exact Hs].
    + assert (Hs : source img = "original") by (apply Horiginal; left; reflexivity).
      split; [right; exact Hs|].
      split; [intros _; left; reflexivity | intros _; exact Hs].
Qed.

Lemma other_models_use_compositor_witness :
  requiresCredential (currentModelData OptionA "huggingface") = true /\
  let r := handleGenerate OptionA Scenario.offline (Scenario.ready "huggingface" "hf_key") in
  networkCalls (log r) = 0%nat /\
  log r = [Compose Scenario.subject Scenario.garment] /\
  completed r = true /\
  List.map source (generatedImages (app (final r))) = ["canvas"].
Proof.
  split; [reflexivity|].
  assert (Hn : "huggingface" <> "nanobanana") by discriminate.
  assert (Hd : "huggingface" <> "deepai") by discriminate.
  destruct (other_models_use_compositor OptionA Scenario.offline
              (Scenario.ready "huggingface" "hf_key")
              Scenario.subject Scenario.garment Hn Hd)
    as [Hnet H].
  destruct (H eq_refl eq_refl eq_refl eq_refl eq_refl) as (Hlog & _ & _ & Hres).
  destruct (Hres _ eq_refl) as (Hdone & _ & Himgs & _).
  split; [exact Hnet|]. split; [exact Hlog|]. split; [exact Hdone|].
  exact (eq_trans (f_equal (List.map source) Himgs) eq_refl).
Defined.

(** The ways an adapter call fails, as the dispatcher sees them: the
    request is sent once and the model run rejects. *)
Lemma nanobanana_failures (v : Variant) (env : Env) (key u d : string) :
  JS.truthy key = true ->
  base64ToBlob env u = None ->
  base64ToBlob env d = None ->
  let req := {| endpoint := NanoBananaTryOn; credential := Some key;
                body := TryOnForm u d |} in
  (forall e, fetch env req = inl e ->
             runModel v env "nanobanana" key u d = (Rejected e, [Fetch req])) /\
  (forall res, fetch env req = inr res -> ok res = false ->
               runModel v env "nanobanana" key u d
               = (Rejected {| message := Msg.nanoFailed v (status res) |}, [Fetch req])) /\
  (forall res, fetch env req = inr res -> ok res = true -> json res = inr JsonNull ->
               runModel v env "nanobanana" key u d
               = (Rejected (nullAccess env "output_url"), [Fetch req])) /\
  (forall res body, fetch env req = inr res -> ok res = true -> json res = inr body ->
                    isNull body = false ->
                    JS.truthy_opt (output_url body) = false ->
                    JS.truthy_opt (image_url body) = false ->
                    runModel v env "nanobanana" key u d
                    = (Rejected {| message := Msg.nanoNoImage v |}, [Fetch req])).
Proof.
  intros Hkey Hu Hd req. unfold runModel, callNanoBanana.
  cbn [String.eqb Ascii.eqb Bool.eqb andb]. rewrite Hkey, Hu, Hd. cbn [negb].
  fold req. repeat split.
  - intros e ->. reflexivity.
  - intros res -> ->. reflexivity.
  - intros res -> -> ->. reflexivity.
  - intros res body -> -> -> -> -> ->. reflexivity.
Qed.

Lemma deepai_failures (v : Variant) (env : Env) (key u d : string) :
  JS.truthy key = true ->
  let req := {| endpoint := DeepAIImageEditor; credential := Some key;
                body := ImageEditorBody u
                          "merge with dress image and create virtual try-on" |} in
  (forall e, fetch env req = inl e ->
             runModel v env "deepai" key u d = (Rejected e, [Fetch req])) /\
  (forall res, fetch env req = inr res -> ok res = false ->
               runModel v env "deepai" key u d
               = (Rejected {| message := Msg.deepaiFailed (status res) |}, [Fetch req])) /\
  (forall res, fetch env req = inr res -> ok res = true -> json res = inr JsonNull ->
               runModel v env "deepai" key u d
               = (Rejected (nullAccess env "output_url"), [Fetch req])) /\
  (forall res body, fetch env req = inr res -> ok res = true -> json res = inr body ->
                    isNull body = false ->
                    JS.truthy_opt (output_url body) = false ->
                    runModel v env "deepai" key u d
                    = (Rejected {| message := "DeepAI returned no image" |}, [Fetch req])).
Proof.
  intros Hkey req. unfold runModel, callDeepAI.
  cbn [String.eqb Ascii.eqb Bool.eqb andb]. rewrite Hkey. cbn [negb].
  fold req. repeat split.
  - intros e ->. reflexivity.
  - intros res -> ->. reflexivity.
  - intros res -> -> ->. reflexivity.
  - intros res body -> -> -> -> ->. reflexivity.
Qed.

(** C2, as stated, fails: after a failed NanoBanana call on photos that do
    not decode, the stored fallback result is marked original; and on a
    canvas whose draws throw the fallback never settles, so that nothing
    is returned at all. *)
Lemma fallback_result_marked_original :
  let st := Scenario.ready "nanobanana" "key" in
  let r := handleGenerate OptionA Scenario.undecodable st in
  let r' := handleGenerate OptionA Scenario.brokenCanvas st in
  runModel OptionA Scenario.undecodable "nanobanana" "key"
    Scenario.subject Scenario.garment
  = (Rejected {| message := "Failed to fetch" |},
     [ Fetch {| endpoint := NanoBananaTryOn; credential := Some "key";
                body := TryOnForm Scenario.subject Scenario.garment |} ]) /\
  generatedImages (app (final r)) = [originalOf Scenario.garment] /\
  List.map source (generatedImages (app (final r))) <> ["canvas"] /\
  composeCalls (log r') = 1%nat /\
  completed r' = false /\
  generatedImages (app (final r')) = [].
Proof. repeat split. discriminate. Qed.

(** C2, amended.  When the run of a remote model rejects with [err],
    generate runs the compositor exactly once, after the at most one
    request already sent, and does not retry; it leaves [err]'s message,
    followed by the falling-back notice, as the error message, and the
    compositor never rejects.  When the compositor resolves, generate
    completes, stores the compositor's one image, marked canvas when both
    photos decode and original when one does not, and shows the results
    page. *)
Theorem remote_failure_falls_back (v : Variant) (env : Env) (st : State)
    (u d : string) (err : Error) (l : list Effect) :
  userPhoto (app st) = Some u ->
  dressPhoto (app st) = Some d ->
  JS.truthy u = true ->
  JS.truthy d = true ->
  missingCredential v st = None ->
  selectedModel (app st) = "nanobanana" \/ selectedModel (app st) = "deepai" ->
  runModel v env (selectedModel (app st)) (apiKey (app st)) u d = (Rejected err, l) ->
  let r := handleGenerate v env st in
  log r = (l ++ [Compose u d])%list /\
  composeCalls (log r) = 1%nat /\
  (networkCalls (log r) <= 1)%nat /\
  errorMessage (app (final r)) = Msg.fallingBack v err /\
  (forall e, createMergedImages env u d <> Rejected e) /\
  (forall imgs,
      createMergedImages env u d = Resolved imgs ->
      completed r = true /\
      currentPage (final r) = Results /\
      generatedImages (app (final r)) = imgs /\
      exists img,
        imgs = [img] /\
        (decodeImage env u <> None -> decodeImage env d <> None ->
         source img = "canvas") /\
        (decodeImage env u = None \/ decodeImage env d = None ->
         source img = "original")).
Proof.
  intros Hu Hd Htu Htd Hgate Hsel Hrun r. subst r.
  rewrite (handleGenerate_dispatch v env st u d) by assumption.
  pose proof (runModel_remote_log v env _ (apiKey (app st)) u d Hsel) as Hlog.
  rewrite Hrun in Hlog. cbn [snd] in Hlog. destruct Hlog as [Hc Hn].
  destruct (dispatch_rejected v env st u d err l Hrun) as (Hl & Hmsg & Hres & Hpend).
  split; [exact Hl|].
  split; [rewrite Hl; unfold composeCalls in *; rewrite count_app, Hc; reflexivity|].
  split; [rewrite Hl; unfold networkCalls in *; rewrite count_app; cbn; lia|].
  split; [exact Hmsg|].
  split; [intros e; apply createMergedImages_never_rejects|].
  intros imgs Himgs. destruct (Hres imgs Himgs) as (Hdone & Hpage & Hstored).
  split; [exact Hdone|]. split; [exact Hpage|]. split; [exact Hstored|].
  exact (createMergedImages_source env u d imgs Himgs).
Qed.

Lemma remote_failure_falls_back_witness :
  let r := handleGenerate OptionB Scenario.offline (Scenario.ready "deepai" "key") in
  composeCalls (log r) = 1%nat /\
  errorMessage (app (final r)) = "Failed to fetch — falling back to canvas..." /\
  completed r = true /\
  List.map source (generatedImages (app (final r))) = ["canvas"].
Proof.
  intros r.
  destruct (remote_failure_falls_back OptionB Scenario.offline
              (Scenario.ready "deepai" "key")
              Scenario.subject Scenario.garment
              {| message := "Failed to fetch" |}
              [ Fetch {| endpoint := DeepAIImageEditor; credential := Some "key";
                         body := ImageEditorBody Scenario.subject
                                   "merge with dress image and create virtual try-on" |} ]
              eq_refl eq_refl eq_refl eq_refl eq_refl (or_intror eq_refl) eq_refl)
    as (_ & Hc & _ & Hmsg & _ & Hres).
  destruct (Hres _ eq_refl) as (Hdone & _ & Himgs & _).
  split; [exact Hc|]. split; [exact Hmsg|]. split; [exact Hdone|].
  exact (eq_trans (f_equal (List.map source) Himgs) eq_refl).
Defined.

(** ** Model resolution *)

Lemma find_by_id (l : list ModelDescriptor) (sel : string) :
  match List.find (fun m => String.eqb (id m) sel) l with
  | Some m => In m l /\ id m = sel
  | None => ~ In sel (List.map id l)
  end.
Proof.
  induction l as [|m l IH]; cbn [List.find List.map In].
  - tauto.
  - destruct (String.eqb_spec (id m) sel) as [Heq|Hne].
    + split; [left; reflexivity | exact Heq].
    + destruct (List.find _ l) as [m'|].
      * destruct IH as [Hin Hid]. split; [right; exact Hin | exact Hid].
      * intros [Heq|Hin]; [exact (Hne Heq) | exact (IH Hin)].
Qed.

Lemma findModel_spec (v : Variant) (sel : string) :
  match findModel v sel with
  | Some m => In m (allModels v) /\ id m = sel
  | None => ~ In sel (List.map id (allModels v))
  end.
Proof. apply find_by_id. Qed.





(** ** Image upload *)

(** C9.  [validateImageFile] looks at the declared type first and at the
    size second, so a file that breaks both rules is reported for its
    type; six mebibytes exactly is still accepted.  On either message
    [handleImageUpload] stores the message and returns: the file is not
    read, no photo is stored and the uploading flag is not raised. *)
Theorem upload_validation (v : Variant) (env : Env) (file : File) (slot : string)
    (st : State) :
  (JS.startsWith (type file) "image/" = false ->
   validateImageFile v file = Some (Msg.notAnImage v)) /\
  (JS.startsWith (type file) "image/" = true ->
   6 * 1024 * 1024 < size file ->
   validateImageFile v file = Some (Msg.tooLarge v)) /\
  (JS.startsWith (type file) "image/" = true ->
   size file <= 6 * 1024 * 1024 ->
   validateImageFile v file = None) /\
  (forall err,
      validateImageFile v file = Some err ->
      let r := handleImageUpload v env (Some file) slot st in
      completed r = true /\
      log r = [] /\
      fileReads (log r) = 0%nat /\
      errorMessage (app (final r)) = err /\
      userPhoto (app (final r)) = userPhoto (app st) /\
      dressPhoto (app (final r)) = dressPhoto (app st) /\
      isUploadingImage (app (final r)) = isUploadingImage (app st)).
Proof.
  unfold validateImageFile. split; [|split; [|split]].
  - intros ->. reflexivity.
  - intros -> Hsize. cbn [negb]. apply Z.ltb_lt in Hsize. rewrite Hsize. reflexivity.
  - intros -> Hsize. cbn [negb]. apply Z.ltb_ge in Hsize. rewrite Hsize. reflexivity.
  - intros err Herr. unfold handleImageUpload, validateImageFile. rewrite Herr.
    destruct st as [p a [up dp g k i ui e s] l]. repeat split.
Qed.

Lemma upload_validation_witness :
  let file := {| type := "application/pdf"; size := 7 * 1024 * 1024 |} in
  let r := handleImageUpload OptionA Scenario.offline (Some file) "user"
             Scenario.initial in
  validateImageFile OptionA file = Some "Please upload an image file (jpg, png, etc.)" /\
  fileReads (log r) = 0%nat /\
  userPhoto (app (final r)) = None.
Proof.
  intros file r.
  destruct (upload_validation OptionA Scenario.offline file "user" Scenario.initial)
    as [Htype [_ [_ Hstop]]].
  pose proof (Htype eq_refl) as Hmsg.
  destruct (Hstop _ Hmsg) as [_ [_ [Hreads [_ [Hphoto _]]]]].
  split; [exact Hmsg|]. split; [exact Hreads | exact Hphoto].
Defined.

(** ** Login *)

(** C7, as stated, fails: a login with "a@b.com" and "short" passes the
    client-side checks and posts the credentials; the message left behind
    is about the request, not about the length of the password. *)
Lemma short_password_is_posted :
  let r := handleLogin OptionA Scenario.offline (Scenario.loginForm "a@b.com" "short") in
  isValidEmail "a@b.com" = true /\
  isValidPassword "short" = false /\
  log r = [ Fetch {| endpoint := AuthLogin; credential := None;
                     body := LoginBody "a@b.com" "short" |} ] /\
  networkCalls (log r) <> 0%nat /\
  authError (auth (final r)) = "Login failed. Check network or server.".
Proof. repeat split. discriminate. Qed.

(** C7, amended.  With a valid e-mail, login checks only that a password
    was entered: an empty password stops it with the enter-password
    message and no request; any other password, short or not, is posted
    once to the login endpoint.  The six-character rule sits in sign-up,
    where a password of fewer than six UTF-16 code units stops the handler
    with the password-length message and no request, once the name and the
    address have passed. *)
Theorem login_password_check (v : Variant) (env : Env) (st : State) :
  isValidEmail (authEmail (auth st)) = true ->
  (authPassword (auth st) = "" ->
   let r := handleLogin v env st in
   completed r = true /\
   log r = [] /\
   authError (auth (final r)) = Msg.enterPassword v) /\
  (authPassword (auth st) <> "" ->
   let r := handleLogin v env st in
   completed r = true /\
   log r = [ Fetch {| endpoint := AuthLogin; credential := None;
                      body := LoginBody (JS.trim (authEmail (auth st)))
                                (authPassword (auth st)) |} ] /\
   networkCalls (log r) = 1%nat) /\
  (JS.truthy (authName (auth st)) = true ->
   (2 <= JS.length (JS.trim (authName (auth st))))%nat ->
   (JS.length (authPassword (auth st)) < 6)%nat ->
   let r := handleSignUp v env st in
   completed r = true /\
   log r = [] /\
   authError (auth (final r)) = Msg.passwordTooShort v).
Proof.
  intros Hemail.
  destruct st as [p [us tk ae il an em pw] b l].
  cbn [auth authName authEmail authPassword] in *.
  split; [|split].
  - intros ->. unfold handleLogin. cbn -[isValidEmail JS.trim].
    rewrite Hemail. repeat split.
  - intros Hpw. unfold handleLogin. cbn -[isValidEmail JS.trim].
    rewrite Hemail.
    destruct pw as [|c pw]; [contradiction|]. cbn -[isValidEmail JS.trim].
    destruct (fetch env _) as [e|res]; [repeat split|].
    destruct (ok res); [destruct (isNull (jsonOrEmpty res))|]; repeat split.
  - intros Hname Hlen Hpw.
    apply Nat.ltb_ge in Hlen. apply Nat.leb_gt in Hpw.
    unfold handleSignUp, isValidPassword.
    cbn -[Nat.ltb Nat.leb JS.trim isValidEmail JS.length].
    rewrite Hname, Hlen, Hemail, Hpw. repeat split.
Qed.

Lemma login_password_check_witness :
  let st := Scenario.signupForm "Ada" "a@b.com" "ééééé" in
  networkCalls (log (handleLogin OptionB Scenario.offline st)) = 1%nat /\
  authError (auth (final (handleSignUp OptionB Scenario.offline st)))
  = "Password must be >= 6 chars".
Proof.
  intros st.
  destruct (login_password_check OptionB Scenario.offline st eq_refl)
    as [_ [Hlogin Hsignup]].
  assert (Hpw : authPassword (auth st) <> "") by discriminate.
  destruct (Hlogin Hpw) as [_ [_ Hnet]].
  assert (Hname : (2 <= JS.length (JS.trim (authName (auth st))))%nat)
    by (vm_compute; lia).
  assert (Hshort : (JS.length (authPassword (auth st)) < 6)%nat)
    by (vm_compute; lia).
  destruct (Hsignup eq_refl Hname Hshort) as [_ [_ Hmsg]].
  split; [exact Hnet | exact Hmsg].
Defined.

(** ** The e-mail pattern *)

Lemma append_cons (c : ascii) (s t : string) :
  String c s +:+ t = String c (s +:+ t).
Proof. reflexivity. Qed.

Lemma append_nil_l (s : string) : "" +:+ s = s.
Proof. reflexivity. Qed.

Lemma append_nil_r (s : string) : s +:+ "" = s.
Proof.
  induction s as [|c s IH]; [reflexivity|].
  rewrite append_cons, IH. reflexivity.
Qed.

Lemma append_assoc (x y z : string) : (x +:+ y) +:+ z = x +:+ (y +:+ z).
Proof.
  induction x as [|c x IH]; [reflexivity|].
  rewrite !append_cons, IH. reflexivity.
Qed.

Lemma append_eq_nil (x y : string) : x +:+ y = "" -> x = "" /\ y = "".
Proof.
  destruct x; [rewrite append_nil_l; auto | rewrite append_cons; discriminate].
Qed.

Lemma Matches_Fail_inv (s : list N) : ~ Matches Regex.Fail s.
Proof. intros H. inversion H. Qed.

Lemma Matches_Eps_inv (s : list N) : Matches Regex.Eps s -> s = [].
Proof. intros H. inversion H. reflexivity. Qed.

Lemma Matches_Class_inv (p : N -> bool) (s : list N) :
  Matches (Regex.Class p) s -> exists c, s = [c] /\ p c = true.
Proof. intros H. inversion H; subst. eauto. Qed.

Lemma Matches_Cat_inv (r s : Regex.t) (w : list N) :
  Matches (Regex.Cat r s) w ->
  exists x y, w = (x ++ y)%list /\ Matches r x /\ Matches s y.
Proof. intros H. inversion H; subst. eauto. Qed.

Lemma Matches_Alt_inv (r s : Regex.t) (w : list N) :
  Matches (Regex.Alt r s) w -> Matches r w \/ Matches s w.
Proof. intros H. inversion H; subst; auto. Qed.

(** A non-empty match of a star starts with a non-empty match of its
    body. *)
Lemma Matches_Star_cons_inv (r : Regex.t) (c : N) (s : list N) :
  Matches (Regex.Star r) (c :: s) ->
  exists x y, s = (x ++ y)%list /\ Matches r (c :: x) /\ Matches (Regex.Star r) y.
Proof.
  intros H.
  remember (Regex.Star r) as R eqn:HR.
  remember (c :: s) as w eqn:Hw.
  revert r c s HR Hw.
  induction H as [| p c0 Hp | r0 t0 x y Hx IHx Hy IHy | r0 t0 x Hx IH
                  | r0 t0 x Hx IH | r0 | r0 x y Hx IHx Hy IHy];
    intros r c s HR Hw; try discriminate.
  inversion HR; subst r0.
  destruct x as [|c' x'].
  - simpl in Hw. apply IHy; [reflexivity | exact Hw].
  - simpl in Hw. inversion Hw; subst. exists x', y. auto.
Qed.

Lemma nullable_Matches (r : Regex.t) :
  Regex.nullable r = true <-> Matches r [].
Proof.
  split.
  - induction r as [| | p | r IHr s IHs | r IHr s IHs | r IHr]; cbn; intros H;
      try discriminate.
    + constructor.
    + apply andb_prop in H. destruct H as [Hr Hs].
      apply (MatchCat r s [] []); auto.
    + apply orb_prop in H. destruct H as [H|H];
        [apply MatchAltL | apply MatchAltR]; auto.
    + constructor.
  - intros H. remember (@nil N) as w eqn:Hw.
    induction H as [| p c Hp | r s x y _ IHx _ IHy | r s x _ IH | r s x _ IH | r
                    | r x y _ _ _ _]; cbn; try reflexivity.
    + discriminate.
    + apply app_eq_nil in Hw. destruct Hw as [-> ->].
      rewrite IHx, IHy by reflexivity. reflexivity.
    + rewrite IH by assumption. reflexivity.
    + rewrite IH by assumption. apply orb_true_r.
Qed.

Lemma deriv_Matches (c : N) (r : Regex.t) (s : list N) :
  Matches (Regex.deriv c r) s <-> Matches r (c :: s).
Proof.
  revert s.
  induction r as [| | p | r IHr t IHt | r IHr t IHt | r IHr]; intros s; cbn.
  - split; intros H; inversion H.
  - split; intros H; inversion H.
  - split.
    + destruct (p c) eqn:Hp; intros H; [|inversion H].
      apply Matches_Eps_inv in H. subst. constructor. exact Hp.
    + intros H. apply Matches_Class_inv in H. destruct H as [c' [Hs Hp]].
      inversion Hs; subst. rewrite Hp. constructor.
  - assert (Hcat : forall w, Matches (Regex.Cat (Regex.deriv c r) t) w ->
                             Matches (Regex.Cat r t) (c :: w)).
    { intros w H. apply Matches_Cat_inv in H. destruct H as [x [y [-> [Hx Hy]]]].
      apply IHr in Hx. apply (MatchCat r t (c :: x) y); assumption. }
    split.
    + destruct (Regex.nullable r) eqn:Hn; intros H; [|auto].
      apply Matches_Alt_inv in H. destruct H as [H|H]; [auto|].
      apply IHt in H. apply nullable_Matches in Hn.
      apply (MatchCat r t [] (c :: s)); assumption.
    + intros H. apply Matches_Cat_inv in H. destruct H as [x [y [Hw [Hx Hy]]]].
      destruct x as [|c' x'].
      * simpl in Hw. subst y. apply nullable_Matches in Hx. rewrite Hx.
        apply MatchAltR. apply IHt. exact Hy.
      * simpl in Hw. inversion Hw; subst.
        apply IHr in Hx.
        destruct (Regex.nullable r); [apply MatchAltL|]; constructor; assumption.
  - split; intros H.
    + apply Matches_Alt_inv in H. destruct H as [H|H];
        [apply MatchAltL, IHr | apply MatchAltR, IHt]; exact H.
    + apply Matches_Alt_inv in H. destruct H as [H|H];
        [apply MatchAltL, IHr | apply MatchAltR, IHt]; exact H.
  - split; intros H.
    + apply Matches_Cat_inv in H. destruct H as [x [y [-> [Hx Hy]]]].
      apply IHr in Hx. apply (MatchStarCons r (c :: x) y); assumption.
    + apply Matches_Star_cons_inv in H. destruct H as [x [y [-> [Hx Hy]]]].
      constructor; [apply IHr|]; assumption.
Qed.

(** The derivative matcher decides the denotation. *)
Lemma test_Matches (r : Regex.t) (s : list N) :
  Regex.test r s = true <-> Matches r s.
Proof.
  revert r. induction s as [|c s IH]; intros r; cbn.
  - apply nullable_Matches.
  - rewrite IH. apply deriv_Matches.
Qed.

Lemma Matches_Star_Class (p : N -> bool) (s : list N) :
  Matches (Regex.Star (Regex.Class p)) s <-> forallb p s = true.
Proof.
  split.
  - intros H. remember (Regex.Star (Regex.Class p)) as R eqn:HR.
    induction H as [| | | | | r | r x y Hx _ _ IHy]; try discriminate.
    + reflexivity.
    + inversion HR; subst r. apply Matches_Class_inv in Hx.
      destruct Hx as [c [-> Hp]].
      simpl. rewrite Hp, IHy by reflexivity. reflexivity.
  - induction s as [|c s IH]; cbn; intros H.
    + constructor.
    + apply andb_prop in H. destruct H as [Hp Hs].
      apply (MatchStarCons (Regex.Class p) [c] s); [constructor|]; auto.
Qed.

Lemma Matches_Plus_Class (p : N -> bool) (s : list N) :
  Matches (Regex.Plus (Regex.Class p)) s <-> s <> [] /\ forallb p s = true.
Proof.
  unfold Regex.Plus. split.
  - intros H. apply Matches_Cat_inv in H. destruct H as [x [y [-> [Hx Hy]]]].
    apply Matches_Class_inv in Hx. destruct Hx as [c [-> Hp]].
    apply Matches_Star_Class in Hy.
    simpl. rewrite Hp, Hy. split; [discriminate|reflexivity].
  - intros [Hne Hall]. destruct s as [|c s]; [contradiction|].
    cbn in Hall. apply andb_prop in Hall. destruct Hall as [Hp Hs].
    apply (MatchCat _ _ [c] s); [constructor; exact Hp|].
    apply Matches_Star_Class. exact Hs.
Qed.

Lemma Matches_Chr (c : N) (s : list N) :
  Matches (Regex.Chr c) s <-> s = [c].
Proof.
  unfold Regex.Chr. split.
  - intros H. apply Matches_Class_inv in H. destruct H as [c' [-> Hc]].
    apply N.eqb_eq in Hc. subst. reflexivity.
  - intros ->. constructor. apply N.eqb_refl.
Qed.

(** The pattern, read as words around the at sign and the dot. *)
Lemma isValidEmail_words (email : string) :
  isValidEmail email = true <->
  exists a b c,
    JS.units email = (a ++ [JS.code "@"] ++ b ++ [JS.code "."] ++ c)%list /\
    isWord a /\ isWord b /\ isWord c.
Proof.
  unfold isValidEmail, emailPattern, isWord. rewrite test_Matches. split.
  - intros H.
    apply Matches_Cat_inv in H. destruct H as [a [w1 [-> [Ha H]]]].
    apply Matches_Cat_inv in H. destruct H as [at_ [w2 [-> [Hat H]]]].
    apply Matches_Cat_inv in H. destruct H as [b [w3 [-> [Hb H]]]].
    apply Matches_Cat_inv in H. destruct H as [dot [c [-> [Hdot Hc]]]].
    apply Matches_Chr in Hat, Hdot. subst at_ dot.
    apply Matches_Plus_Class in Ha, Hb, Hc.
    exists a, b, c. auto.
  - intros (a & b & c & -> & Ha & Hb & Hc).
    apply Matches_Plus_Class in Ha, Hb, Hc.
    repeat (apply MatchCat; [try assumption|]); try assumption;
      apply Matches_Chr; reflexivity.
Qed.

(** X1.  [isValidEmail] accepts exactly the strings whose UTF-16 code
    units have the shape word "@" word "." word, a word being a non-empty
    run of code units that are neither white space, as [\s] has it, nor
    "@". *)
Theorem isValidEmail_shape (email : string) :
  isValidEmail email = true <->
  exists a b c,
    JS.units email = (a ++ [JS.code "@"] ++ b ++ [JS.code "."] ++ c)%list /\
    isWord a /\ isWord b /\ isWord c.
Proof. exact (isValidEmail_words email). Qed.

Lemma isValidEmail_shape_witness :
  isValidEmail "zoë@example.org" = true /\
  isValidEmail ("a" +:+ Fixture.nbsp +:+ "b@c.d") = false.
Proof.
  split.
  - apply (proj2 (isValidEmail_shape "zoë@example.org")).
    exists (JS.units "zoë"), (JS.units "example"), (JS.units "org").
    repeat split; first [reflexivity | discriminate].
  - reflexivity.
Defined.

(** ** Strings as code units *)

(** Cutting a string into characters loses no byte. *)
Lemma chars_spell_le (n : nat) (s : string) :
  (String.length s <= n)%nat -> JS.spell (JS.chars s) = s.
Proof.
  revert s. unfold JS.spell. induction n as [|n IH]; intros s Hlen.
  - destruct s; [reflexivity | cbn in Hlen; lia].
  - destruct s as [|b0 s1]; [reflexivity|].
    cbn [String.length] in Hlen.
    cbn [JS.chars].
    repeat match goal with
           | |- context [match ?x with _ => _ end] => destruct x eqn:?
           end;
      cbn [String.length] in Hlen;
      cbn [fold_right snd];
      rewrite ?append_cons, ?append_nil_l;
      rewrite IH by (cbn [String.length]; lia); reflexivity.
Qed.

Lemma chars_spell (s : string) : JS.spell (JS.chars s) = s.
Proof. apply (chars_spell_le (String.length s)). lia. Qed.

(** Every white-space code point lies in the basic plane, so it is one
    code unit. *)
Lemma is_ws_bmp (n : N) : JS.is_ws n = true -> (n < 65536)%N.
Proof.
  unfold JS.is_ws. intros H.
  repeat match goal with
         | H : (_ || _) = true |- _ => apply orb_true_iff in H; destruct H as [H|H]
         | H : (_ && _) = true |- _ => apply andb_true_iff in H; destruct H
         | H : (_ =? _)%N = true |- _ => apply N.eqb_eq in H
         | H : (_ <=? _)%N = true |- _ => apply N.leb_le in H
         end; lia.
Qed.

Lemma utf16_no_space (cps : list N) :
  forallb (fun n => negb (JS.is_ws n)) (flat_map JS.utf16 cps) = true ->
  forallb (fun n => negb (JS.is_ws n)) cps = true.
Proof.
  induction cps as [|cp cps IH]; [reflexivity|].
  cbn [flat_map forallb]. rewrite forallb_app. intros H.
  apply andb_prop in H. destruct H as [Hcp Hrest].
  rewrite (IH Hrest), andb_true_r.
  unfold JS.utf16 in Hcp. destruct (cp <? 65536)%N eqn:Hb.
  - cbn in Hcp. rewrite andb_true_r in Hcp. exact Hcp.
  - destruct (JS.is_ws cp) eqn:Hw; [|reflexivity].
    apply is_ws_bmp in Hw. apply N.ltb_ge in Hb. lia.
Qed.

Lemma dropSpace_no_space (cs : list (N * string)) :
  forallb (fun n => negb (JS.is_ws n)) (map fst cs) = true ->
  JS.dropSpace cs = cs.
Proof.
  destruct cs as [|c cs]; [reflexivity|].
  cbn [map forallb JS.dropSpace]. intros H.
  apply andb_prop in H. destruct H as [Hc _].
  apply negb_true_iff in Hc. rewrite Hc. reflexivity.
Qed.

(** [trim] removes nothing from a string that holds no white space. *)
Lemma trim_no_space (s : string) :
  forallb (fun n => negb (JS.is_ws n)) (JS.units s) = true -> JS.trim s = s.
Proof.
  intros H. apply utf16_no_space in H. unfold JS.trim.
  rewrite (dropSpace_no_space _ H).
  rewrite dropSpace_no_space, rev_involutive; [apply chars_spell|].
  rewrite map_rev. apply forallb_forall. intros n Hn.
  apply in_rev in Hn. revert n Hn. apply forallb_forall. exact H.
Qed.

(** An accepted address holds no white space. *)
Lemma isValidEmail_no_space (email : string) :
  isValidEmail email = true ->
  forallb (fun n => negb (JS.is_ws n)) (JS.units email) = true.
Proof.
  intros H. apply isValidEmail_words in H.
  destruct H as (a & b & c & -> & [_ Ha] & [_ Hb] & [_ Hc]).
  assert (Hw : forall x, forallb notSpaceAt x = true ->
                         forallb (fun n => negb (JS.is_ws n)) x = true).
  { intros x Hx. apply forallb_forall. intros n Hn.
    pose proof (proj1 (forallb_forall _ _) Hx n Hn) as Hch.
    unfold notSpaceAt in Hch. apply andb_prop in Hch. tauto. }
  rewrite !forallb_app, (Hw a Ha), (Hw b Hb), (Hw c Hc). reflexivity.
Qed.

(** ** Sign-up and login *)

(** X2.  An address that passes [isValidEmail] reaches the server exactly
    as typed: the [trim] applied to it removes nothing.  Login posts it
    with the password as soon as the password is not empty; sign-up posts
    it with the trimmed name once the trimmed name has two UTF-16 code
    units and the password six. *)
Theorem valid_email_posted_as_typed (v : Variant) (env : Env) (st : State) :
  isValidEmail (authEmail (auth st)) = true ->
  (authPassword (auth st) <> "" ->
   log (handleLogin v env st) =
   [ Fetch {| endpoint := AuthLogin; credential := None;
              body := LoginBody (authEmail (auth st)) (authPassword (auth st)) |} ]) /\
  (JS.truthy (authName (auth st)) = true ->
   (2 <= JS.length (JS.trim (authName (auth st))))%nat ->
   (6 <= JS.length (authPassword (auth st)))%nat ->
   log (handleSignUp v env st) =
   [ Fetch {| endpoint := AuthSignup; credential := None;
              body := SignupBody (JS.trim (authName (auth st)))
                        (authEmail (auth st)) (authPassword (auth st)) |} ]).
Proof.
  intros Hemail.
  pose proof (trim_no_space _ (isValidEmail_no_space _ Hemail)) as Htrim.
  destruct st as [p [us tk ae il an em pw] b l].
  cbn [auth authName authEmail authPassword] in *.
  split.
  - intros Hpw. unfold handleLogin. cbn -[isValidEmail JS.trim].
    rewrite Hemail, Htrim.
    destruct pw as [|c pw]; [contradiction|]. cbn -[isValidEmail JS.trim].
    destruct (fetch env _) as [e|res]; [reflexivity|].
    destruct (ok res); [destruct (isNull (jsonOrEmpty res))|]; reflexivity.
  - intros Hname Hlen Hpw.
    apply Nat.ltb_ge in Hlen. apply Nat.leb_le in Hpw.
    unfold handleSignUp, isValidPassword.
    cbn -[Nat.ltb Nat.leb JS.trim isValidEmail JS.length].
    rewrite Hname, Hlen, Hemail, Hpw, Htrim.
    cbn -[Nat.ltb Nat.leb JS.trim isValidEmail JS.length].
    destruct (fetch env _) as [e|res]; [reflexivity|].
    destruct (ok res); [destruct (isNull (jsonOrEmpty res))|]; reflexivity.
Qed.

Lemma valid_email_posted_as_typed_witness :
  log (handleLogin OptionA Scenario.offline
         (Scenario.loginForm "ada@example.org" "pass phrase")) =
  [ Fetch {| endpoint := AuthLogin; credential := None;
             body := LoginBody "ada@example.org" "pass phrase" |} ] /\
  log (handleSignUp OptionA Scenario.offline
         (Scenario.signupForm (Fixture.nbsp +:+ "Zoë ") "zoë@example.org" "pässwö")) =
  [ Fetch {| endpoint := AuthSignup; credential := None;
             body := SignupBody "Zoë" "zoë@example.org" "pässwö" |} ].
Proof.
  split.
  - apply (valid_email_posted_as_typed OptionA Scenario.offline
             (Scenario.loginForm "ada@example.org" "pass phrase") eq_refl).
    discriminate.
  - apply (valid_email_posted_as_typed OptionA Scenario.offline
             (Scenario.signupForm (Fixture.nbsp +:+ "Zoë ") "zoë@example.org" "pässwö")
             eq_refl);
      [reflexivity | vm_compute; lia | vm_compute; lia].
Defined.

(** X3.  Sign-up checks the name, then the address, then the password, and
    the first check that fails decides the message; it sends a request
    exactly when all three pass, and a form it rejects changes nothing
    but the message. *)
Theorem signup_validation (v : Variant) (env : Env) (st : State) :
  let a := auth st in
  let nameOk := JS.truthy (authName a) && (2 <=? JS.length (JS.trim (authName a)))%nat in
  let r := handleSignUp v env st in
  (nameOk = false -> authError (auth (final r)) = Msg.nameTooShort v) /\
  (nameOk = true -> isValidEmail (authEmail a) = false ->
   authError (auth (final r)) = Msg.invalidSignupEmail) /\
  (nameOk = true -> isValidEmail (authEmail a) = true ->
   isValidPassword (authPassword a) = false ->
   authError (auth (final r)) = Msg.passwordTooShort v) /\
  (networkCalls (log r) = 1%nat <->
   nameOk && isValidEmail (authEmail a) && isValidPassword (authPassword a) = true) /\
  (networkCalls (log r) = 0%nat \/ networkCalls (log r) = 1%nat) /\
  (networkCalls (log r) = 0%nat -> final r = setAuthError (authError (auth (final r))) st).
Proof.
  destruct st as [p [us tk ae il an em pw] b l].
  cbn [auth authName authEmail authPassword].
  unfold handleSignUp.
  cbn -[Nat.ltb Nat.leb JS.trim isValidEmail isValidPassword JS.length].
  replace (JS.length (JS.trim an) <? 2)%nat
    with (negb (2 <=? JS.length (JS.trim an))%nat)
    by (symmetry; apply Nat.ltb_antisym).
  destruct (JS.truthy an), (2 <=? JS.length (JS.trim an))%nat,
    (isValidEmail em), (isValidPassword pw);
    cbn -[JS.trim];
    try (repeat split; intros; first [discriminate | reflexivity | auto]; fail).
  all: destruct (fetch env _) as [e|res];
    [|destruct (ok res); [destruct (isNull (jsonOrEmpty res))|]];
    cbn -[JS.trim];
    repeat split; intros; first [discriminate | reflexivity | auto].
Qed.

Lemma signup_validation_witness :
  let st := Scenario.signupForm (Fixture.nbsp +:+ "é" +:+ Fixture.nbsp)
              "ada@example.org" "pass phrase" in
  let st' := Scenario.signupForm "Zoë" "ada@example.org" "ééé" in
  (authError (auth (final (handleSignUp OptionA Scenario.offline st)))
   = "Name must be at least 2 characters long" /\
   networkCalls (log (handleSignUp OptionA Scenario.offline st)) = 0%nat) /\
  authError (auth (final (handleSignUp OptionA Scenario.offline st')))
  = "Password must be at least 6 characters".
Proof.
  intros st st'. split.
  - destruct (signup_validation OptionA Scenario.offline st)
      as [Hname [_ [_ [_ _]]]].
    split; [exact (Hname eq_refl) | reflexivity].
  - destruct (signup_validation OptionA Scenario.offline st')
      as [_ [_ [Hpw _]]].
    exact (Hpw eq_refl eq_refl eq_refl).
Defined.

(** What [storeSession] leaves behind. *)
Lemma storeSession_spec (data : Json) (fallbackUser : User) (st : State) :
  let u := default fallbackUser (juser data) in
  let st' := storeSession data fallbackUser st in
  user (auth st') = Some u /\
  localStorage st' !! "stitchpix_user" = Some (UserJson u) /\
  currentPage st' = Upload /\
  app st' = app st /\
  authError (auth st') = authError (auth st) /\
  isLoadingAuth (auth st') = isLoadingAuth (auth st) /\
  localStorage st' !! "stitchpix_api_key" = localStorage st !! "stitchpix_api_key" /\
  (forall t, jtoken data = Some t -> JS.truthy t = true ->
             token (auth st') = Some t /\
             localStorage st' !! "stitchpix_token" = Some (Str t)) /\
  (JS.truthy_opt (jtoken data) = false ->
   token (auth st') = token (auth st) /\
   localStorage st' !! "stitchpix_token" = localStorage st !! "stitchpix_token").
Proof.
  destruct st as [p [us tk ae il an em pw] b l].
  unfold storeSession.
  destruct (jtoken data) as [t|] eqn:Ht; [destruct (JS.truthy t) eqn:Htt|];
    cbn; repeat split; intros; simplify_eq;
    rewrite ?lookup_insert_eq, ?lookup_insert_ne by discriminate;
    rewrite ?lookup_insert_eq;
    first [reflexivity | discriminate | congruence].
Qed.

(** Login, once the form is accepted and the server answers. *)
Lemma handleLogin_answered (v : Variant) (env : Env) (st : State) (res : Response) :
  isValidEmail (authEmail (auth st)) = true ->
  authPassword (auth st) <> "" ->
  fetch env {| endpoint := AuthLogin; credential := None;
               body := LoginBody (authEmail (auth st)) (authPassword (auth st)) |}
  = inr res ->
  final (handleLogin v env st) =
  let st1 := setIsLoadingAuth true (setAuthError "" st) in
  let data := jsonOrEmpty res in
  if ok res then
    if isNull data then
      finallyAuth env (setAuthError Msg.loginNetwork st1)
    else
      finallyAuth env
        (setAuthPassword ""
           (setAuthEmail ""
              (storeSession data
                 {| userName := None; userEmail := Some (authEmail (auth st)) |} st1)))
  else
    finallyAuth env
      (setAuthError (messageOr data (Msg.loginFailed v (status res))) st1).
Proof.
  intros Hemail Hpw Hfetch.
  pose proof (trim_no_space _ (isValidEmail_no_space _ Hemail)) as Htrim.
  destruct st as [p [us tk ae il an em pw] b l].
  cbn [auth authName authEmail authPassword] in *.
  unfold handleLogin. cbn -[isValidEmail JS.trim storeSession].
  rewrite Hemail, Htrim.
  destruct pw as [|ch pw]; [contradiction|]. cbn -[isValidEmail JS.trim storeSession].
  rewrite Hfetch.
  destruct (ok res); [destruct (isNull (jsonOrEmpty res))|]; reflexivity.
Qed.

(** A body is [null] exactly when it parsed and the parse gave [null]. *)
Lemma isNull_jsonOrEmpty (res : Response) :
  isNull (jsonOrEmpty res) = true <-> json res = inr JsonNull.
Proof.
  unfold jsonOrEmpty. destruct (json res) as [e|[|]]; cbn; split;
    first [discriminate | reflexivity].
Qed.

Lemma finallyAuth_spec (env : Env) (st : State) :
  let st' := finallyAuth env st in
  user (auth st') = user (auth st) /\
  token (auth st') = token (auth st) /\
  authError (auth st') = authError (auth st) /\
  authName (auth st') = authName (auth st) /\
  authEmail (auth st') = authEmail (auth st) /\
  authPassword (auth st') = authPassword (auth st) /\
  currentPage st' = currentPage st /\
  app st' = app st /\
  localStorage st' = localStorage st /\
  (mounted env = true -> isLoadingAuth (auth st') = false) /\
  (mounted env = false -> isLoadingAuth (auth st') = isLoadingAuth (auth st)).
Proof.
  destruct st as [p [us tk ae il an em pw] b l].
  unfold finallyAuth. destruct (mounted env); cbn; repeat split; intros;
    first [reflexivity | discriminate].
Qed.

(** The state after a login that was answered with an ok status and a
    body other than [null]. *)
Lemma handleLogin_ok_state (v : Variant) (env : Env) (st : State) (res : Response) :
  isValidEmail (authEmail (auth st)) = true ->
  authPassword (auth st) <> "" ->
  fetch env {| endpoint := AuthLogin; credential := None;
               body := LoginBody (authEmail (auth st)) (authPassword (auth st)) |}
  = inr res ->
  ok res = true ->
  json res <> inr JsonNull ->
  let data := jsonOrEmpty res in
  let u := default {| userName := None; userEmail := Some (authEmail (auth st)) |}
             (juser data) in
  let st' := final (handleLogin v env st) in
  user (auth st') = Some u /\
  localStorage st' !! "stitchpix_user" = Some (UserJson u) /\
  currentPage st' = Upload /\
  authEmail (auth st') = "" /\
  authPassword (auth st') = "" /\
  authError (auth st') = "" /\
  app st' = app st /\
  (forall t, jtoken data = Some t -> JS.truthy t = true ->
             token (auth st') = Some t /\
             localStorage st' !! "stitchpix_token" = Some (Str t)) /\
  (JS.truthy_opt (jtoken data) = false ->
   token (auth st') = token (auth st) /\
   localStorage st' !! "stitchpix_token" = localStorage st !! "stitchpix_token").
Proof.
  intros Hemail Hpw Hfetch Hok Hbody data u st'. subst st'.
  rewrite (handleLogin_answered v env st res Hemail Hpw Hfetch), Hok.
  cbn zeta.
  destruct (isNull (jsonOrEmpty res)) eqn:Hnull;
    [apply isNull_jsonOrEmpty in Hnull; contradiction|].
  set (st1 := setIsLoadingAuth true (setAuthError "" st)).
  set (fb := {| userName := None; userEmail := Some (authEmail (auth st)) |}).
  destruct (storeSession_spec (jsonOrEmpty res) fb st1)
    as (Hu & Hls & Hp & Happ & Herr & _ & _ & Htok & Hnotok).
  set (st2 := storeSession (jsonOrEmpty res) fb st1) in *.
  destruct (finallyAuth_spec env (setAuthPassword "" (setAuthEmail "" st2)))
    as (Fu & Ft & Fe & _ & Fm & Fpw & Fp & Fapp & Fls & _).
  assert (Hst1 : token (auth st1) = token (auth st) /\ app st1 = app st /\
                 localStorage st1 = localStorage st /\ authError (auth st1) = "").
  { subst st1. destruct st as [p [us tk ae il an em pw] b l]. repeat split. }
  destruct Hst1 as (T1 & A1 & L1 & E1).
  assert (Hset : forall s : State,
             let s' := setAuthPassword "" (setAuthEmail "" s) in
             user (auth s') = user (auth s) /\ token (auth s') = token (auth s) /\
             authError (auth s') = authError (auth s) /\
             authEmail (auth s') = "" /\ authPassword (auth s') = "" /\
             currentPage s' = currentPage s /\ app s' = app s /\
             localStorage s' = localStorage s).
  { intros [p [us tk ae il an em pw] b l]. repeat split. }
  destruct (Hset st2) as (Su & St & Se & Sm & Spw & Sp & Sapp & Sls).
  rewrite Fu, Fls, Fp, Fm, Fpw, Fe, Fapp, Ft, Su, Sls, Sp, Sm, Spw, Se, Sapp, St.
  subst data u. fold fb.
  split; [exact Hu|]. split; [exact Hls|]. split; [exact Hp|].
  split; [reflexivity|]. split; [reflexivity|].
  split; [congruence|]. split; [congruence|]. split; [exact Htok|].
  intros Hno. destruct (Hnotok Hno) as [Ha Hb]. split; congruence.
Qed.

(** The state after a login that was answered with an ok status and the
    body [null]: reading [data.token] throws, and the catch block leaves
    its message. *)
Lemma handleLogin_null_state (v : Variant) (env : Env) (st : State) (res : Response) :
  isValidEmail (authEmail (auth st)) = true ->
  authPassword (auth st) <> "" ->
  fetch env {| endpoint := AuthLogin; credential := None;
               body := LoginBody (authEmail (auth st)) (authPassword (auth st)) |}
  = inr res ->
  ok res = true ->
  json res = inr JsonNull ->
  let st' := final (handleLogin v env st) in
  user (auth st') = user (auth st) /\
  token (auth st') = token (auth st) /\
  currentPage st' = currentPage st /\
  localStorage st' = localStorage st /\
  app st' = app st /\
  authEmail (auth st') = authEmail (auth st) /\
  authPassword (auth st') = authPassword (auth st) /\
  authError (auth st') = Msg.loginNetwork.
Proof.
  intros Hemail Hpw Hfetch Hok Hbody st'. subst st'.
  rewrite (handleLogin_answered v env st res Hemail Hpw Hfetch), Hok.
  cbn zeta. apply isNull_jsonOrEmpty in Hbody. rewrite Hbody.
  match goal with
  | |- context [finallyAuth env ?s] =>
      destruct (finallyAuth_spec env s)
        as (-> & -> & -> & _ & -> & -> & -> & -> & -> & _)
  end.
  destruct st as [p [us tk ae il an em pw] b l]. repeat split.
Qed.

(** X4.  A login the server answers with an ok status signs the user in
    unless the body is the JSON value [null].  The user is the body's
    [user], or just the typed address when the body has none or does not
    parse; the same user is written under "stitchpix_user"; the upload
    page is shown and the form emptied.  A non-empty [token] of the body
    is kept in memory and under "stitchpix_token"; without one the token
    already held stays.  On a [null] body nobody is signed in: user,
    token, page, storage and form stay as they were and the
    check-your-network message is shown. *)
Theorem login_success (v : Variant) (env : Env) (st : State) (res : Response) :
  isValidEmail (authEmail (auth st)) = true ->
  authPassword (auth st) <> "" ->
  fetch env {| endpoint := AuthLogin; credential := None;
               body := LoginBody (authEmail (auth st)) (authPassword (auth st)) |}
  = inr res ->
  ok res = true ->
  let data := jsonOrEmpty res in
  let u := default {| userName := None; userEmail := Some (authEmail (auth st)) |}
             (juser data) in
  let st' := final (handleLogin v env st) in
  (json res <> inr JsonNull ->
   user (auth st') = Some u /\
   localStorage st' !! "stitchpix_user" = Some (UserJson u) /\
   currentPage st' = Upload /\
   authEmail (auth st') = "" /\
   authPassword (auth st') = "" /\
   authError (auth st') = "" /\
   app st' = app st /\
   (forall t, jtoken data = Some t -> JS.truthy t = true ->
              token (auth st') = Some t /\
              localStorage st' !! "stitchpix_token" = Some (Str t)) /\
   (JS.truthy_opt (jtoken data) = false ->
    token (auth st') = token (auth st) /\
    localStorage st' !! "stitchpix_token" = localStorage st !! "stitchpix_token")) /\
  (json res = inr JsonNull ->
   user (auth st') = user (auth st) /\
   token (auth st') = token (auth st) /\
   currentPage st' = currentPage st /\
   localStorage st' = localStorage st /\
   app st' = app st /\
   authEmail (auth st') = authEmail (auth st) /\
   authPassword (auth st') = authPassword (auth st) /\
   authError (auth st') = Msg.loginNetwork).
Proof.
  intros Hemail Hpw Hfetch Hok. split.
  - exact (handleLogin_ok_state v env st res Hemail Hpw Hfetch Hok).
  - exact (handleLogin_null_state v env st res Hemail Hpw Hfetch Hok).
Qed.

Lemma login_success_witness :
  let st := Scenario.loginForm "ada@example.org" "pass phrase" in
  let st' := final (handleLogin OptionA (Fixture.answering Fixture.welcome) st) in
  let st0 := final (handleLogin OptionA (Fixture.answering Fixture.nullBody) st) in
  (user (auth st') = Some Fixture.ada /\
   token (auth st') = Some "tok-1" /\
   currentPage st' = Upload) /\
  (user (auth st0) = None /\
   currentPage st0 = Login /\
   authError (auth st0) = "Login failed. Check network or server.").
Proof.
  intros st st' st0. split.
  - destruct (login_success OptionA (Fixture.answering Fixture.welcome)
                st Fixture.welcome eq_refl ltac:(discriminate) eq_refl eq_refl)
      as [Hin _].
    destruct (Hin ltac:(discriminate)) as (Hu & _ & Hp & _ & _ & _ & _ & Htok & _).
    destruct (Htok "tok-1" eq_refl eq_refl) as [Ht _].
    split; [exact Hu|]. split; [exact Ht | exact Hp].
  - destruct (login_success OptionA (Fixture.answering Fixture.nullBody)
                st Fixture.nullBody eq_refl ltac:(discriminate) eq_refl eq_refl)
      as [_ Hout].
    destruct (Hout eq_refl) as (Hu & _ & Hp & _ & _ & _ & _ & He).
    split; [exact Hu|]. split; [exact Hp | exact He].
Defined.

(** X5.  Without an ok answer nobody is signed in.  When every request
    fails or is answered with a non-ok status, login and sign-up leave
    the user, the token, the page, the stored session, the form and the
    rest of the state as they were, and leave a non-empty error message. *)
Theorem auth_refused_changes_nothing (v : Variant) (env : Env) (isSignUp : bool)
    (st : State) :
  (forall req res, fetch env req = inr res -> ok res = false) ->
  let st' := final (handleAuth v env isSignUp st) in
  user (auth st') = user (auth st) /\
  token (auth st') = token (auth st) /\
  currentPage st' = currentPage st /\
  localStorage st' = localStorage st /\
  app st' = app st /\
  authName (auth st') = authName (auth st) /\
  authEmail (auth st') = authEmail (auth st) /\
  authPassword (auth st') = authPassword (auth st) /\
  JS.truthy (authError (auth st')) = true.
Proof.
  intros Hrefuse.
  assert (Hmsg : forall data fb, JS.truthy fb = true -> JS.truthy (messageOr data fb) = true).
  { intros data fb Hfb. unfold messageOr.
    destruct (jmessage data) as [m|]; [|exact Hfb].
    destruct (JS.truthy m) eqn:Hm; [exact Hm | exact Hfb]. }
  destruct st as [p [us tk ae il an em pw] b l].
  destruct isSignUp; unfold handleAuth, handleSignUp, handleLogin, finallyAuth.
  - cbn -[Nat.ltb JS.trim isValidEmail isValidPassword JS.length messageOr].
    destruct (negb (JS.truthy an) || (JS.length (JS.trim an) <? 2)%nat);
      [destruct v; repeat split|].
    destruct (isValidEmail em); [|repeat split].
    destruct (isValidPassword pw); [|destruct v; repeat split].
    cbn -[JS.trim messageOr].
    destruct (fetch env _) as [e|res] eqn:Hf.
    + destruct (mounted env), v; repeat split.
    + rewrite (Hrefuse _ _ Hf). cbn -[JS.trim messageOr].
      destruct (mounted env); cbn -[messageOr]; repeat split;
        apply Hmsg; destruct v; reflexivity.
  - cbn -[JS.trim isValidEmail messageOr].
    destruct (isValidEmail em); [|destruct v; repeat split].
    destruct (JS.truthy pw); [|destruct v; repeat split].
    cbn -[JS.trim messageOr].
    destruct (fetch env _) as [e|res] eqn:Hf.
    + destruct (mounted env); repeat split.
    + rewrite (Hrefuse _ _ Hf). cbn -[JS.trim messageOr].
      destruct (mounted env); cbn -[messageOr]; repeat split;
        apply Hmsg; destruct v; reflexivity.
Qed.

Lemma auth_refused_changes_nothing_witness :
  let st := Scenario.loginForm "ada@example.org" "pass phrase" in
  let st' := final (handleAuth OptionA (Fixture.answering Fixture.refused) false st) in
  user (auth st') = None /\ currentPage st' = Login /\ localStorage st' = ∅.
Proof.
  intros st st'.
  assert (H : forall req res,
             fetch (Fixture.answering Fixture.refused) req = inr res -> ok res = false).
  { intros req res Heq. inversion Heq. reflexivity. }
  destruct (auth_refused_changes_nothing OptionA (Fixture.answering Fixture.refused)
              false st H)
    as (Hu & _ & Hp & Hl & _).
  split; [exact Hu|]. split; [exact Hp | exact Hl].
Defined.

(** X6.  A login the server refuses shows the server's own [message] when
    the body has a non-empty one, and otherwise, also when the body does
    not parse, the status line of the component. *)
Theorem login_refusal_message (v : Variant) (env : Env) (st : State) (res : Response) :
  isValidEmail (authEmail (auth st)) = true ->
  authPassword (auth st) <> "" ->
  fetch env {| endpoint := AuthLogin; credential := None;
               body := LoginBody (authEmail (auth st)) (authPassword (auth st)) |}
  = inr res ->
  ok res = false ->
  let shown := authError (auth (final (handleLogin v env st))) in
  (forall data m, json res = inr data -> jmessage data = Some m -> m <> "" ->
                  shown = m) /\
  (forall data, json res = inr data -> JS.truthy_opt (jmessage data) = false ->
                shown = Msg.loginFailed v (status res)) /\
  (forall e, json res = inl e -> shown = Msg.loginFailed v (status res)).
Proof.
  intros Hemail Hpw Hfetch Hok shown. subst shown.
  rewrite (handleLogin_answered v env st res Hemail Hpw Hfetch), Hok. cbn zeta.
  match goal with
  | |- context [finallyAuth env ?s] =>
      destruct (finallyAuth_spec env s) as (_ & _ & -> & _)
  end.
  assert (Hset : forall m s, authError (auth (setAuthError m s)) = m).
  { intros m [p [us tk ae il an em pw] b l]. reflexivity. }
  rewrite Hset. unfold messageOr, jsonOrEmpty.
  split; [|split].
  - intros data m -> -> Hm. destruct m; [contradiction | reflexivity].
  - intros data -> Hno. destruct (jmessage data) as [m|]; [|reflexivity].
    cbn in Hno. rewrite Hno. reflexivity.
  - intros e ->. reflexivity.
Qed.

Lemma login_refusal_message_witness :
  authError (auth (final (handleLogin OptionA (Fixture.answering Fixture.refused)
                            (Scenario.loginForm "ada@example.org" "pass phrase"))))
  = "bad credentials".
Proof.
  destruct (login_refusal_message OptionA (Fixture.answering Fixture.refused)
              (Scenario.loginForm "ada@example.org" "pass phrase") Fixture.refused
              eq_refl ltac:(discriminate) eq_refl eq_refl)
    as [Hmsg _].
  apply (Hmsg _ "bad credentials" eq_refl eq_refl). discriminate.
Defined.

(** ** The stored session *)

Ltac lookup_simpl :=
  repeat first
    [ rewrite lookup_insert_eq
    | rewrite lookup_delete_eq
    | rewrite lookup_insert_ne by discriminate
    | rewrite lookup_delete_ne by discriminate ].

Lemma JS_parse_cases (c : JsonCodec) (x : Stored) :
  {parsed | JSON_parse c x = Some parsed} + {JSON_parse c x = None}.
Proof. destruct (JSON_parse c x) as [parsed|]; [left; exists parsed|right]; reflexivity. Qed.

(** Mounting, entry by entry. *)
Lemma mount_spec (c : JsonCodec) (l : gmap string Stored) :
  let st := mount c l in
  let parsed :=
    match l !! "stitchpix_user" with
    | Some x => if storedTruthy x then Some (JSON_parse c x) else None
    | None => None
    end in
  user (auth st) = (match parsed with Some (Some u) => u | _ => None end) /\
  currentPage st = (match parsed with Some (Some _) => Upload | _ => Login end) /\
  localStorage st !! "stitchpix_user" =
    (match parsed with Some None => None | _ => l !! "stitchpix_user" end) /\
  token (auth st) =
    (match l !! "stitchpix_token" with
     | Some x => if storedTruthy x then Some (storedText c x) else None
     | None => None
     end) /\
  localStorage st !! "stitchpix_token" = l !! "stitchpix_token" /\
  apiKey (app st) =
    (match l !! "stitchpix_api_key" with
     | Some x => if storedTruthy x then storedText c x else ""
     | None => ""
     end) /\
  keyMirrored st /\
  selectedModel (app st) = "canvas" /\
  generatedImages (app st) = [] /\
  userPhoto (app st) = None /\
  dressPhoto (app st) = None.
Proof.
  unfold mount, hydrate, firstRender, keyMirrored, persistApiKey. cbn [localStorage].
  destruct (l !! "stitchpix_api_key") as [xa|];
    [destruct (storedTruthy xa); [destruct (JS.truthy (storedText c xa)) eqn:Hk|]|];
    (destruct (l !! "stitchpix_token") as [xt|] eqn:Ht;
     [destruct (storedTruthy xt)|]);
    (destruct (l !! "stitchpix_user") as [xu|] eqn:Hu;
     [destruct (storedTruthy xu); [destruct (JS_parse_cases c xu) as [[[u|] ->]| ->]|]|]);
    cbn; rewrite ?Hk; cbn; lookup_simpl;
    rewrite ?Hk, ?Ht, ?Hu;
    repeat split; reflexivity.
Qed.

(** X7.  A login survives a reload.  After a login the server answered
    with an ok status and a body other than [null], mounting again over
    the storage it left behind restores the same user and opens on the
    upload page, with or without a token in the answer; when the answer
    carried a non-empty token, the same token is restored too. *)
Theorem login_survives_reload (v : Variant) (env : Env) (c : JsonCodec) (st : State)
    (res : Response) :
  isValidEmail (authEmail (auth st)) = true ->
  authPassword (auth st) <> "" ->
  fetch env {| endpoint := AuthLogin; credential := None;
               body := LoginBody (authEmail (auth st)) (authPassword (auth st)) |}
  = inr res ->
  ok res = true ->
  json res <> inr JsonNull ->
  let st' := final (handleLogin v env st) in
  let st'' := mount c (localStorage st') in
  user (auth st'') = user (auth st') /\
  currentPage st'' = Upload /\
  (exists u, user (auth st'') = Some u) /\
  (forall t, jtoken (jsonOrEmpty res) = Some t -> JS.truthy t = true ->
             token (auth st') = Some t /\ token (auth st'') = Some t).
Proof.
  intros Hemail Hpw Hfetch Hok Hbody st' st''.
  destruct (handleLogin_ok_state v env st res Hemail Hpw Hfetch Hok Hbody)
    as (Hu & Hls & _ & _ & _ & _ & _ & Htok & _).
  fold st' in Hu, Hls, Htok.
  destruct (mount_spec c (localStorage st')) as (Mu & Mp & _ & Mt & _).
  fold st'' in Mu, Mp, Mt.
  rewrite Hls in Mu, Mp. cbn in Mu, Mp.
  split; [rewrite Mu, Hu; reflexivity|]. split; [exact Mp|].
  split; [rewrite Mu; eexists; reflexivity|].
  intros t Ht Htt. destruct (Htok t Ht Htt) as [Htk Hlt].
  split; [exact Htk|].
  rewrite Hlt in Mt. cbn in Mt. rewrite Htt in Mt. exact Mt.
Qed.

Lemma login_survives_reload_witness :
  let st := Scenario.loginForm "ada@example.org" "pass phrase" in
  let st' := final (handleLogin OptionB (Fixture.answering Fixture.welcome) st) in
  let st0 := final (handleLogin OptionB (Fixture.answering Fixture.bare) st) in
  (user (auth (mount Fixture.codec (localStorage st'))) = Some Fixture.ada /\
   token (auth (mount Fixture.codec (localStorage st'))) = Some "tok-1" /\
   currentPage (mount Fixture.codec (localStorage st')) = Upload) /\
  (user (auth (mount Fixture.codec (localStorage st0)))
   = Some {| userName := None; userEmail := Some "ada@example.org" |} /\
   currentPage (mount Fixture.codec (localStorage st0)) = Upload).
Proof.
  intros st st' st0. split.
  - destruct (login_survives_reload OptionB (Fixture.answering Fixture.welcome)
                Fixture.codec st Fixture.welcome
                eq_refl ltac:(discriminate) eq_refl eq_refl ltac:(discriminate))
      as (Hu & Hp & _ & Htok).
    destruct (Htok "tok-1" eq_refl eq_refl) as [_ Ht].
    split; [exact (eq_trans Hu eq_refl)|]. split; [exact Ht | exact Hp].
  - destruct (login_survives_reload OptionB (Fixture.answering Fixture.bare)
                Fixture.codec st Fixture.bare
                eq_refl ltac:(discriminate) eq_refl eq_refl ltac:(discriminate))
      as (Hu & Hp & _ & _).
    split; [exact (eq_trans Hu eq_refl) | exact Hp].
Defined.


(** X9.  A stored user that does not parse is thrown away on mount: its
    entry is removed, nobody is signed in and the login page is shown;
    the stored token beside it is still loaded and kept. *)
Theorem corrupt_user_discarded (c : JsonCodec) (l : gmap string Stored) (s : string) :
  l !! "stitchpix_user" = Some (Str s) ->
  s <> "" ->
  parseText c s = None ->
  let st := mount c l in
  user (auth st) = None /\
  currentPage st = Login /\
  localStorage st !! "stitchpix_user" = None /\
  localStorage st !! "stitchpix_token" = l !! "stitchpix_token" /\
  (forall t, l !! "stitchpix_token" = Some (Str t) -> t <> "" ->
             token (auth st) = Some t).
Proof.
  intros Hl Hs Hparse st.
  destruct (mount_spec c l) as (Mu & Mp & Ml & Mt & Mlt & _).
  fold st in Mu, Mp, Ml, Mt, Mlt.
  assert (Htr : JS.truthy s = true) by (destruct s; [contradiction | reflexivity]).
  rewrite Hl in Mu, Mp, Ml. cbn in Mu, Mp, Ml. rewrite Htr, Hparse in Mu, Mp, Ml.
  split; [exact Mu|]. split; [exact Mp|]. split; [exact Ml|]. split; [exact Mlt|].
  intros t Ht Hne. rewrite Ht in Mt. cbn in Mt.
  destruct t; [contradiction | exact Mt].
Qed.

Lemma corrupt_user_discarded_witness :
  let l : gmap string Stored :=
    <["stitchpix_user" := Str "{oops"]> (<["stitchpix_token" := Str "tok-1"]> ∅) in
  let st := mount Fixture.codec l in
  currentPage st = Login /\ localStorage st !! "stitchpix_user" = None /\
  token (auth st) = Some "tok-1".
Proof.
  intros l st.
  assert (Hu : l !! "stitchpix_user" = Some (Str "{oops")) by reflexivity.
  destruct (corrupt_user_discarded Fixture.codec l "{oops" Hu
              ltac:(discriminate) eq_refl)
    as (_ & Hp & Hl & _ & Ht).
  split; [exact Hp|]. split; [exact Hl|].
  apply Ht; [reflexivity | discriminate].
Defined.

(** X10.  The stored API key follows the key field: after every edit the
    entry "stitchpix_api_key" holds the key, or is absent when the field
    is empty, and a reload brings the same key back. *)
Theorem api_key_persisted (c : JsonCodec) (key : string) (st : State) :
  let st' := typeApiKey key st in
  apiKey (app st') = key /\
  keyMirrored st' /\
  (key = "" -> localStorage st' !! "stitchpix_api_key" = None) /\
  apiKey (app (mount c (localStorage st'))) = key.
Proof.
  intros st'.
  assert (H : apiKey (app st') = key /\
              localStorage st' !! "stitchpix_api_key"
              = if JS.truthy key then Some (Str key) else None).
  { subst st'. destruct st as [p a [up dp g k i ui e s] l].
    unfold typeApiKey, persistApiKey. cbn.
    destruct (JS.truthy key); cbn; lookup_simpl; split; reflexivity. }
  destruct H as [Hk Hl].
  split; [exact Hk|]. split; [unfold keyMirrored; rewrite Hk; exact Hl|].
  split; [intros ->; exact Hl|].
  destruct (mount_spec c (localStorage st')) as (_ & _ & _ & _ & _ & Ma & _).
  rewrite Ma, Hl. destruct key; reflexivity.
Qed.

Lemma api_key_persisted_witness :
  localStorage (typeApiKey "" (typeApiKey "key-9" Scenario.initial))
    !! "stitchpix_api_key" = None.
Proof.
  destruct (api_key_persisted Fixture.codec ""
              (typeApiKey "key-9" Scenario.initial))
    as (_ & _ & Hnone & _).
  exact (Hnone eq_refl).
Defined.


(** ** Busy flags *)

Lemma finallyGenerate_flag (env : Env) (st : State) :
  mounted env = true -> isGenerating (app (finallyGenerate env st)) = false.
Proof.
  intros Hm. unfold finallyGenerate. rewrite Hm.
  destruct st as [p a [up dp g k i ui e s] l]. reflexivity.
Qed.

(** X11.  No handler that runs to its end leaves its busy flag raised: in
    a mounted component, a flag that was down before login, sign-up or
    generate is down after it.  Generate leaves [isGenerating] raised
    exactly when it is stuck on a merge that never settles. *)
Theorem busy_flags_released (v : Variant) (env : Env) (st : State) :
  mounted env = true ->
  (isLoadingAuth (auth st) = false ->
   isLoadingAuth (auth (final (handleLogin v env st))) = false /\
   isLoadingAuth (auth (final (handleSignUp v env st))) = false) /\
  (isGenerating (app st) = false ->
   completed (handleGenerate v env st) = true ->
   isGenerating (app (final (handleGenerate v env st))) = false) /\
  (completed (handleGenerate v env st) = false ->
   isGenerating (app (final (handleGenerate v env st))) = true).
Proof.
  intros Hm.
  assert (Hfa : forall s, isLoadingAuth (auth (finallyAuth env s)) = false).
  { intros s. destruct (finallyAuth_spec env s) as (_ & _ & _ & _ & _ & _ & _ & _ & _ & H & _).
    exact (H Hm). }
  assert (Hfg : forall s, isGenerating (app (finallyGenerate env s)) = false).
  { intros s. apply finallyGenerate_flag. exact Hm. }
  split; [|split].
  - intros Hflag.
    destruct st as [p [us tk ae il an em pw] b l]. cbn in Hflag. subst il.
    split.
    + unfold handleLogin. cbn -[isValidEmail JS.trim finallyAuth storeSession messageOr].
      destruct (isValidEmail em); [|reflexivity].
      destruct (JS.truthy pw); [|reflexivity].
      cbn -[isValidEmail JS.trim finallyAuth storeSession messageOr].
      destruct (fetch env _) as [e|res]; [apply Hfa|].
      destruct (ok res); [destruct (isNull (jsonOrEmpty res))|]; apply Hfa.
    + unfold handleSignUp.
      cbn -[Nat.ltb isValidEmail isValidPassword JS.trim JS.length finallyAuth
            storeSession messageOr].
      destruct (negb (JS.truthy an) || (JS.length (JS.trim an) <? 2)%nat);
        [reflexivity|].
      destruct (isValidEmail em); [|reflexivity].
      destruct (isValidPassword pw); [|reflexivity].
      cbn -[JS.trim finallyAuth storeSession messageOr].
      destruct (fetch env _) as [e|res]; [apply Hfa|].
      destruct (ok res); [destruct (isNull (jsonOrEmpty res))|]; apply Hfa.
  - intros Hflag.
    unfold handleGenerate.
    destruct (missingCredential v (setErrorMessage "" st)) as [msg|].
    + destruct st as [p a [[u|] [d|] g k i ui e s] l]; cbn in *; subst i;
        try reflexivity.
      destruct (negb (JS.truthy u) || negb (JS.truthy d)); reflexivity.
    + destruct st as [p a [[u|] [d|] g k i ui e s] l]; cbn in Hflag; subst i;
        cbn -[finallyGenerate runModel createMergedImages]; try reflexivity.
      destruct (negb (JS.truthy u) || negb (JS.truthy d)); [reflexivity|].
      destruct (runModel v env s k u d) as [[result|err|] lg];
        cbn -[finallyGenerate createMergedImages].
      * intros _. apply Hfg.
      * destruct (createMergedImages env u d) as [fb|fbErr|];
          cbn -[finallyGenerate]; intros Hc; first [apply Hfg | discriminate Hc].
      * discriminate.
  - unfold handleGenerate.
    destruct (missingCredential v (setErrorMessage "" st)) as [msg|].
    + destruct st as [p a [[u|] [d|] g k i ui e s] l]; cbn; try discriminate.
      destruct (negb (JS.truthy u) || negb (JS.truthy d)); discriminate.
    + destruct st as [p a [[u|] [d|] g k i ui e s] l];
        cbn -[finallyGenerate runModel createMergedImages]; try discriminate.
      destruct (negb (JS.truthy u) || negb (JS.truthy d)); [discriminate|].
      destruct (runModel v env s k u d) as [[result|err|] lg];
        cbn -[finallyGenerate createMergedImages].
      * discriminate.
      * destruct (createMergedImages env u d) as [fb|fbErr|];
          cbn -[finallyGenerate]; first [discriminate | reflexivity].
      * reflexivity.
Qed.

Lemma busy_flags_released_witness :
  completed (handleGenerate OptionA Scenario.brokenCanvas (Scenario.ready "canvas" ""))
  = false /\
  isGenerating (app (final (handleGenerate OptionA Scenario.brokenCanvas
                              (Scenario.ready "canvas" "")))) = true /\
  isGenerating (app (final (handleGenerate OptionA Scenario.offline
                              (Scenario.ready "canvas" "")))) = false.
Proof.
  destruct (busy_flags_released OptionA Scenario.brokenCanvas
              (Scenario.ready "canvas" "") eq_refl) as (_ & _ & Hstuck).
  destruct (busy_flags_released OptionA Scenario.offline
              (Scenario.ready "canvas" "") eq_refl) as (_ & Hdone & _).
  split; [reflexivity|]. split; [exact (Hstuck eq_refl) | exact (Hdone eq_refl eq_refl)].
Defined.

(** ** Image upload, when the file is accepted *)

(** X12.  An accepted file is read once.  When the read succeeds the data
    URL lands in the slot the input belongs to ("user", anything else
    being the dress), the other slot is untouched, the uploading flag is
    down and no message is left.  When the read fails the message is the
    read-failure one and, because [loadend] follows [error], the slot is
    emptied, losing a photo picked before. *)
Theorem accepted_file_is_read (v : Variant) (env : Env) (file : File) (slot : string)
    (st : State) :
  validateImageFile v file = None ->
  mounted env = true ->
  let r := handleImageUpload v env (Some file) slot st in
  let mine := if String.eqb slot "user" then userPhoto else dressPhoto in
  let other := if String.eqb slot "user" then dressPhoto else userPhoto in
  log r = [ReadAsDataURL file] /\
  other (app (final r)) = other (app st) /\
  isUploadingImage (app (final r)) = false /\
  (forall dataUrl, readFile env file = Some dataUrl ->
                   mine (app (final r)) = Some dataUrl /\
                   errorMessage (app (final r)) = "") /\
  (readFile env file = None ->
   mine (app (final r)) = None /\
   errorMessage (app (final r)) = Msg.readFailed v).
Proof.
  intros Hvalid Hm.
  unfold handleImageUpload, reader_onloadend, reader_onerror, setPhoto.
  rewrite Hvalid, Hm.
  destruct st as [p a [up dp g k i ui e s] l].
  destruct (readFile env file) as [dataUrl|], (String.eqb slot "user"); cbn;
    repeat split; intros; simplify_eq; first [reflexivity | discriminate].
Qed.

Lemma accepted_file_is_read_witness :
  let st := setDressPhoto (Some Scenario.garment) Scenario.initial in
  dressPhoto (app (final (handleImageUpload OptionA Fixture.unreadable
                            (Some Fixture.photo) "dress" st))) = None /\
  userPhoto (app (final (handleImageUpload OptionA Scenario.offline
                           (Some Fixture.photo) "user" st))) = Some Scenario.subject.
Proof.
  intros st.
  destruct (accepted_file_is_read OptionA Fixture.unreadable Fixture.photo "dress" st
              eq_refl eq_refl) as (_ & _ & _ & _ & Hfail).
  destruct (accepted_file_is_read OptionA Scenario.offline Fixture.photo "user" st
              eq_refl eq_refl) as (_ & _ & _ & Hok & _).
  split; [exact (proj1 (Hfail eq_refl)) | exact (proj1 (Hok _ eq_refl))].
Defined.

(** ** Remote models that answer *)

Lemma gate_open_with_key (v : Variant) (st : State) :
  JS.truthy (apiKey (app st)) = true -> missingCredential v st = None.
Proof.
  intros Hk. unfold missingCredential.
  destruct (currentModelData v _) as [m|]; [|reflexivity].
  rewrite Hk, andb_false_r. reflexivity.
Qed.

(** X13.  When NanoBanana answers with an ok status and a URL, generate
    stores exactly one image marked nanobanana whose URL is [output_url]
    if that is present, [image_url] otherwise; it sends the one request
    with the key as bearer credential and both photos, never runs the
    compositor, shows the results page and leaves no message. *)
Theorem nanobanana_result_stored (v : Variant) (env : Env) (st : State)
    (u d : string) (res : Response) (data : Json) :
  userPhoto (app st) = Some u ->
  dressPhoto (app st) = Some d ->
  JS.truthy u = true ->
  JS.truthy d = true ->
  selectedModel (app st) = "nanobanana" ->
  JS.truthy (apiKey (app st)) = true ->
  base64ToBlob env u = None ->
  base64ToBlob env d = None ->
  let req := {| endpoint := NanoBananaTryOn; credential := Some (apiKey (app st));
                body := TryOnForm u d |} in
  fetch env req = inr res ->
  ok res = true ->
  json res = inr data ->
  JS.truthy_opt (output_url data) || JS.truthy_opt (image_url data) = true ->
  let r := handleGenerate v env st in
  let shown := if JS.truthy_opt (output_url data) then output_url data
               else image_url data in
  log r = [Fetch req] /\
  composeCalls (log r) = 0%nat /\
  completed r = true /\
  currentPage (final r) = Results /\
  errorMessage (app (final r)) = "" /\
  exists link,
    shown = Some link /\
    generatedImages (app (final r)) =
    [ {| imageId := 1; url := link; quality := Msg.nanoQuality v;
         source := "nanobanana" |} ].
Proof.
  intros Hu Hd Htu Htd Hsel Hkey Hbu Hbd req Hfetch Hok Hjson Hurl r shown.
  assert (Hbody : isNull data = false)
    by (destruct data; [discriminate Hurl | reflexivity]).
  subst r. rewrite (handleGenerate_dispatch v env st u d Hu Hd Htu Htd
                      (gate_open_with_key v st Hkey)).
  unfold dispatch.
  assert (Hsame : selectedModel (app (setIsGenerating true (setErrorMessage "" st)))
                  = selectedModel (app st) /\
                  apiKey (app (setIsGenerating true (setErrorMessage "" st)))
                  = apiKey (app st)).
  { destruct st as [p a [] ls]. split; reflexivity. }
  destruct Hsame as [-> ->]. rewrite Hsel.
  unfold runModel, callNanoBanana. cbn [String.eqb Ascii.eqb Bool.eqb andb].
  rewrite Hkey, Hbu, Hbd. cbn [negb]. fold req. rewrite Hfetch, Hok. cbn [negb].
  rewrite Hjson, Hbody, Hurl. unfold remoteImage, JS.or_else. fold shown.
  assert (Hlink : exists link, shown = Some link).
  { subst shown. destruct (output_url data) as [o|]; cbn in *.
    - destruct (JS.truthy o); [eexists; reflexivity|].
      destruct (image_url data); [eexists; reflexivity | discriminate].
    - destruct (image_url data); [eexists; reflexivity | discriminate]. }
  destruct Hlink as [link Hlink]. rewrite Hlink. cbn [default].
  cbn [done log completed final].
  match goal with
  | |- context [setGeneratedImages ?imgs ?s] =>
      destruct (shown_result env imgs s) as [Hg [Hp He]]
  end.
  split; [reflexivity|]. split; [reflexivity|]. split; [reflexivity|].
  split; [exact Hp|].
  split; [rewrite He; destruct st as [p a [] ls]; reflexivity|].
  exists link. split; [reflexivity | exact Hg].
Qed.

Lemma nanobanana_result_stored_witness :
  List.map url
    (generatedImages
       (app (final (handleGenerate OptionA (Fixture.answering Fixture.rendered)
                      (Scenario.ready "nanobanana" "key-9")))))
  = ["https://cdn.example/out.png"].
Proof.
  destruct (nanobanana_result_stored OptionA (Fixture.answering Fixture.rendered)
              (Scenario.ready "nanobanana" "key-9")
              Scenario.subject Scenario.garment Fixture.rendered
              (JsonValue (Some "https://cdn.example/out.png")
                 (Some "https://cdn.example/alt.png") None None None)
              eq_refl eq_refl eq_refl eq_refl eq_refl eq_refl eq_refl eq_refl
              eq_refl eq_refl eq_refl eq_refl)
    as (_ & _ & _ & _ & _ & link & Hlink & Himgs).
  rewrite Himgs. cbn in Hlink. inversion Hlink. reflexivity.
Defined.

(** X14.  DeepAI is sent the user photo only and is read for [output_url]
    only: an ok answer that carries [image_url] but no [output_url]
    counts as a failure.  Generate then runs the compositor after the one
    request and shows the advisory "DeepAI returned no image"; when the
    compositor resolves, its result is stored and the results page shown;
    when it never settles, generate does not complete and stores
    nothing. *)
Theorem deepai_ignores_image_url (v : Variant) (env : Env) (st : State)
    (u d : string) (res : Response) (data : Json) :
  userPhoto (app st) = Some u ->
  dressPhoto (app st) = Some d ->
  JS.truthy u = true ->
  JS.truthy d = true ->
  selectedModel (app st) = "deepai" ->
  JS.truthy (apiKey (app st)) = true ->
  let req := {| endpoint := DeepAIImageEditor; credential := Some (apiKey (app st));
                body := ImageEditorBody u
                          "merge with dress image and create virtual try-on" |} in
  fetch env req = inr res ->
  ok res = true ->
  json res = inr data ->
  JS.truthy_opt (image_url data) = true ->
  JS.truthy_opt (output_url data) = false ->
  let r := handleGenerate v env st in
  log r = [Fetch req; Compose u d] /\
  errorMessage (app (final r)) =
    Msg.fallingBack v {| message := "DeepAI returned no image" |} /\
  (forall imgs, createMergedImages env u d = Resolved imgs ->
                completed r = true /\
                currentPage (final r) = Results /\
                generatedImages (app (final r)) = imgs) /\
  (createMergedImages env u d = Pending ->
   completed r = false /\
   currentPage (final r) = currentPage st /\
   generatedImages (app (final r)) = generatedImages (app st)).
Proof.
  intros Hu Hd Htu Htd Hsel Hkey req Hfetch Hok Hjson Himg Hurl r.
  assert (Hbody : isNull data = false)
    by (destruct data; [discriminate Himg | reflexivity]).
  subst r. rewrite (handleGenerate_dispatch v env st u d Hu Hd Htu Htd
                      (gate_open_with_key v st Hkey)).
  destruct (deepai_failures v env (apiKey (app st)) u d Hkey) as (_ & _ & _ & Hnone).
  pose proof (Hnone res data Hfetch Hok Hjson Hbody Hurl) as Hrun.
  rewrite <- Hsel in Hrun at 1.
  destruct (dispatch_rejected v env st u d _ _ Hrun) as (Hlog & Hmsg & Hres & Hpend).
  split; [exact Hlog|]. split; [exact Hmsg|]. split; [exact Hres|].
  intros Hp. destruct (Hpend Hp) as (Hc & Hpage & Himgs & _).
  split; [exact Hc|]. split; [exact Hpage | exact Himgs].
Qed.

Lemma deepai_ignores_image_url_witness :
  let r := handleGenerate OptionB (Fixture.answering Fixture.renderedAlt)
             (Scenario.ready "deepai" "key-9") in
  List.map source (generatedImages (app (final r))) = ["canvas"] /\
  completed r = true /\
  errorMessage (app (final r)) = "DeepAI returned no image — falling back to canvas...".
Proof.
  intros r.
  destruct (deepai_ignores_image_url OptionB (Fixture.answering Fixture.renderedAlt)
              (Scenario.ready "deepai" "key-9")
              Scenario.subject Scenario.garment Fixture.renderedAlt
              (JsonValue None (Some "https://cdn.example/alt.png") None None None)
              eq_refl eq_refl eq_refl eq_refl eq_refl eq_refl
              eq_refl eq_refl eq_refl eq_refl eq_refl)
    as (_ & Hmsg & Hres & _).
  destruct (Hres _ eq_refl) as (Hc & _ & Himgs).
  split; [exact (eq_trans (f_equal (List.map source) Himgs) eq_refl)|].
  split; [exact Hc | exact Hmsg].
Defined.

(** ** Bounds on what generate does *)

Ltac bounds_done :=
  repeat split; intros; simplify_eq; try reflexivity; try lia; try congruence;
  try match goal with
      | H : forall e, ?x <> Rejected e |- _ => exfalso; eapply H; reflexivity
      end.

Lemma callNanoBanana_one (v : Variant) (env : Env) (key u d : string) :
  match fst (callNanoBanana v env key u d) with
  | Resolved imgs =>
      List.length imgs = 1%nat /\ snd (callNanoBanana v env key u d) <> []
  | Rejected _ => True
  | Pending => False
  end.
Proof.
  unfold callNanoBanana, remoteImage.
  destruct (negb (JS.truthy key)); [exact I|].
  destruct (base64ToBlob env u); [exact I|].
  destruct (base64ToBlob env d); [exact I|].
  destruct (fetch env _) as [e|res]; [exact I|].
  destruct (negb (ok res)); [exact I|].
  destruct (json res) as [e|result]; [exact I|].
  destruct (isNull result); [exact I|].
  destruct (JS.truthy_opt (output_url result) || JS.truthy_opt (image_url result));
    [split; [reflexivity | discriminate] | exact I].
Qed.

Lemma callDeepAI_one (v : Variant) (env : Env) (key u : string) :
  match fst (callDeepAI v env key u) with
  | Resolved imgs =>
      List.length imgs = 1%nat /\ snd (callDeepAI v env key u) <> []
  | Rejected _ => True
  | Pending => False
  end.
Proof.
  unfold callDeepAI, remoteImage.
  destruct (negb (JS.truthy key)); [exact I|].
  destruct (fetch env _) as [e|res]; [exact I|].
  destruct (negb (ok res)); [exact I|].
  destruct (json res) as [e|data]; [exact I|].
  destruct (isNull data); [exact I|].
  destruct (JS.truthy_opt (output_url data));
    [split; [reflexivity | discriminate] | exact I].
Qed.

(** A run of the model makes at most one call; it rejects only after a
    request, never after the compositor; when it resolves it has made a
    call and holds one image. *)
Lemma runModel_bounds (v : Variant) (env : Env) (sel key u d : string) :
  let result := fst (runModel v env sel key u d) in
  let l := snd (runModel v env sel key u d) in
  (networkCalls l + composeCalls l <= 1)%nat /\
  (composeCalls l = 1%nat -> forall e, result <> Rejected e) /\
  (forall imgs, result = Resolved imgs -> List.length imgs = 1%nat) /\
  ((forall e, result <> Rejected e) -> l <> []).
Proof.
  unfold runModel.
  destruct (String.eqb sel "nanobanana");
    [|destruct (String.eqb sel "deepai")].
  - pose proof (callNanoBanana_log v env key u d) as [Hc Hn].
    pose proof (callNanoBanana_one v env key u d) as Hone.
    destruct (callNanoBanana v env key u d) as [[imgs|e|] l]; cbn [fst snd] in *;
      [|bounds_done|contradiction].
    destruct Hone as [Hlen Hne].
    destruct imgs as [|img imgs]; [discriminate Hlen|]. cbn [fst snd].
    bounds_done.
  - pose proof (callDeepAI_log v env key u) as [Hc Hn].
    pose proof (callDeepAI_one v env key u) as Hone.
    destruct (callDeepAI v env key u) as [[imgs|e|] l]; cbn [fst snd] in *;
      [|bounds_done|contradiction].
    destruct Hone as [Hlen Hne].
    destruct imgs as [|img imgs]; [discriminate Hlen|]. cbn [fst snd].
    bounds_done.
  - destruct (createMergedImages env u d) as [imgs|e|] eqn:Hc.
    + pose proof (createMergedImages_singleton env u d imgs Hc) as Hlen.
      destruct imgs as [|img [|img' imgs]]; cbn in Hlen; try discriminate.
      cbn. bounds_done.
    + exfalso. eapply createMergedImages_never_rejects. exact Hc.
    + cbn. bounds_done.
Qed.

Lemma finallyGenerate_keeps (env : Env) (st : State) :
  generatedImages (app (finallyGenerate env st)) = generatedImages (app st) /\
  currentPage (finallyGenerate env st) = currentPage st /\
  selectedModel (app (finallyGenerate env st)) = selectedModel (app st) /\
  apiKey (app (finallyGenerate env st)) = apiKey (app st) /\
  localStorage (finallyGenerate env st) = localStorage st.
Proof.
  unfold finallyGenerate. destruct (mounted env); [|repeat split].
  destruct st as [p a [up dp g k i ui e s] l]. repeat split.
Qed.

(** X15.  One generate makes at most one request and runs the compositor
    at most once, whatever the model, the browser and the answers are;
    if it shows the results page it has stored exactly one image. *)
Theorem generate_is_bounded (v : Variant) (env : Env) (st : State) :
  let r := handleGenerate v env st in
  (networkCalls (log r) <= 1)%nat /\
  (composeCalls (log r) <= 1)%nat /\
  (currentPage (final r) = Results ->
   currentPage st <> Results ->
   List.length (generatedImages (app (final r))) = 1%nat).
Proof.
  unfold handleGenerate.
  destruct (missingCredential v (setErrorMessage "" st)) as [msg|].
  - destruct st as [p a [[u|] [d|] g k i ui e s] l]; cbn;
      try (split; [lia|]; split; [lia|]; intros; contradiction).
    destruct (negb (JS.truthy u) || negb (JS.truthy d)); cbn;
      split; try lia; split; try lia; intros; contradiction.
  - destruct st as [p a [[u|] [d|] g k i ui e s] l];
      cbn -[finallyGenerate runModel createMergedImages];
      try (split; [cbn; lia|]; split; [cbn; lia|]; intros; contradiction).
    destruct (negb (JS.truthy u) || negb (JS.truthy d));
      [cbn; split; [lia|]; split; [lia|]; intros; contradiction|].
    pose proof (runModel_bounds v env s k u d) as Hb.
    destruct (runModel v env s k u d) as [[result|err|] lg];
      cbn [fst snd] in Hb; destruct Hb as (Hcalls & Hnorej & Hone & _);
      cbn -[finallyGenerate createMergedImages].
    + split; [unfold networkCalls, composeCalls in *; lia|].
      split; [unfold networkCalls, composeCalls in *; lia|].
      intros _ _.
      rewrite (proj1 (finallyGenerate_keeps env _)). cbn.
      apply Hone. reflexivity.
    + assert (Hnc : composeCalls lg = 0%nat).
      { destruct (composeCalls lg) as [|[|n]] eqn:Hcc; [reflexivity| |lia].
        exfalso. exact (Hnorej eq_refl err eq_refl). }
      assert (Hlog : (networkCalls (lg ++ [Compose u d]) <= 1)%nat /\
                     (composeCalls (lg ++ [Compose u d]) <= 1)%nat).
      { unfold networkCalls, composeCalls in *. rewrite !count_app. cbn. lia. }
      destruct (createMergedImages env u d) as [fb|fbErr|] eqn:Hc;
        cbn -[finallyGenerate];
        (split; [apply Hlog|]); (split; [apply Hlog|]).
      * intros _ _.
        rewrite (proj1 (finallyGenerate_keeps env _)). cbn.
        eapply createMergedImages_singleton. exact Hc.
      * exfalso. eapply createMergedImages_never_rejects. exact Hc.
      * intros Hp Hnp. contradiction.
    + split; [unfold networkCalls, composeCalls in *; lia|].
      split; [unfold networkCalls, composeCalls in *; lia|].
      intros Hp Hnp. contradiction.
Qed.

Lemma generate_is_bounded_witness :
  let r := handleGenerate OptionA Scenario.offline (Scenario.ready "nanobanana" "key-9") in
  currentPage (final r) = Results /\
  List.length (generatedImages (app (final r))) = 1%nat.
Proof.
  intros r.
  destruct (generate_is_bounded OptionA Scenario.offline
              (Scenario.ready "nanobanana" "key-9")) as (_ & _ & Hone).
  split; [reflexivity|]. apply Hone; [reflexivity | discriminate].
Defined.

(** X16.  The generate button is disabled exactly when a press would be
    turned away: with no generation in flight, [generateDisabled] holds
    if and only if [handleGenerate] would stop at one of its two checks
    and make no call. *)
Theorem button_matches_checks (v : Variant) (env : Env) (st : State) :
  isGenerating (app st) = false ->
  (generateDisabled v st = true <-> log (handleGenerate v env st) = []).
Proof.
  intros Hflag.
  assert (Hgate : missingCredential v (setErrorMessage "" st) = None <->
                  requiresCredential (currentModelData v (selectedModel (app st)))
                  && negb (JS.truthy (apiKey (app st))) = false).
  { rewrite missingCredential_setErrorMessage. unfold missingCredential, requiresCredential.
    destruct (currentModelData v _) as [m|]; [|tauto].
    destruct (needsApi m && negb (JS.truthy (apiKey (app st)))); split; congruence. }
  unfold generateDisabled, handleGenerate. rewrite Hflag. cbn [orb].
  destruct (missingCredential v (setErrorMessage "" st)) as [msg|] eqn:Hm.
  - assert (Hreq : requiresCredential (currentModelData v (selectedModel (app st)))
                   && negb (JS.truthy (apiKey (app st))) = true).
    { destruct (requiresCredential _ && _); [reflexivity|].
      destruct Hgate as [_ H]. discriminate (H eq_refl). }
    rewrite Hreq, orb_true_r.
    destruct st as [p a [[u|] [d|] g k i ui e s] l]; cbn; try tauto.
    destruct (negb (JS.truthy u) || negb (JS.truthy d)); cbn; tauto.
  - rewrite (proj1 Hgate eq_refl), orb_false_r.
    destruct st as [p a [[u|] [d|] g k i ui e s] l];
      cbn -[finallyGenerate runModel createMergedImages];
      rewrite ?orb_true_r; try tauto.
    destruct (negb (JS.truthy u) || negb (JS.truthy d)) eqn:Hph;
      cbn -[finallyGenerate runModel createMergedImages]; [tauto|].
    split; [discriminate|].
    pose proof (runModel_bounds v env s k u d) as Hb.
    destruct (runModel v env s k u d) as [[result|err|] lg] eqn:Hr;
      cbn [fst snd] in Hb; destruct Hb as (_ & _ & _ & Hne);
      cbn -[finallyGenerate createMergedImages].
    + intros ->. exfalso. apply Hne; [discriminate | reflexivity].
    + destruct (createMergedImages env u d); cbn; intros H;
        destruct lg; discriminate H.
    + intros ->. exfalso. apply Hne; [discriminate | reflexivity].
Qed.

Lemma button_matches_checks_witness :
  generateDisabled OptionA (Scenario.ready "replicate" "") = true /\
  log (handleGenerate OptionA Scenario.offline (Scenario.ready "replicate" "")) = [].
Proof.
  split; [reflexivity|].
  apply (button_matches_checks OptionA Scenario.offline (Scenario.ready "replicate" "")
           eq_refl).
  reflexivity.
Defined.

(** ** Invariants of the screen *)

Lemma frames_invariant (v : Variant) (st st' : State) :
  frames st st' -> invariant v st -> invariant v st'.
Proof.
  unfold frames, invariant, keyMirrored.
  intros (Hs & Hk & Hl & Hpage) (I1 & I2 & I3).
  rewrite Hs, Hk, Hl. split; [exact I1|]. split; [|exact I3].
  intros Hres. destruct Hpage as [[Hg Hp]|[Hn|Hone]].
  - rewrite Hg. apply I2. rewrite <- Hp. exact Hres.
  - contradiction.
  - exact Hone.
Qed.

Lemma frames_auth_only (f : Auth -> Auth) (st : State) : frames st (onAuth f st).
Proof.
  destruct st as [p a b l]. unfold frames. cbn. repeat split; auto.
Qed.

Lemma frames_handleAuth (v : Variant) (env : Env) (isSignUp : bool) (st : State) :
  frames st (final (handleAuth v env isSignUp st)).
Proof.
  assert (Hfin : forall s, frames st s -> frames st (finallyAuth env s)).
  { intros s H. unfold finallyAuth. destruct (mounted env); [|exact H].
    destruct s as [p a b l]. exact H. }
  assert (Hstore : forall data fb s, frames st s ->
                     frames st (storeSession data fb s)).
  { intros data fb s (Hs & Hk & Hl & _).
    destruct (storeSession_spec data fb s) as (_ & _ & Hp & Happ & _ & _ & Hapi & _).
    unfold frames. rewrite Happ, Hapi, Hp.
    split; [exact Hs|]. split; [exact Hk|]. split; [exact Hl|].
    right; left; discriminate. }
  assert (Hauth : forall f s, frames st s -> frames st (onAuth f s)).
  { intros f [p a b l] H. exact H. }
  assert (H0 : frames st st).
  { unfold frames. repeat split; auto. }
  destruct isSignUp; unfold handleAuth, handleSignUp, handleLogin.
  - destruct (negb _ || _); [apply Hauth, Hauth, H0|].
    destruct (negb _); [apply Hauth, Hauth, H0|].
    destruct (negb _); [apply Hauth, Hauth, H0|].
    destruct (fetch env _) as [e|res]; cbn [final done].
    + apply Hfin, Hauth, Hauth, Hauth, H0.
    + destruct (negb (ok res)); cbn [final done].
      * apply Hfin, Hauth, Hauth, Hauth, H0.
      * destruct (isNull (jsonOrEmpty res)); cbn [final done].
        -- apply Hfin, Hauth, Hauth, Hauth, H0.
        -- apply Hfin, Hauth, Hauth, Hauth, Hstore, Hauth, Hauth, H0.
  - destruct (negb _); [apply Hauth, Hauth, H0|].
    destruct (negb _); [apply Hauth, Hauth, H0|].
    destruct (fetch env _) as [e|res]; cbn [final done].
    + apply Hfin, Hauth, Hauth, Hauth, H0.
    + destruct (negb (ok res)); cbn [final done].
      * apply Hfin, Hauth, Hauth, Hauth, H0.
      * destruct (isNull (jsonOrEmpty res)); cbn [final done].
        -- apply Hfin, Hauth, Hauth, Hauth, H0.
        -- apply Hfin, Hauth, Hauth, Hstore, Hauth, Hauth, H0.
Qed.

Lemma frames_refl (st : State) : frames st st.
Proof. unfold frames. repeat split; auto. Qed.

Ltac frames_done := solve [unfold frames; cbn; repeat split; auto].

Lemma frames_upload (v : Variant) (env : Env) (file : option File) (slot : string)
    (st : State) :
  frames st (final (handleImageUpload v env file slot st)).
Proof.
  unfold handleImageUpload, reader_onloadend, reader_onerror, setPhoto.
  destruct st as [p a [up dp g k i ui e s] l].
  destruct file as [file|]; [|frames_done].
  destruct (validateImageFile v file); [frames_done|].
  destruct (readFile env file), (negb (mounted env)), (String.eqb slot "user");
    frames_done.
Qed.

Lemma frames_generate (v : Variant) (env : Env) (st : State) :
  frames st (final (handleGenerate v env st)).
Proof.
  unfold handleGenerate.
  destruct (missingCredential v (setErrorMessage "" st)) as [msg|].
  - destruct st as [p a [[u|] [d|] g k i ui e s] l]; cbn; try frames_done.
    destruct (negb (JS.truthy u) || negb (JS.truthy d)); frames_done.
  - destruct st as [p a [[u|] [d|] g k i ui e s] l];
      cbn -[finallyGenerate runModel createMergedImages]; try frames_done.
    destruct (negb (JS.truthy u) || negb (JS.truthy d)); [frames_done|].
    pose proof (runModel_bounds v env s k u d) as Hb.
    destruct (runModel v env s k u d) as [[result|err|] lg];
      cbn [fst snd] in Hb; destruct Hb as (_ & _ & Hone & _);
      cbn -[finallyGenerate createMergedImages].
    + unfold frames.
      destruct (finallyGenerate_keeps env
                  {| currentPage := Results; auth := a;
                     app := {| userPhoto := Some u; dressPhoto := Some d;
                               generatedImages := result; apiKey := k;
                               isGenerating := true; isUploadingImage := ui;
                               errorMessage := ""; selectedModel := s |};
                     localStorage := l |})
        as (-> & _ & -> & -> & ->).
      cbn. repeat split. right; right. apply Hone. reflexivity.
    + destruct (createMergedImages env u d) as [fb|fbErr|] eqn:Hc;
        cbn -[finallyGenerate].
      * unfold frames.
        match goal with
        | |- context [finallyGenerate env ?s0] =>
            destruct (finallyGenerate_keeps env s0) as (-> & _ & -> & -> & ->)
        end.
        cbn. repeat split. right; right.
        eapply createMergedImages_singleton. exact Hc.
      * exfalso. eapply createMergedImages_never_rejects. exact Hc.
      * frames_done.
    + frames_done.
Qed.

Lemma frames_reset (st : State) : frames st (handleReset st).
Proof.
  destruct st as [p a [up dp g k i ui e s] l]. unfold frames. cbn.
  repeat split. right; left; discriminate.
Qed.

Lemma frames_logout (st : State) : frames st (confirmLogout st).
Proof.
  destruct st as [p [us tk ae il an em pw] [up dp g k i ui e s] l].
  unfold frames. cbn. lookup_simpl. repeat split. right; left; discriminate.
Qed.

Lemma invariant_mount (v : Variant) (c : JsonCodec) (l : gmap string Stored) :
  invariant v (mount c l).
Proof.
  destruct (mount_spec c l) as (_ & Hp & _ & _ & _ & _ & Hm & Hs & Hg & _).
  unfold invariant. rewrite Hs, Hg. split; [destruct v; cbn; auto|].
  split; [|exact Hm].
  intros Hres. rewrite Hp in Hres.
  destruct (l !! "stitchpix_user") as [x|]; [destruct (storedTruthy x);
    [destruct (JSON_parse c x) as [[u|]|]|]|]; discriminate.
Qed.

Lemma invariant_step (v : Variant) (env : Env) (e : Event) (st : State) :
  offered v e -> invariant v st -> invariant v (step v env e st).
Proof.
  intros Hoff Hinv.
  destruct e as [s|s|s| |isSignUp|m|s|file slot| | |]; cbn [step].
  - apply (frames_invariant v st); [apply frames_auth_only | exact Hinv].
  - apply (frames_invariant v st); [apply frames_auth_only | exact Hinv].
  - apply (frames_invariant v st); [apply frames_auth_only | exact Hinv].
  - unfold toggleSignUp.
    repeat (eapply frames_invariant; [apply frames_auth_only|]). exact Hinv.
  - apply (frames_invariant v st); [apply frames_handleAuth | exact Hinv].
  - cbn in Hoff. destruct Hinv as (_ & I2 & I3).
    destruct st as [p a [up dp g k i ui er sel] l].
    unfold invariant, keyMirrored, selectModel in *. cbn in *.
    split; [apply List.in_map; exact Hoff|]. split; assumption.
  - destruct Hinv as (I1 & I2 & _).
    destruct st as [p a [up dp g k i ui er sel] l].
    unfold invariant, keyMirrored, typeApiKey, persistApiKey in *. cbn in *.
    destruct (JS.truthy s) eqn:Hs; cbn; lookup_simpl; rewrite ?Hs;
      (split; [exact I1|]); split; first [exact I2 | reflexivity].
  - apply (frames_invariant v st); [apply frames_upload | exact Hinv].
  - apply (frames_invariant v st); [apply frames_generate | exact Hinv].
  - apply (frames_invariant v st); [apply frames_reset | exact Hinv].
  - apply (frames_invariant v st); [apply frames_logout | exact Hinv].
Qed.

Lemma reachable_invariant (v : Variant) (c : JsonCodec) (st : State) :
  Reachable v c st -> invariant v st.
Proof.
  induction 1 as [l | env e st _ IH Hoff].
  - apply invariant_mount.
  - apply invariant_step; assumption.
Qed.

(** X17.  In every state the screen can reach, the selected model is a
    registry entry, so both iterations resolve it to the descriptor with
    that id: the bare lookup of Option A never comes back empty. *)
Theorem selected_model_is_registered (v : Variant) (c : JsonCodec) (st : State) :
  Reachable v c st ->
  exists m,
    In m (allModels v) /\
    id m = selectedModel (app st) /\
    findModel v (selectedModel (app st)) = Some m /\
    currentModelData v (selectedModel (app st)) = Some m.
Proof.
  intros Hr. destruct (reachable_invariant v c st Hr) as (Hin & _).
  pose proof (findModel_spec v (selectedModel (app st))) as Hf.
  destruct (findModel v (selectedModel (app st))) as [m|] eqn:Hm;
    [|contradiction].
  destruct Hf as [Hinm Hid]. exists m.
  split; [exact Hinm|]. split; [exact Hid|]. split; [reflexivity|].
  unfold currentModelData. rewrite Hm. destruct v; reflexivity.
Qed.

(** X18.  Whenever the results page is showing there is exactly one
    generated image behind it, so the [generatedImages[0]] it renders is
    always there. *)
Theorem results_page_has_its_image (v : Variant) (c : JsonCodec) (st : State) :
  Reachable v c st ->
  currentPage st = Results ->
  exists img, generatedImages (app st) = [img].
Proof.
  intros Hr Hres. destruct (reachable_invariant v c st Hr) as (_ & Hone & _).
  specialize (Hone Hres).
  destruct (generatedImages (app st)) as [|img [|img' imgs]]; try discriminate.
  exists img. reflexivity.
Qed.

(** X19.  In every reachable state the entry "stitchpix_api_key" mirrors
    the key in memory: it holds the key, or is absent when the key is
    empty; no handler, logout included, lets the two drift apart. *)
Theorem stored_key_mirrors_state (v : Variant) (c : JsonCodec) (st : State) :
  Reachable v c st -> keyMirrored st.
Proof.
  intros Hr. destruct (reachable_invariant v c st Hr) as (_ & _ & Hm). exact Hm.
Qed.

Lemma session_reachable : Reachable OptionA Fixture.codec Fixture.session.
Proof.
  unfold Fixture.session.
  repeat (apply ReachStep; [|first [exact I | cbn; tauto]]).
  apply ReachMount.
Qed.

Lemma selected_model_is_registered_witness :
  exists m,
    currentModelData OptionA (selectedModel (app Fixture.session)) = Some m /\
    id m = "huggingface".
Proof.
  destruct (selected_model_is_registered OptionA Fixture.codec Fixture.session
              session_reachable)
    as (m & _ & Hid & _ & Hm).
  exists m. split; [exact Hm | exact Hid].
Defined.

Lemma results_page_has_its_image_witness :
  currentPage Fixture.session = Results /\
  exists img, generatedImages (app Fixture.session) = [img].
Proof.
  assert (Hp : currentPage Fixture.session = Results) by reflexivity.
  split; [exact Hp|].
  exact (results_page_has_its_image OptionA Fixture.codec Fixture.session
           session_reachable Hp).
Defined.

Lemma stored_key_mirrors_state_witness :
  localStorage Fixture.session !! "stitchpix_api_key" = Some (Str "hf_key").
Proof.
  exact (stored_key_mirrors_state OptionA Fixture.codec Fixture.session
           session_reachable).
Defined.

(** X20.  Starting over keeps the session and the settings and empties
    the work: after [handleReset] both photos, the results and the
    message are gone and the upload page is shown, the user, the token,
    the key, the chosen model and the storage are as before, and the
    generate button is disabled, a press on it making no call. *)
Theorem reset_empties_the_work (v : Variant) (env : Env) (st : State) :
  let st' := handleReset st in
  (userPhoto (app st') = None /\ dressPhoto (app st') = None /\
   generatedImages (app st') = [] /\ errorMessage (app st') = "" /\
   currentPage st' = Upload) /\
  (auth st' = auth st /\ apiKey (app st') = apiKey (app st) /\
   selectedModel (app st') = selectedModel (app st) /\
   localStorage st' = localStorage st) /\
  generateDisabled v st' = true /\
  log (handleGenerate v env st') = [] /\
  errorMessage (app (final (handleGenerate v env st'))) = Msg.uploadBoth v.
Proof.
  destruct st as [p a [up dp g k i ui e s] l].
  cbn. repeat split. unfold generateDisabled. cbn. destruct i; reflexivity.
Qed.

(** ** Where the overlay lands *)

(** X21.  The face box never leaves the canvas sideways, and it stays
    above the bottom edge whenever the canvas is less than three times
    as wide as it is high (width + 6 <= 3 * height); on a canvas at
    least four times as wide as high (4 * height + 6 <= width) it
    reaches below the bottom edge. *)
Theorem face_box_bounds (w h : Z) :
  0 <= w -> 0 <= h ->
  let face := faceBox w h in
  0 <= rx face /\ 0 <= ry face /\ 0 <= rw face /\ 0 <= rh face /\
  rx face + rw face <= w /\
  (w + 6 <= 3 * h -> inside face w h) /\
  (4 * h + 6 <= w -> h < ry face + rh face).
Proof.
  intros Hw Hh face.
  destruct (faceBox_spec w h) as (H1 & H2 & H3 & H4).
  fold face in H1, H2, H3, H4.
  unfold isPercentOf, isCentered, inside in *.
  repeat split; intros; lia.
Qed.

Lemma face_box_bounds_witness :
  inside (faceBox 1000 1500) 1000 1500 /\
  100 < ry (faceBox 1000 100) + rh (faceBox 1000 100).
Proof.
  destruct (face_box_bounds 1000 1500 ltac:(lia) ltac:(lia))
    as (_ & _ & _ & _ & _ & Hin & _).
  destruct (face_box_bounds 1000 100 ltac:(lia) ltac:(lia))
    as (_ & _ & _ & _ & _ & _ & Hout).
  split; [apply Hin; lia | apply Hout; lia].
Defined.

(** X22.  The crop taken from the user image always lies inside that
    image, whatever its size, so the cropped draw never asks for pixels
    that are not there; it is at least one pixel wide, and at least one
    pixel high unless the image is a single row, where it is empty. *)
Theorem user_crop_bounds (w h : Z) :
  0 <= w -> 0 <= h ->
  let cut := userCrop w h in
  inside cut w h /\
  (1 <= w -> 1 <= rw cut) /\
  (2 <= h -> 1 <= rh cut) /\
  (h = 1 -> rh cut = 0).
Proof.
  intros Hw Hh cut.
  destruct (userCrop_spec w h) as (H1 & H2 & H3 & H4).
  fold cut in H1, H2, H3, H4.
  unfold isPercentOf, inside in *.
  repeat split; intros; lia.
Qed.

Lemma user_crop_bounds_witness :
  inside (userCrop 800 600) 800 600 /\ rh (userCrop 640 1) = 0.
Proof.
  destruct (user_crop_bounds 800 600 ltac:(lia) ltac:(lia)) as (Hin & _).
  destruct (user_crop_bounds 640 1 ltac:(lia) ltac:(lia)) as (_ & _ & _ & Hrow).
  split; [exact Hin | exact (Hrow eq_refl)].
Defined.

(** X24.  The promise of [createMergedImages] stays unsettled exactly
    when both images decode and an unguarded draw throws: the base-layer
    draw of the dress image, or the whole-image overlay of the [catch]
    block after the cropped draw threw.  In every other case it
    settles. *)
Theorem merge_unsettled_iff (env : Env) (u d : string) :
  createMergedImages env u d = Pending <->
  exists uw uh dw dh,
    decodeImage env u = Some (uw, uh) /\
    decodeImage env d = Some (dw, dh) /\
    let userImg := {| src := u; imgWidth := uw; imgHeight := uh |} in
    let dressImg := {| src := d; imgWidth := dw; imgHeight := dh |} in
    (drawImageThrows env (baseLayer dressImg) <> None \/
     (drawImageThrows env (croppedOverlay userImg (faceBox dw dh)) <> None /\
      drawImageThrows env (wholeOverlay userImg (faceBox dw dh)) <> None)).
Proof. exact (createMergedImages_pending_iff env u d). Qed.

Lemma merge_unsettled_iff_witness :
  createMergedImages Scenario.brokenCanvas Scenario.subject Scenario.garment = Pending.
Proof.
  apply (proj2 (merge_unsettled_iff Scenario.brokenCanvas
                  Scenario.subject Scenario.garment)).
  exists 800, 600, 1000, 1500.
  split; [reflexivity|]. split; [reflexivity|]. left. discriminate.
Defined.

(** ** Data URLs *)

Lemma allChars_app (p : ascii -> bool) (x y : string) :
  allChars p (x +:+ y) = allChars p x && allChars p y.
Proof.
  induction x as [|c x IH]; [reflexivity|].
  rewrite append_cons. cbn [allChars]. rewrite IH. apply andb_assoc.
Qed.

Lemma allChars_weaken (p q : ascii -> bool) (s : string) :
  (forall c, p c = true -> q c = true) ->
  allChars p s = true -> allChars q s = true.
Proof.
  intros Hpq. induction s as [|c s IH]; cbn; [reflexivity|].
  intros H. apply andb_prop in H. destruct H as [Hc Hs].
  rewrite (Hpq c Hc), IH by assumption. reflexivity.
Qed.

Lemma splitBy_nonempty (sep : ascii) (s : string) : splitBy sep s <> [].
Proof.
  induction s as [|c s IH]; cbn; [discriminate|].
  destruct (splitBy sep s); [contradiction|].
  destruct (Ascii.eqb c sep); discriminate.
Qed.

(** Up to the first separator. *)
Lemma splitBy_first (sep : ascii) (a b : string) :
  allChars (fun c => negb (Ascii.eqb c sep)) a = true ->
  splitBy sep (a +:+ String sep b) = a :: splitBy sep b.
Proof.
  induction a as [|c a IH]; intros Ha.
  - rewrite append_nil_l. cbn. rewrite Ascii.eqb_refl.
    pose proof (splitBy_nonempty sep b) as Hne.
    destruct (splitBy sep b); [contradiction | reflexivity].
  - cbn in Ha. apply andb_prop in Ha. destruct Ha as [Hc Ha].
    rewrite append_cons. cbn [splitBy]. rewrite (IH Ha).
    apply negb_true_iff in Hc. rewrite Hc. reflexivity.
Qed.

Lemma splitBy_none (sep : ascii) (a : string) :
  allChars (fun c => negb (Ascii.eqb c sep)) a = true ->
  splitBy sep a = [a].
Proof.
  induction a as [|c a IH]; intros Ha; [reflexivity|].
  cbn in Ha. apply andb_prop in Ha. destruct Ha as [Hc Ha].
  cbn [splitBy]. rewrite (IH Ha). apply negb_true_iff in Hc. rewrite Hc. reflexivity.
Qed.

(** X23.  For a data URL of the shape the file reader produces,
    "data:" mime ";base64," payload, the string surgery of
    [base64ToBlob] recovers the MIME type and the payload exactly,
    provided the type holds none of "," ":" ";" and the payload no ",";
    on a string that holds no colon it throws. *)
Theorem data_url_parts (mime payload : string) :
  allChars (fun c => negb (Ascii.eqb c ",") && negb (Ascii.eqb c ":")
                     && negb (Ascii.eqb c ";")) mime = true ->
  allChars (fun c => negb (Ascii.eqb c ",")) payload = true ->
  let dataUrl := "data:" +:+ mime +:+ ";base64," +:+ payload in
  mimeString dataUrl = Some mime /\
  base64Payload dataUrl = Some payload /\
  (forall plain, allChars (fun c => negb (Ascii.eqb c ":")) plain = true ->
                 mimeString plain = None).
Proof.
  intros Hmime Hpay dataUrl.
  assert (Hm : forall sep, (sep = "," \/ sep = ":" \/ sep = ";")%char ->
                           allChars (fun c => negb (Ascii.eqb c sep)) mime = true).
  { intros sep Hsep. revert Hmime. apply allChars_weaken. intros c Hc.
    apply andb_prop in Hc. destruct Hc as [Hc H3].
    apply andb_prop in Hc. destruct Hc as [H1 H2].
    destruct Hsep as [->|[->| ->]]; assumption. }
  assert (Hhead : splitBy "," dataUrl
                  = ("data:" +:+ mime +:+ ";base64") :: [payload]).
  { subst dataUrl.
    replace ("data:" +:+ mime +:+ ";base64," +:+ payload)
      with (("data:" +:+ mime +:+ ";base64") +:+ String "," payload)
      by (rewrite !append_assoc; reflexivity).
    rewrite splitBy_first, (splitBy_none _ payload Hpay); [reflexivity|].
    rewrite !allChars_app, (Hm "," ltac:(auto))%char. reflexivity. }
  split; [|split].
  - unfold mimeString. rewrite Hhead.
    replace ("data:" +:+ mime +:+ ";base64")
      with ("data" +:+ String ":" (mime +:+ ";base64")) by reflexivity.
    rewrite splitBy_first by reflexivity.
    replace (mime +:+ ";base64") with (mime +:+ String ";" "base64") by reflexivity.
    rewrite (splitBy_none ":" (mime +:+ String ";" "base64")).
    + rewrite splitBy_first by (apply Hm; auto). reflexivity.
    + rewrite allChars_app, (Hm ":" ltac:(auto))%char. reflexivity.
  - unfold base64Payload. rewrite Hhead. reflexivity.
  - intros plain Hplain. unfold mimeString.
    pose proof (splitBy_nonempty "," plain) as Hne.
    destruct (splitBy "," plain) as [|header rest] eqn:Hs; [contradiction|].
    assert (Hh : allChars (fun c => negb (Ascii.eqb c ":")) header = true).
    { clear Hne. revert header rest Hs.
      induction plain as [|c plain IH]; intros header rest Hs.
      - cbn in Hs. inversion Hs. reflexivity.
      - cbn in Hplain. apply andb_prop in Hplain. destruct Hplain as [Hc Hp].
        cbn [splitBy] in Hs.
        destruct (splitBy "," plain) as [|piece more] eqn:Hsp;
          [discriminate|].
        destruct (Ascii.eqb c ",").
        + injection Hs as <- _. reflexivity.
        + injection Hs as <- <-. cbn. rewrite Hc.
          exact (IH Hp piece more eq_refl). }
    rewrite (splitBy_none ":" header Hh). reflexivity.
Qed.

Lemma data_url_parts_witness :
  mimeString "data:image/png;base64,iVBORw0KGgo=" = Some "image/png" /\
  base64Payload "data:image/png;base64,iVBORw0KGgo=" = Some "iVBORw0KGgo=" /\
  mimeString "not a data url" = None.
Proof.
  destruct (data_url_parts "image/png" "iVBORw0KGgo=" eq_refl eq_refl)
    as (Hm & Hp & Hnone).
  split; [exact Hm|]. split; [exact Hp|]. apply Hnone. reflexivity.
Defined.
